(** * gossipd: the peer-facing gossip engine

    A shallow embedding of [gossipd/gossipd.c] and the properties of its
    query protocol, timestamp filter, SCID codec, local-channel policy,
    staggered broadcast, peer bookkeeping and the requests of the main
    daemon.

    Conventions.  C unsigned integers are [Z] with the wrap-around written
    out ([to_u16], [to_u32], [to_u64]).  A [u8 *] that may be [NULL] is an
    [option (list Z)]; a tal array is a list and [tal_count NULL = 0].
    Pointers into the routing graph are the keys of the maps that own the
    pointees: a [struct chan *] is the channel's 64-bit id in [chanmap], a
    [struct node *] is the node's key in the node map.  The uintmaps of the
    routing core are [gmap Z _]. *)

From Stdlib Require Import ZArith Lia Bool.
From stdpp Require Import base option list sorting gmap fin_maps strings pretty.

Local Open Scope Z_scope.

(** ** Machine integers *)

Definition UINT16_MAX : Z := 65535.
Definition UINT32_MAX : Z := 4294967295.
Definition UINT64_MAX : Z := 18446744073709551615.

Definition to_u16 (z : Z) : Z := z mod 2 ^ 16.
Definition to_u32 (z : Z) : Z := z mod 2 ^ 32.
Definition to_u64 (z : Z) : Z := z mod 2 ^ 64.

Definition is_u16 (z : Z) : Prop := 0 <= z <= UINT16_MAX.
Definition is_u32 (z : Z) : Prop := 0 <= z <= UINT32_MAX.
Definition is_u64 (z : Z) : Prop := 0 <= z <= UINT64_MAX.

(** ** Identities

    [struct pubkey] and [struct bitcoin_blkid] are kept as their byte
    serialisation. *)

Abbreviation pubkey := (list Z) (only parsing).
Abbreviation blkid := (list Z) (only parsing).
Abbreviation bytes := (list Z) (only parsing).

Definition bitcoin_blkid_eq (a b : blkid) : bool := bool_decide (a = b).

Definition pubkey_eq (a b : pubkey) : bool := bool_decide (a = b).

(** Modelled from the spec: [pubkey_cmp] (common/pubkey.c, outside
    gossipd.c) is "the lexicographic byte order of the public-key
    representation", that is [memcmp] over the serialised keys. *)
Fixpoint memcmp (a b : bytes) : comparison :=
  match a, b with
  | [], [] => Eq
  | [], _ :: _ => Lt
  | _ :: _, [] => Gt
  | x :: a', y :: b' =>
      match Z.compare x y with
      | Eq => memcmp a' b'
      | c => c
      end
  end.

Definition pubkey_cmp (k1 k2 : pubkey) : comparison := memcmp k1 k2.

(** [pubkey_order] is the comparison handed to [asort]. *)
Definition pubkey_order (k1 k2 : pubkey) : comparison := pubkey_cmp k1 k2.

Definition pubkey_le (k1 k2 : pubkey) : Prop := pubkey_order k1 k2 <> Gt.
Definition pubkey_lt (k1 k2 : pubkey) : Prop := pubkey_order k1 k2 = Lt.

#[global] Instance pubkey_le_dec : RelDecision pubkey_le.
Proof. intros a b. unfold pubkey_le. apply _. Defined.

(** ** Short channel ids *)

(** Modelled from the spec: [mk_short_channel_id]
    (bitcoin/short_channel_id.c, outside gossipd.c).  "A 64-bit triple
    (block height, tx index, output index) with a total order given by the
    64-bit integer", block-then-tx-then-output in 3 + 3 + 2 bytes. *)
Definition mk_short_channel_id (blocknum txnum outnum : Z) : Z :=
  Z.lor (Z.lor (Z.shiftl (Z.land blocknum 16777215) 40)
               (Z.shiftl (Z.land txnum 16777215) 16))
        (Z.land outnum 65535).

(** Modelled from the spec: [short_channel_id_blocknum], the
    "[block(scid)]" the id exposes: its top three bytes. *)
Definition short_channel_id_blocknum (scid : Z) : Z := Z.shiftr scid 40.

(** ** The routing graph

    Modelled from the spec: the routing entities (gossipd/routing.h,
    outside gossipd.c), with the fields gossipd.c reads or writes. *)

Definition ROUTING_FLAGS_DIRECTION : Z := 1.
Definition ROUTING_FLAGS_DISABLED : Z := 2.
Definition ROUTING_OPT_HTLC_MAX_MSAT : Z := 1.

Record half_chan := {
  channel_update : option bytes;
  channel_flags : Z;
  message_flags : Z;
  last_timestamp : Z;
  delay : Z;
  htlc_minimum_msat : Z;
  base_fee : Z;
  proportional_fee : Z;
  htlc_maximum_msat : Z
}.

Record chan := {
  scid : Z;
  half : half_chan * half_chan;
  nodes : pubkey * pubkey;
  channel_announce : option bytes;
  channel_announcement_index : Z;
  local_disabled : bool;
  satoshis : Z
}.

Record node := {
  node_id : pubkey;
  node_last_timestamp : Z;
  chans : list Z;
  node_announcement : option bytes;
  node_announcement_index : Z
}.

Record queued_message := {
  qm_timestamp : Z;
  qm_payload : bytes
}.

Record broadcast_state := {
  next_index : Z;
  broadcast_map : gmap Z queued_message
}.

Record routing_state := {
  chain_hash : blkid;
  chanmap : gmap Z chan;
  node_map : gmap (list Z) node;
  broadcasts : broadcast_state;
  prune_timeout : Z;
  local_channel_announced : bool
}.

(** [chan->half[direction]] and [chan->nodes[direction]]. *)
Definition half_at (c : chan) (direction : Z) : half_chan :=
  if direction =? 0 then fst (half c) else snd (half c).

Definition node_at (c : chan) (direction : Z) : pubkey :=
  if direction =? 0 then fst (nodes c) else snd (nodes c).

(** Modelled from the spec: [is_chan_public], a channel that has its
    [channel_announcement]. *)
Definition is_chan_public (c : chan) : bool :=
  bool_decide (channel_announce c <> None).

(** Modelled from the spec: [is_chan_announced], a channel whose
    announcement has entered the broadcast log. *)
Definition is_chan_announced (c : chan) : bool :=
  negb (channel_announcement_index c =? 0).

(** Modelled from the spec: [is_halfchan_defined], a half that has had a
    [channel_update]. *)
Definition is_halfchan_defined (hc : half_chan) : bool :=
  bool_decide (channel_update hc <> None).

(** Modelled from the spec: [is_halfchan_enabled], defined and without the
    disabled flag. *)
Definition is_halfchan_enabled (hc : half_chan) : bool :=
  is_halfchan_defined hc
  && (Z.land (channel_flags hc) ROUTING_FLAGS_DISABLED =? 0).

(** Modelled from the spec: [get_channel(scid)] and [get_node(id)], the
    lookups of the routing core. *)
Definition get_channel (rstate : routing_state) (s : Z) : option chan :=
  chanmap rstate !! s.

Definition get_node (rstate : routing_state) (k : pubkey) : option node :=
  node_map rstate !! k.

(** Modelled from the spec: [other_node(n, chan)], the end of [chan] that
    is not [n]. *)
Definition other_node (n : node) (c : chan) : pubkey :=
  if pubkey_eq (snd (nodes c)) (node_id n) then fst (nodes c)
  else snd (nodes c).

Definition set_local_disabled (b : bool) (c : chan) : chan :=
  {| scid := scid c; half := half c; nodes := nodes c;
     channel_announce := channel_announce c;
     channel_announcement_index := channel_announcement_index c;
     local_disabled := b; satoshis := satoshis c |}.

Definition set_chanmap (m : gmap Z chan) (r : routing_state) : routing_state :=
  {| chain_hash := chain_hash r; chanmap := m; node_map := node_map r;
     broadcasts := broadcasts r; prune_timeout := prune_timeout r;
     local_channel_announced := local_channel_announced r |}.

(** Modelled from the spec: [uintmap_after(map, &idx)] (ccan/intmap), the
    step of the "walk in SCID order": the entry with the least key strictly
    above [idx], if any. *)
Definition uintmap_after {A} (m : gmap Z A) (idx : Z) : option (Z * A) :=
  foldr (fun kv best =>
           if idx <? fst kv then
             match best with
             | Some b => if fst kv <? fst b then Some kv else best
             | None => Some kv
             end
           else best)
        None (map_to_list m).

(** ** Wire messages

    Messages queued to a peer.  Gossip stored in the graph is an opaque
    byte string handed over as it is ([stored]), and so are the pong built
    by common/ping.c ([wire_pong]) and the error the routing core reports
    for a gossip message ([routing_error]); the messages this daemon builds
    itself keep the fields given to their [towire_] constructor. *)

Inductive wire_msg :=
| stored (payload : option bytes)
| wire_error (text : string)
| wire_gossip_timestamp_filter (chain : blkid) (first_timestamp timestamp_range : Z)
| wire_query_short_channel_ids (chain : blkid) (encoded : bytes)
| wire_reply_short_channel_ids_end (chain : blkid) (complete : bool)
| wire_query_channel_range (chain : blkid) (first_blocknum number_of_blocks : Z)
| wire_reply_channel_range (chain : blkid) (first_blocknum number_of_blocks : Z)
                           (complete : Z) (encoded : bytes)
| wire_ping (ping : bytes)
| wire_pong (pong : bytes)
| routing_error (err : bytes)
| gossip_get_update_reply (update : option bytes).

(** Messages sent to the main daemon on the control connection. *)
Inductive master_msg :=
| gossip_ping_reply (id : pubkey) (sent : bool) (totlen : Z)
| gossip_scids_reply (ok complete : bool).

(** ** Peers *)

Record peer := {
  peer_id : pubkey;
  gossip_queries_feature : bool;
  initial_routing_sync_feature : bool;
  broadcast_index : Z;
  gossip_timestamp_min : Z;
  gossip_timestamp_max : Z;
  scid_queries : option (list Z);
  scid_query_idx : nat;
  scid_query_nodes : option (list (list Z));
  scid_query_nodes_idx : nat;
  gossip_timer : bool;
  num_scid_queries_outstanding : Z;
  num_pings_outstanding : Z;
  dc : list wire_msg
}.

Record daemon := {
  daemon_id : pubkey;
  peers : list peer;
  master : list master_msg;
  rstate : routing_state;
  broadcast_interval_msec : Z
}.

(** The developer knobs ([#if DEVELOPER] globals). *)
Record dev_knobs := {
  max_scids_encode_bytes : Z;
  suppress_gossip : bool
}.

Definition dev_default : dev_knobs :=
  {| max_scids_encode_bytes := UINT32_MAX; suppress_gossip := false |}.

(** Field updates of [struct peer]. *)
Definition set_broadcast_index (v : Z) (p : peer) : peer :=
  {| peer_id := peer_id p;
     gossip_queries_feature := gossip_queries_feature p;
     initial_routing_sync_feature := initial_routing_sync_feature p;
     broadcast_index := v;
     gossip_timestamp_min := gossip_timestamp_min p;
     gossip_timestamp_max := gossip_timestamp_max p;
     scid_queries := scid_queries p; scid_query_idx := scid_query_idx p;
     scid_query_nodes := scid_query_nodes p;
     scid_query_nodes_idx := scid_query_nodes_idx p;
     gossip_timer := gossip_timer p;
     num_scid_queries_outstanding := num_scid_queries_outstanding p;
     num_pings_outstanding := num_pings_outstanding p; dc := dc p |}.

Definition set_gossip_timestamp_min (v : Z) (p : peer) : peer :=
  {| peer_id := peer_id p;
     gossip_queries_feature := gossip_queries_feature p;
     initial_routing_sync_feature := initial_routing_sync_feature p;
     broadcast_index := broadcast_index p;
     gossip_timestamp_min := v;
     gossip_timestamp_max := gossip_timestamp_max p;
     scid_queries := scid_queries p; scid_query_idx := scid_query_idx p;
     scid_query_nodes := scid_query_nodes p;
     scid_query_nodes_idx := scid_query_nodes_idx p;
     gossip_timer := gossip_timer p;
     num_scid_queries_outstanding := num_scid_queries_outstanding p;
     num_pings_outstanding := num_pings_outstanding p; dc := dc p |}.

Definition set_gossip_timestamp_max (v : Z) (p : peer) : peer :=
  {| peer_id := peer_id p;
     gossip_queries_feature := gossip_queries_feature p;
     initial_routing_sync_feature := initial_routing_sync_feature p;
     broadcast_index := broadcast_index p;
     gossip_timestamp_min := gossip_timestamp_min p;
     gossip_timestamp_max := v;
     scid_queries := scid_queries p; scid_query_idx := scid_query_idx p;
     scid_query_nodes := scid_query_nodes p;
     scid_query_nodes_idx := scid_query_nodes_idx p;
     gossip_timer := gossip_timer p;
     num_scid_queries_outstanding := num_scid_queries_outstanding p;
     num_pings_outstanding := num_pings_outstanding p; dc := dc p |}.

Definition set_scid_queries (v : option (list Z)) (p : peer) : peer :=
  {| peer_id := peer_id p;
     gossip_queries_feature := gossip_queries_feature p;
     initial_routing_sync_feature := initial_routing_sync_feature p;
     broadcast_index := broadcast_index p;
     gossip_timestamp_min := gossip_timestamp_min p;
     gossip_timestamp_max := gossip_timestamp_max p;
     scid_queries := v; scid_query_idx := scid_query_idx p;
     scid_query_nodes := scid_query_nodes p;
     scid_query_nodes_idx := scid_query_nodes_idx p;
     gossip_timer := gossip_timer p;
     num_scid_queries_outstanding := num_scid_queries_outstanding p;
     num_pings_outstanding := num_pings_outstanding p; dc := dc p |}.

Definition set_scid_query_idx (v : nat) (p : peer) : peer :=
  {| peer_id := peer_id p;
     gossip_queries_feature := gossip_queries_feature p;
     initial_routing_sync_feature := initial_routing_sync_feature p;
     broadcast_index := broadcast_index p;
     gossip_timestamp_min := gossip_timestamp_min p;
     gossip_timestamp_max := gossip_timestamp_max p;
     scid_queries := scid_queries p; scid_query_idx := v;
     scid_query_nodes := scid_query_nodes p;
     scid_query_nodes_idx := scid_query_nodes_idx p;
     gossip_timer := gossip_timer p;
     num_scid_queries_outstanding := num_scid_queries_outstanding p;
     num_pings_outstanding := num_pings_outstanding p; dc := dc p |}.

Definition set_scid_query_nodes (v : option (list (list Z))) (p : peer) : peer :=
  {| peer_id := peer_id p;
     gossip_queries_feature := gossip_queries_feature p;
     initial_routing_sync_feature := initial_routing_sync_feature p;
     broadcast_index := broadcast_index p;
     gossip_timestamp_min := gossip_timestamp_min p;
     gossip_timestamp_max := gossip_timestamp_max p;
     scid_queries := scid_queries p; scid_query_idx := scid_query_idx p;
     scid_query_nodes := v;
     scid_query_nodes_idx := scid_query_nodes_idx p;
     gossip_timer := gossip_timer p;
     num_scid_queries_outstanding := num_scid_queries_outstanding p;
     num_pings_outstanding := num_pings_outstanding p; dc := dc p |}.

Definition set_scid_query_nodes_idx (v : nat) (p : peer) : peer :=
  {| peer_id := peer_id p;
     gossip_queries_feature := gossip_queries_feature p;
     initial_routing_sync_feature := initial_routing_sync_feature p;
     broadcast_index := broadcast_index p;
     gossip_timestamp_min := gossip_timestamp_min p;
     gossip_timestamp_max := gossip_timestamp_max p;
     scid_queries := scid_queries p; scid_query_idx := scid_query_idx p;
     scid_query_nodes := scid_query_nodes p;
     scid_query_nodes_idx := v;
     gossip_timer := gossip_timer p;
     num_scid_queries_outstanding := num_scid_queries_outstanding p;
     num_pings_outstanding := num_pings_outstanding p; dc := dc p |}.

Definition set_gossip_timer (v : bool) (p : peer) : peer :=
  {| peer_id := peer_id p;
     gossip_queries_feature := gossip_queries_feature p;
     initial_routing_sync_feature := initial_routing_sync_feature p;
     broadcast_index := broadcast_index p;
     gossip_timestamp_min := gossip_timestamp_min p;
     gossip_timestamp_max := gossip_timestamp_max p;
     scid_queries := scid_queries p; scid_query_idx := scid_query_idx p;
     scid_query_nodes := scid_query_nodes p;
     scid_query_nodes_idx := scid_query_nodes_idx p;
     gossip_timer := v;
     num_scid_queries_outstanding := num_scid_queries_outstanding p;
     num_pings_outstanding := num_pings_outstanding p; dc := dc p |}.

Definition set_num_scid_queries_outstanding (v : Z) (p : peer) : peer :=
  {| peer_id := peer_id p;
     gossip_queries_feature := gossip_queries_feature p;
     initial_routing_sync_feature := initial_routing_sync_feature p;
     broadcast_index := broadcast_index p;
     gossip_timestamp_min := gossip_timestamp_min p;
     gossip_timestamp_max := gossip_timestamp_max p;
     scid_queries := scid_queries p; scid_query_idx := scid_query_idx p;
     scid_query_nodes := scid_query_nodes p;
     scid_query_nodes_idx := scid_query_nodes_idx p;
     gossip_timer := gossip_timer p;
     num_scid_queries_outstanding := v;
     num_pings_outstanding := num_pings_outstanding p; dc := dc p |}.

Definition set_num_pings_outstanding (v : Z) (p : peer) : peer :=
  {| peer_id := peer_id p;
     gossip_queries_feature := gossip_queries_feature p;
     initial_routing_sync_feature := initial_routing_sync_feature p;
     broadcast_index := broadcast_index p;
     gossip_timestamp_min := gossip_timestamp_min p;
     gossip_timestamp_max := gossip_timestamp_max p;
     scid_queries := scid_queries p; scid_query_idx := scid_query_idx p;
     scid_query_nodes := scid_query_nodes p;
     scid_query_nodes_idx := scid_query_nodes_idx p;
     gossip_timer := gossip_timer p;
     num_scid_queries_outstanding := num_scid_queries_outstanding p;
     num_pings_outstanding := v; dc := dc p |}.

Definition set_dc (v : list wire_msg) (p : peer) : peer :=
  {| peer_id := peer_id p;
     gossip_queries_feature := gossip_queries_feature p;
     initial_routing_sync_feature := initial_routing_sync_feature p;
     broadcast_index := broadcast_index p;
     gossip_timestamp_min := gossip_timestamp_min p;
     gossip_timestamp_max := gossip_timestamp_max p;
     scid_queries := scid_queries p; scid_query_idx := scid_query_idx p;
     scid_query_nodes := scid_query_nodes p;
     scid_query_nodes_idx := scid_query_nodes_idx p;
     gossip_timer := gossip_timer p;
     num_scid_queries_outstanding := num_scid_queries_outstanding p;
     num_pings_outstanding := num_pings_outstanding p; dc := v |}.

(** [tal_count]: [NULL] counts as the empty array. *)
Definition tal_arr {A} (a : option (list A)) : list A := default [] a.

(** [queue_peer_msg]: append to the peer's connection queue. *)
Definition queue_peer_msg (p : peer) (msg : wire_msg) : peer :=
  set_dc (dc p ++ [msg]) p.

(** [wake_gossip_out]: drop the pacing timer; the wake-up of the write
    loop itself is the next [dump_gossip] event. *)
Definition wake_gossip_out (p : peer) : peer := set_gossip_timer false p.

(** [peer_error]: queue an [error] for the peer. *)
Definition peer_error (p : peer) (text : string) : peer :=
  queue_peer_msg p (wire_error text).

(** The fields [towire_channel_update_option_channel_htlc_max] is given. *)
Record channel_update_fields := {
  cu_chain_hash : blkid;
  cu_short_channel_id : Z;
  cu_timestamp : Z;
  cu_message_flags : Z;
  cu_channel_flags : Z;
  cu_cltv_expiry_delta : Z;
  cu_htlc_minimum_msat : Z;
  cu_fee_base_msat : Z;
  cu_fee_proportional_millionths : Z;
  cu_htlc_maximum_msat : Z
}.

(** ** Collaborators outside this file

    [deflate_best] is the stream zlib produces for a buffer at
    [Z_BEST_COMPRESSION]; [decode_short_ids] is
    common/decode_short_channel_ids.c; [make_ping] is common/ping.c;
    [hsm_cupdate_sig] is the signer's answer to [hsm_cupdate_sig_req]
    ([None]: the exchange failed); [handle_channel_update] and
    [route_prune] are the routing core's, the former giving the graph
    after the update and the error it reports, if any. *)
Record collaborators := {
  deflate_best : bytes -> bytes;
  decode_short_ids : bytes -> option (list Z);
  make_ping : Z -> Z -> bytes;
  hsm_cupdate_sig : channel_update_fields -> option bytes;
  handle_channel_update : routing_state -> bytes -> routing_state * option bytes;
  route_prune : routing_state -> routing_state
}.

(** zlib's [compress2(dest, &destLen, source, sourceLen, level)] succeeds
    when the stream fits the [destLen] bytes of [dest], and reports
    [Z_BUF_ERROR] otherwise. *)
Inductive zlib_result :=
| Z_OK (out : bytes)
| Z_BUF_ERROR.

Definition compress2 (X : collaborators) (destLen : Z) (source : bytes) : zlib_result :=
  let out := deflate_best X source in
  if Z.of_nat (length out) <=? destLen then Z_OK out else Z_BUF_ERROR.

(** ** The SCID codec *)

Definition SHORTIDS_UNCOMPRESSED : Z := 0.
Definition SHORTIDS_ZLIB : Z := 1.

(** Modelled from the spec: [towire_u64], "8-byte big-endian". *)
Definition towire_u64 (v : Z) : bytes :=
  map (fun i => Z.land (Z.shiftr v (8 * i)) 255) [7; 6; 5; 4; 3; 2; 1; 0].

Definition towire_short_channel_id (encoded : bytes) (s : Z) : bytes :=
  encoded ++ towire_u64 s.

Definition encode_short_channel_ids_start : bytes := [SHORTIDS_ZLIB].

Definition encode_add_short_channel_id (encoded : bytes) (s : Z) : bytes :=
  towire_short_channel_id encoded s.

(** "Prefer to fail if zlib makes it larger": the destination buffer is as
    long as the input. *)
Definition zencode_scids (X : collaborators) (scids : bytes) : option bytes :=
  let len := Z.of_nat (length scids) in
  match compress2 X len scids with
  | Z_OK z => Some z
  | Z_BUF_ERROR => None
  end.

(** The [check_length] label. *)
Definition check_length (dev : dev_knobs) (encoded : bytes) (max_bytes : Z) : bool :=
  if max_scids_encode_bytes dev <? Z.of_nat (length encoded) then false
  else Z.of_nat (length encoded) <=? max_bytes.

(** [encode_short_channel_ids_end]: the encoding as it is left in
    [*encoded], and the boolean returned.  [None] is [status_failed] on an
    unknown envelope tag. *)
Definition encode_short_channel_ids_end (X : collaborators) (dev : dev_knobs)
    (encoded : bytes) (max_bytes : Z) : option (bool * bytes) :=
  match encoded with
  | [] => None
  | tag :: body =>
      if tag =? SHORTIDS_ZLIB then
        match zencode_scids X body with
        | Some z =>
            let encoded := tag :: z in
            Some (check_length dev encoded max_bytes, encoded)
        | None =>
            let encoded := SHORTIDS_UNCOMPRESSED :: body in
            Some (check_length dev encoded max_bytes, encoded)
        end
      else if tag =? SHORTIDS_UNCOMPRESSED then
        Some (check_length dev encoded max_bytes, encoded)
      else None
  end.

(** Start, add every id, finalise: the way both callers drive the codec. *)
Definition encode_scids (X : collaborators) (dev : dev_knobs) (l : list Z)
    (max_bytes : Z) : option (bool * bytes) :=
  encode_short_channel_ids_end X dev
    (foldl encode_add_short_channel_id encode_short_channel_ids_start l)
    max_bytes.

(** ** Inbound queries *)

Definition handle_query_short_channel_ids (X : collaborators)
    (rstate : routing_state) (p : peer) (parsed : option (blkid * bytes)) : peer :=
  match parsed with
  | None => peer_error p "Bad query_short_channel_ids"
  | Some (chain, encoded) =>
      if negb (bitcoin_blkid_eq (chain_hash rstate) chain) then p
      else if bool_decide (scid_queries p <> None)
              || bool_decide (scid_query_nodes p <> None) then
        peer_error p "Bad concurrent query_short_channel_ids"
      else
        match decode_short_ids X encoded with
        | None => peer_error p "Bad query_short_channel_ids encoding"
        | Some scids =>
            set_scid_query_nodes (Some [])
              (set_scid_query_idx 0%nat
                 (set_scid_queries (Some scids) p))
        end
  end.

Definition handle_gossip_timestamp_filter (rstate : routing_state) (p : peer)
    (parsed : option (blkid * Z * Z)) : peer :=
  match parsed with
  | None => peer_error p "Bad gossip_timestamp_filter"
  | Some (chain, first_timestamp, timestamp_range) =>
      if negb (bitcoin_blkid_eq (chain_hash rstate) chain) then p
      else
        let p :=
          if gossip_timestamp_max p <? gossip_timestamp_min p
          then wake_gossip_out p else p in
        let p := set_gossip_timestamp_min first_timestamp p in
        let p :=
          set_gossip_timestamp_max
            (to_u32 (to_u32 (first_timestamp + timestamp_range) - 1)) p in
        let p :=
          if gossip_timestamp_max p <? gossip_timestamp_min p
          then set_gossip_timestamp_max UINT32_MAX p else p in
        set_broadcast_index 0 p
  end.

Definition reply_channel_range (rstate : routing_state) (p : peer)
    (first_blocknum number_of_blocks : Z) (encoded : bytes) : peer :=
  queue_peer_msg p
    (wire_reply_channel_range (chain_hash rstate) first_blocknum
       number_of_blocks 1 encoded).

(** The [while (uintmap_after(&rstate->chanmap, &scid.u64))] loop of
    [queue_channel_ranges].  The fuel bounds the number of iterations;
    [None] is running out of it. *)
Fixpoint chanmap_walk (fuel : nat) (m : gmap Z chan) (limit : Z) (idx : Z)
    (encoded : bytes) : option bytes :=
  match fuel with
  | O => None
  | S fuel =>
      match uintmap_after m idx with
      | None => Some encoded
      | Some (k, _) =>
          if limit <=? short_channel_id_blocknum k then Some encoded
          else chanmap_walk fuel m limit k (encode_add_short_channel_id encoded k)
      end
  end.

Definition reply_overhead : Z := 32 + 4 + 4 + 1 + 2.
Definition max_encoded_bytes : Z := 65535 - 2 - reply_overhead.

(** "Avoid underflow: we don't use block 0 anyway". *)
Definition range_start (first_blocknum : Z) : Z :=
  to_u64 ((if first_blocknum =? 0 then mk_short_channel_id 1 0 0
           else mk_short_channel_id first_blocknum 0 0) - 1).

Definition range_encoding (rstate : routing_state)
    (first_blocknum number_of_blocks : Z) : option bytes :=
  chanmap_walk (S (size (chanmap rstate))) (chanmap rstate)
    (to_u32 (first_blocknum + number_of_blocks))
    (range_start first_blocknum) encode_short_channel_ids_start.

(** [queue_channel_ranges]; the fuel bounds the depth of the halving.
    [None] is no result: out of fuel, or [status_failed]. *)
Fixpoint queue_channel_ranges (fuel : nat) (X : collaborators) (dev : dev_knobs)
    (rstate : routing_state) (p : peer) (first_blocknum number_of_blocks : Z)
    : option peer :=
  match fuel with
  | O => None
  | S fuel =>
      match range_encoding rstate first_blocknum number_of_blocks with
      | None => None
      | Some encoded =>
          match encode_short_channel_ids_end X dev encoded max_encoded_bytes with
          | None => None
          | Some (true, encoded) =>
              Some (reply_channel_range rstate p first_blocknum
                      number_of_blocks encoded)
          | Some (false, _) =>
              if number_of_blocks <=? 1 then Some p
              else
                match queue_channel_ranges fuel X dev rstate p first_blocknum
                        (number_of_blocks / 2) with
                | None => None
                | Some p =>
                    queue_channel_ranges fuel X dev rstate p
                      (to_u32 (first_blocknum + number_of_blocks / 2))
                      (number_of_blocks - number_of_blocks / 2)
                end
          end
      end
  end.

(** A 32-bit block count is halved at most 32 times. *)
Definition range_depth : nat := 33.

Definition handle_query_channel_range (X : collaborators) (dev : dev_knobs)
    (rstate : routing_state) (p : peer) (parsed : option (blkid * Z * Z))
    : option peer :=
  match parsed with
  | None => Some (peer_error p "Bad query_channel_range")
  | Some (chain, first_blocknum, number_of_blocks) =>
      if negb (bitcoin_blkid_eq (chain_hash rstate) chain) then Some p
      else if to_u32 (first_blocknum + number_of_blocks) <? first_blocknum then
        Some (peer_error p
                ("query_channel_range overflow " +:+ pretty first_blocknum
                 +:+ "+" +:+ pretty number_of_blocks))
      else
        queue_channel_ranges range_depth X dev rstate p first_blocknum
          number_of_blocks
  end.

(** [handle_reply_short_channel_ids_end]: the peer and the control
    connection after the message. *)
Definition handle_reply_short_channel_ids_end (rstate : routing_state)
    (p : peer) (parsed : option (blkid * Z)) : peer * list master_msg :=
  match parsed with
  | None => (peer_error p "Bad reply_short_channel_ids_end", [])
  | Some (chain, complete) =>
      if negb (bitcoin_blkid_eq (chain_hash rstate) chain) then
        (peer_error p "reply_short_channel_ids_end for bad chain", [])
      else if num_scid_queries_outstanding p =? 0 then
        (peer_error p "unexpected reply_short_channel_ids_end", [])
      else
        (set_num_scid_queries_outstanding
           (num_scid_queries_outstanding p - 1) p,
         [gossip_scids_reply true (negb (complete =? 0))])
  end.

(** ** Replying to an SCID query *)

(** Modelled from the spec: [asort] (ccan/asort, a typed [qsort]) "sorts
    [node_ids] by the total order on node identity". *)
Definition asort (ids : list (list Z)) : list (list Z) :=
  merge_sort pubkey_le ids.

(** The compaction loop of [uniquify_node_ids], on the array itself:
    [n] iterations are left, [ids[dst++] = ids[src]] is an update in
    place. *)
Fixpoint uniquify_loop (n : nat) (ids : list (list Z)) (dst src : nat)
    : list (list Z) * nat :=
  match n with
  | O => (ids, dst)
  | S n =>
      match ids !! src with
      | None => (ids, dst)
      | Some x =>
          if negb (dst =? 0)%nat
             && match ids !! (dst - 1)%nat with
                | Some y => pubkey_eq y x
                | None => false
                end
          then uniquify_loop n ids dst (S src)
          else uniquify_loop n (<[dst := x]> ids) (S dst) (S src)
      end
  end.

Definition uniquify_node_ids (ids : list (list Z)) : list (list Z) :=
  let ids := asort ids in
  let '(ids, dst) := uniquify_loop (length ids) ids 0 0 in
  take dst ids.

(** First loop of [create_next_scid_reply], from index [i] over the
    remaining queried ids [rest]: the index reached, [sent], the peer. *)
Fixpoint scid_reply_channels (rstate : routing_state) (rest : list Z) (i : nat)
    (p : peer) : nat * bool * peer :=
  match rest with
  | [] => (i, false, p)
  | s :: rest =>
      match get_channel rstate s with
      | None => scid_reply_channels rstate rest (S i) p
      | Some c =>
          if negb (is_chan_announced c) then
            scid_reply_channels rstate rest (S i) p
          else
            let p := queue_peer_msg p (stored (channel_announce c)) in
            let p :=
              match channel_update (fst (half c)) with
              | Some u => queue_peer_msg p (stored (Some u))
              | None => p
              end in
            let p :=
              match channel_update (snd (half c)) with
              | Some u => queue_peer_msg p (stored (Some u))
              | None => p
              end in
            let p :=
              set_scid_query_nodes
                (Some (tal_arr (scid_query_nodes p) ++ [fst (nodes c)])) p in
            let p :=
              set_scid_query_nodes
                (Some (tal_arr (scid_query_nodes p) ++ [snd (nodes c)])) p in
            (S i, true, p)
      end
  end.

(** Second loop, over the remaining node ids. *)
Fixpoint scid_reply_nodes (rstate : routing_state) (rest : list (list Z))
    (i : nat) (p : peer) : nat * bool * peer :=
  match rest with
  | [] => (i, false, p)
  | k :: rest =>
      match get_node rstate k with
      | None => scid_reply_nodes rstate rest (S i) p
      | Some n =>
          if node_announcement_index n =? 0 then
            scid_reply_nodes rstate rest (S i) p
          else
            (S i, true, queue_peer_msg p (stored (node_announcement n)))
      end
  end.

Definition create_next_scid_reply (rstate : routing_state) (p : peer)
    : bool * peer :=
  let num := length (tal_arr (scid_queries p)) in
  let '(i, sent, p1) :=
    scid_reply_channels rstate
      (drop (scid_query_idx p) (tal_arr (scid_queries p)))
      (scid_query_idx p) p in
  let p2 :=
    if negb (scid_query_idx p =? num)%nat && (i =? num)%nat
    then set_scid_query_nodes (uniquify_node_ids <$> scid_query_nodes p1) p1
    else p1 in
  let p3 := set_scid_query_idx i p2 in
  let num := length (tal_arr (scid_query_nodes p3)) in
  let '(j, sent, p4) :=
    if sent then (scid_query_nodes_idx p3, true, p3)
    else
      scid_reply_nodes rstate
        (drop (scid_query_nodes_idx p3) (tal_arr (scid_query_nodes p3)))
        (scid_query_nodes_idx p3) p3 in
  let p5 := set_scid_query_nodes_idx j p4 in
  if bool_decide (scid_queries p5 <> None) && (j =? num)%nat then
    let p6 :=
      queue_peer_msg p5
        (wire_reply_short_channel_ids_end (chain_hash rstate) true) in
    (true,
     set_scid_query_nodes_idx 0%nat
       (set_scid_query_nodes None
          (set_scid_query_idx 0%nat (set_scid_queries None p6))))
  else (sent, p5).

(** ** Staggered broadcast *)

(** Modelled from the spec: [next_broadcast] (gossipd/broadcast.c,
    outside gossipd.c) "returns the next entry with
    [ts_min <= timestamp <= ts_max] and advances the cursor past it"; the
    log is a uintmap walked with [uintmap_after] from the cursor, and the
    cursor stays on the last entry looked at. *)
Fixpoint next_broadcast_from (fuel : nat) (m : gmap Z queued_message)
    (timestamp_min timestamp_max : Z) (last_index : Z) : option bytes * Z :=
  match fuel with
  | O => (None, last_index)
  | S fuel =>
      match uintmap_after m last_index with
      | None => (None, last_index)
      | Some (k, q) =>
          if (timestamp_min <=? qm_timestamp q) && (qm_timestamp q <=? timestamp_max)
          then (Some (qm_payload q), k)
          else next_broadcast_from fuel m timestamp_min timestamp_max k
      end
  end.

Definition next_broadcast (bstate : broadcast_state)
    (timestamp_min timestamp_max : Z) (last_index : Z) : option bytes * Z :=
  next_broadcast_from (S (size (broadcast_map bstate))) (broadcast_map bstate)
    timestamp_min timestamp_max last_index.

Definition maybe_queue_gossip (dev : dev_knobs) (rstate : routing_state)
    (p : peer) : bool * peer :=
  if gossip_timer p then (false, p)
  else if suppress_gossip dev then (false, p)
  else
    let '(next, idx) :=
      next_broadcast (broadcasts rstate) (gossip_timestamp_min p)
        (gossip_timestamp_max p) (broadcast_index p) in
    let p := set_broadcast_index idx p in
    match next with
    | Some m => (true, queue_peer_msg p (stored (Some m)))
    | None => (false, set_gossip_timer true p)
    end.

Definition dump_gossip (dev : dev_knobs) (rstate : routing_state) (p : peer)
    : bool * peer :=
  let '(sent, p) := create_next_scid_reply rstate p in
  if sent then (true, p) else maybe_queue_gossip dev rstate p.

(** The write loop keeps calling [create_next_scid_reply] while it reports
    something sent; [scid_reply_run] is that loop over one query, with the
    peer's queue holding everything emitted.  [None]: out of fuel. *)
Fixpoint scid_reply_run (fuel : nat) (rstate : routing_state) (p : peer)
    : option peer :=
  match fuel with
  | O => None
  | S fuel =>
      let '(sent, p) := create_next_scid_reply rstate p in
      if sent then scid_reply_run fuel rstate p else Some p
  end.

(** ** The daemon and its peers *)

Definition set_peers (v : list peer) (d : daemon) : daemon :=
  {| daemon_id := daemon_id d; peers := v; master := master d;
     rstate := rstate d;
     broadcast_interval_msec := broadcast_interval_msec d |}.

Definition set_master (v : list master_msg) (d : daemon) : daemon :=
  {| daemon_id := daemon_id d; peers := peers d; master := v;
     rstate := rstate d;
     broadcast_interval_msec := broadcast_interval_msec d |}.

Definition set_rstate (v : routing_state) (d : daemon) : daemon :=
  {| daemon_id := daemon_id d; peers := peers d; master := master d;
     rstate := v;
     broadcast_interval_msec := broadcast_interval_msec d |}.

(** [find_peer]: a [struct peer *] is the position in [daemon->peers]. *)
Definition find_peer (d : daemon) (id : pubkey) : option nat :=
  fst <$> list_find (fun p => pubkey_eq (peer_id p) id = true) (peers d).

(** A field update through a [struct peer *]. *)
Definition with_peer (d : daemon) (i : nat) (f : peer -> peer) : daemon :=
  set_peers (alter f i (peers d)) d.

Definition master_send (d : daemon) (msg : master_msg) : daemon :=
  set_master (master d ++ [msg]) d.

Definition peer_disable_channels (d : daemon) (n : node) : daemon :=
  foldl
    (fun d k =>
       match chanmap (rstate d) !! k with
       | None => d
       | Some c =>
           if pubkey_eq (other_node n c) (daemon_id d) then
             set_rstate
               (set_chanmap
                  (<[k := set_local_disabled true c]> (chanmap (rstate d)))
                  (rstate d)) d
           else d
       end)
    d (chans n).

(** [destroy_peer], for the peer at position [i]: unlink it, then disable
    the channels it shares with us.  (Closing [peer->dc] leaves no trace
    in this state.) *)
Definition destroy_peer (d : daemon) (i : nat) : daemon :=
  match peers d !! i with
  | None => d
  | Some p =>
      let d := set_peers (delete i (peers d)) d in
      match get_node (rstate d) (peer_id p) with
      | Some n => peer_disable_channels d n
      | None => d
      end
  end.

(** The state [connectd_new_peer] gives a fresh [struct peer], with the
    [gossip_timestamp_filter] of [setup_gossip_range] queued. *)
Definition new_peer (rstate : routing_state) (id : pubkey)
    (gossip_queries initial_routing_sync : bool) : peer :=
  {| peer_id := id;
     gossip_queries_feature := gossip_queries;
     initial_routing_sync_feature := initial_routing_sync;
     broadcast_index :=
       if gossip_queries then UINT64_MAX
       else if initial_routing_sync then 0
       else next_index (broadcasts rstate);
     gossip_timestamp_min := if gossip_queries then UINT32_MAX else 0;
     gossip_timestamp_max := if gossip_queries then 0 else UINT32_MAX;
     scid_queries := None; scid_query_idx := 0%nat;
     scid_query_nodes := None; scid_query_nodes_idx := 0%nat;
     gossip_timer := false;
     num_scid_queries_outstanding := 0;
     num_pings_outstanding := 0;
     dc :=
       if gossip_queries
       then [wire_gossip_timestamp_filter (chain_hash rstate) 0 UINT32_MAX]
       else [] |}.

(** [ping_req].  [None]: the process ends in [master_badmsg] or
    [status_failed]. *)
Definition ping_req (X : collaborators) (d : daemon)
    (parsed : option (list Z * Z * Z)) : option daemon :=
  match parsed with
  | None => None
  | Some (id, num_pong_bytes, len) =>
      match find_peer d id with
      | None => Some (master_send d (gossip_ping_reply id false 0))
      | Some i =>
          let ping := make_ping X num_pong_bytes len in
          if 65535 <? Z.of_nat (length ping) then None
          else
            let d := with_peer d i (fun p => queue_peer_msg p (wire_ping ping)) in
            if 65532 <=? num_pong_bytes then
              Some (master_send d (gossip_ping_reply id true 0))
            else
              Some (with_peer d i
                      (fun p =>
                         set_num_pings_outstanding
                           (to_u64 (num_pings_outstanding p + 1)) p))
      end
  end.

(** ** Local channel updates *)

(** The unsigned [channel_update] built by [update_local_channel]; [now] is
    [time_now().ts.tv_sec]. *)
Definition local_channel_update (rstate : routing_state) (now : Z) (c : chan)
    (direction : Z) (disable : bool)
    (cltv_expiry_delta htlc_minimum fee_base fee_proportional htlc_maximum : Z)
    : channel_update_fields :=
  let timestamp := to_u32 now in
  let timestamp :=
    if is_halfchan_defined (half_at c direction)
       && (timestamp =? last_timestamp (half_at c direction))
    then to_u32 (timestamp + 1) else timestamp in
  let channel_flags :=
    if disable then Z.lor direction ROUTING_FLAGS_DISABLED else direction in
  let message_flags := Z.lor 0 ROUTING_OPT_HTLC_MAX_MSAT in
  {| cu_chain_hash := chain_hash rstate;
     cu_short_channel_id := scid c;
     cu_timestamp := timestamp;
     cu_message_flags := message_flags;
     cu_channel_flags := channel_flags;
     cu_cltv_expiry_delta := cltv_expiry_delta;
     cu_htlc_minimum_msat := htlc_minimum;
     cu_fee_base_msat := fee_base;
     cu_fee_proportional_millionths := fee_proportional;
     cu_htlc_maximum_msat := htlc_maximum |}.

(** [update_local_channel].  [None]: [status_failed]. *)
Definition update_local_channel (X : collaborators) (d : daemon) (now : Z)
    (c : chan) (direction : Z) (disable : bool)
    (cltv_expiry_delta htlc_minimum fee_base fee_proportional htlc_maximum : Z)
    : option daemon :=
  let update :=
    local_channel_update (rstate d) now c direction disable cltv_expiry_delta
      htlc_minimum fee_base fee_proportional htlc_maximum in
  match hsm_cupdate_sig X update with
  | None => None
  | Some signed =>
      let d :=
        if is_chan_public c then d
        else
          match find_peer d (node_at c (if direction =? 0 then 1 else 0)) with
          | Some i =>
              with_peer d i (fun p => queue_peer_msg p (stored (Some signed)))
          | None => d
          end in
      match handle_channel_update X (rstate d) signed with
      | (r, None) => Some (set_rstate r d)
      | (_, Some _) => None
      end
  end.

Definition maybe_update_local_channel (X : collaborators) (d : daemon)
    (now : Z) (c : chan) (direction : Z) : option daemon :=
  let hc := half_at c direction in
  if negb (is_halfchan_defined hc) then Some d
  else if Bool.eqb (negb (local_disabled c))
            (Z.land (channel_flags hc) ROUTING_FLAGS_DISABLED =? 0) then Some d
  else
    update_local_channel X d now c direction (local_disabled c) (delay hc)
      (htlc_minimum_msat hc) (base_fee hc) (proportional_fee hc)
      (htlc_maximum_msat hc).

Definition local_direction (d : daemon) (c : chan) : option Z :=
  if pubkey_eq (fst (nodes c)) (daemon_id d) then Some 0
  else if pubkey_eq (snd (nodes c)) (daemon_id d) then Some 1
  else None.

(** [handle_get_update], for the peer at position [i]. *)
Definition handle_get_update (X : collaborators) (d : daemon) (now : Z)
    (i : nat) (parsed : option Z) : option daemon :=
  match parsed with
  | None => Some d
  | Some s =>
      let reply d update :=
        with_peer d i
          (fun p => set_dc (dc p ++ [gossip_get_update_reply update]) p) in
      match get_channel (rstate d) s with
      | None => Some (reply d None)
      | Some c =>
          match local_direction d c with
          | None => Some (reply d None)
          | Some direction =>
              match maybe_update_local_channel X d now c direction with
              | None => None
              | Some d =>
                  Some (reply d
                          (c' ← get_channel (rstate d) s;
                           channel_update (half_at c' direction)))
              end
          end
      end
  end.

Definition halfchan_new_info (hc : half_chan)
    (cltv_delta htlc_minimum fee_base fee_proportional htlc_maximum : Z) : bool :=
  if negb (is_halfchan_defined hc) then true
  else negb (delay hc =? cltv_delta)
       || negb (htlc_minimum_msat hc =? htlc_minimum)
       || negb (base_fee hc =? fee_base)
       || negb (proportional_fee hc =? fee_proportional)
       || negb (htlc_maximum_msat hc =? htlc_maximum).

(** [handle_local_channel_update]; the parsed message is the id, [disable]
    and the five routing parameters. *)
Definition handle_local_channel_update (X : collaborators) (d : daemon)
    (now : Z) (parsed : option (Z * bool * (Z * Z * Z * Z * Z)))
    : option daemon :=
  match parsed with
  | None => Some d
  | Some (s, disable, (cltv_expiry_delta, htlc_minimum, fee_base,
                       fee_proportional, htlc_maximum)) =>
      match get_channel (rstate d) s with
      | None => Some d
      | Some c =>
          match local_direction d c with
          | None => Some d
          | Some direction =>
              let hc := half_at c direction in
              let updated :=
                if halfchan_new_info hc cltv_expiry_delta htlc_minimum fee_base
                     fee_proportional htlc_maximum
                   || (negb (Z.land (channel_flags hc) ROUTING_FLAGS_DISABLED =? 0)
                       && negb disable)
                   || negb (is_chan_public c)
                then
                  update_local_channel X d now c direction disable
                    cltv_expiry_delta htlc_minimum fee_base fee_proportional
                    htlc_maximum
                else Some d in
              match updated with
              | None => None
              | Some d =>
                  Some (set_rstate
                          (set_chanmap
                             (alter (set_local_disabled disable) s
                                (chanmap (rstate d)))
                             (rstate d)) d)
              end
          end
      end
  end.

(** Modelled from the spec: [half_chan_from(n, chan)], the half of [chan]
    leaving [n]. *)
Definition half_chan_from (n : node) (c : chan) : half_chan :=
  if pubkey_eq (snd (nodes c)) (node_id n) then snd (half c) else fst (half c).

Definition gossip_send_keepalive_update (X : collaborators) (d : daemon)
    (now : Z) (c : chan) (hc : half_chan) : option daemon :=
  update_local_channel X d now c
    (Z.land (channel_flags hc) ROUTING_FLAGS_DIRECTION) (local_disabled c)
    (delay hc) (htlc_minimum_msat hc) (base_fee hc) (proportional_fee hc)
    (htlc_maximum_msat hc).

(** [gossip_refresh_network]: the keep-alive sweep, then the pruning; [now]
    is [time_now().ts.tv_sec].  (Re-arming the timer leaves no trace in
    this state.) *)
Definition gossip_refresh_network (X : collaborators) (d : daemon) (now : Z)
    : option daemon :=
  let highwater := now - prune_timeout (rstate d) / 2 in
  let swept :=
    match get_node (rstate d) (daemon_id d) with
    | None => Some d
    | Some n =>
        foldl
          (fun acc k =>
             match acc with
             | None => None
             | Some d =>
                 match chanmap (rstate d) !! k with
                 | None => Some d
                 | Some c =>
                     let hc := half_chan_from n c in
                     if negb (is_halfchan_defined hc) then Some d
                     else if highwater <? last_timestamp hc then Some d
                     else if negb (is_halfchan_enabled hc) then Some d
                     else gossip_send_keepalive_update X d now c hc
                 end
             end)
          (Some d) (chans n)
    end in
  match swept with
  | None => None
  | Some d => Some (set_rstate (route_prune X (rstate d)) d)
  end.

(** ** Outbound range queries (developer builds)

    The three fields of [struct peer] behind an outbound
    [query_channel_range]: the per-block bitmap (0: not seen, 1: covered by
    a reply), the first block asked for, and the ids received so far. *)
Record channel_range_query := {
  query_channel_blocks : option (list Z);
  first_channel_range : Z;
  query_channel_scids : option (list Z)
}.

(** What control is told: the fields of
    [towire_gossip_query_channel_range_reply]. *)
Inductive range_reply :=
| gossip_query_channel_range_reply (first_blocknum number_of_blocks : Z)
    (complete : Z) (scids : option (list Z)).

(** [memchr(s, c, n) != NULL]. *)
Definition memchr (s : list Z) (c : Z) (n : Z) : bool :=
  bool_decide (c ∈ take (Z.to_nat n) s).

(** The offset [memchr(s, c, n) - s] of the byte found. *)
Definition memchr_at (s : list Z) (c : Z) (n : Z) : Z :=
  default 0
    (Z.of_nat ∘ fst
     <$> list_find (fun x => x = c) (take (Z.to_nat n) s)).

(** [memset(s + off, c, n)], within the array. *)
Definition memset (s : list Z) (off : Z) (c : Z) (n : Z) : list Z :=
  take (Z.to_nat off) s ++ replicate (Z.to_nat n) c
  ++ drop (Z.to_nat (off + n)) s.

(** The state [query_channel_range] installs: [tal_arrz] of
    [number_of_blocks] bytes and an empty array of ids. *)
Definition start_range_query (first_blocknum number_of_blocks : Z)
    : channel_range_query :=
  {| query_channel_blocks := Some (replicate (Z.to_nat number_of_blocks) 0);
     first_channel_range := first_blocknum;
     query_channel_scids := Some [] |}.

(** [query_channel_range], the request of the main daemon; [rqs] holds the
    range-query fields of the peers, position by position.  The result is
    the daemon, these fields and what is sent to control. *)
Definition query_channel_range (d : daemon) (rqs : list channel_range_query)
    (parsed : option (pubkey * Z * Z))
    : option (daemon * list channel_range_query * list range_reply) :=
  let fail := (d, rqs, [gossip_query_channel_range_reply 0 0 0 None]) in
  match parsed with
  | None => None
  | Some (id, first_blocknum, number_of_blocks) =>
      match find_peer d id with
      | None => Some fail
      | Some i =>
          if negb (default false
                     (gossip_queries_feature <$> peers d !! i)) then Some fail
          else if bool_decide (rqs !! i ≫= query_channel_blocks <> None) then
            Some fail
          else
            Some (with_peer d i
                    (fun p =>
                       queue_peer_msg p
                         (wire_query_channel_range (chain_hash (rstate d))
                            first_blocknum number_of_blocks)),
                  <[i := start_range_query first_blocknum number_of_blocks]> rqs,
                  [])
      end
  end.

(** [handle_reply_channel_range]: the peer, its range-query fields and
    what is sent to control. *)
Definition handle_reply_channel_range (X : collaborators)
    (rstate : routing_state) (p : peer) (rq : channel_range_query)
    (parsed : option (blkid * Z * Z * Z * bytes))
    : peer * channel_range_query * list range_reply :=
  match parsed with
  | None => (peer_error p "Bad reply_channel_range", rq, [])
  | Some (chain, first_blocknum, number_of_blocks, complete, encoded) =>
      if negb (bitcoin_blkid_eq (chain_hash rstate) chain) then
        (peer_error p "reply_channel_range for bad chain", rq, [])
      else
        match query_channel_blocks rq with
        | None => (peer_error p "reply_channel_range without query", rq, [])
        | Some blocks =>
            if to_u32 (first_blocknum + number_of_blocks) <? first_blocknum then
              (peer_error p
                 ("reply_channel_range invalid " +:+ pretty first_blocknum
                  +:+ "+" +:+ pretty number_of_blocks), rq, [])
            else
              match decode_short_ids X encoded with
              | None => (peer_error p "Bad reply_channel_range encoding", rq, [])
              | Some scids =>
                  let n := to_u32 (first_blocknum - first_channel_range rq) in
                  if (first_blocknum <? first_channel_range rq)
                     || (Z.of_nat (length blocks) <? n + number_of_blocks) then
                    (peer_error p
                       ("reply_channel_range invalid " +:+ pretty first_blocknum
                        +:+ "+" +:+ pretty number_of_blocks +:+ " for query "
                        +:+ pretty (first_channel_range rq) +:+ "+"
                        +:+ pretty (Z.of_nat (length blocks))), rq, [])
                  else if memchr (drop (Z.to_nat n) blocks) 1 number_of_blocks then
                    (peer_error p
                       ("reply_channel_range " +:+ pretty first_blocknum
                        +:+ "+" +:+ pretty number_of_blocks
                        +:+ " already have block "
                        +:+ pretty (first_channel_range rq + n
                                    + memchr_at (drop (Z.to_nat n) blocks) 1
                                        number_of_blocks)), rq, [])
                  else
                    let blocks := memset blocks n 1 number_of_blocks in
                    let scids := tal_arr (query_channel_scids rq) ++ scids in
                    if memchr blocks 0 (Z.of_nat (length blocks)) then
                      (p,
                       {| query_channel_blocks := Some blocks;
                          first_channel_range := first_channel_range rq;
                          query_channel_scids := Some scids |},
                       [])
                    else
                      (p,
                       {| query_channel_blocks := None;
                          first_channel_range := first_channel_range rq;
                          query_channel_scids := None |},
                       [gossip_query_channel_range_reply first_blocknum
                          number_of_blocks complete (Some scids)])
              end
        end
  end.

(** Modelled from the spec: [fromwire_reply_channel_range], the generated
    parser, gives back the fields [towire_reply_channel_range] was given
    ("chain(32) | first_block(4) | num_blocks(4) | complete(1) | len(2) |
    encoded_scids(len)"). *)
Definition fromwire_reply_channel_range (msg : wire_msg)
    : option (blkid * Z * Z * Z * bytes) :=
  match msg with
  | wire_reply_channel_range chain first_blocknum number_of_blocks complete
      encoded =>
      Some (chain, first_blocknum, number_of_blocks, complete, encoded)
  | _ => None
  end.

(** The replies of a peer handled one after the other, with everything
    sent to control on the way. *)
Definition range_replies_run (X : collaborators) (rstate : routing_state)
    (p : peer) (rq : channel_range_query) (msgs : list wire_msg)
    : peer * channel_range_query * list range_reply :=
  foldl
    (fun st msg =>
       let '(p, rq, out) := st in
       let '(p, rq, o) :=
         handle_reply_channel_range X rstate p rq
           (fromwire_reply_channel_range msg) in
       (p, rq, out ++ o))
    (p, rq, []) msgs.

(** ** Events of one peer session

    What a peer sends us, the wake-up of the write loop and the expiry of
    the pacing timer. *)

(** The messages [owner_msg_in] tells apart, after the generated
    [fromwire_] parser ran: [parsed] is [None] on a parse failure.  A
    message whose handler looks beyond the peer carries what it finds
    there:
    - the three gossip messages, what [handle_gossip_msg] returns for
      them, an error for the peer or none ([handled] is [None] when the
      daemon ends inside, in [send_node_announcement]); it is given the
      daemon and the message, and works on the graph and the control
      connection, not on the peers;
    - [gossip_get_update] and [gossip_local_channel_update], the daemon
      the peer belongs to, its position in [daemon->peers] and the clock;
    - [reply_channel_range], the range-query fields of [struct peer];
    - [ping], what [check_ping_make_pong] (common/ping.c) makes of it:
      [None] when it returns false, else the pong to send, if any;
    - [pong], its length and what [got_pong] (common/ping.c) makes of it
      and of the count of pings outstanding: its complaint, if any, and
      the count it leaves. *)
Inductive peer_wire :=
| WIRE_CHANNEL_ANNOUNCEMENT (handled : option (option bytes))
| WIRE_CHANNEL_UPDATE (handled : option (option bytes))
| WIRE_NODE_ANNOUNCEMENT (handled : option (option bytes))
| WIRE_QUERY_SHORT_CHANNEL_IDS (parsed : option (blkid * bytes))
| WIRE_REPLY_SHORT_CHANNEL_IDS_END (parsed : option (blkid * Z))
| WIRE_GOSSIP_TIMESTAMP_FILTER (parsed : option (blkid * Z * Z))
| WIRE_GOSSIP_GET_UPDATE (env : daemon) (i : nat) (now : Z) (parsed : option Z)
| WIRE_GOSSIP_LOCAL_ADD_CHANNEL
| WIRE_GOSSIP_LOCAL_CHANNEL_UPDATE (env : daemon) (i : nat) (now : Z)
    (parsed : option (Z * bool * (Z * Z * Z * Z * Z)))
| WIRE_QUERY_CHANNEL_RANGE (parsed : option (blkid * Z * Z))
| WIRE_REPLY_CHANNEL_RANGE (rq : channel_range_query)
    (parsed : option (blkid * Z * Z * Z * bytes))
| WIRE_PING (checked : option (option bytes))
| WIRE_PONG (len : Z) (got_pong : Z -> option string * Z)
| WIRE_UNKNOWN (type : Z).

Inductive peer_event :=
| ev_recv (msg : peer_wire)
| ev_wake
| ev_timer.

(** [handle_ping]. *)
Definition handle_ping (p : peer) (checked : option (option bytes)) : peer :=
  match checked with
  | None => peer_error p "Bad ping"
  | Some (Some pong) => queue_peer_msg p (wire_pong pong)
  | Some None => p
  end.

(** [handle_pong]: the peer and the control connection after the
    message. *)
Definition handle_pong (p : peer) (len : Z)
    (got_pong : Z -> option string * Z) : peer * list master_msg :=
  let '(err, outstanding) := got_pong (num_pings_outstanding p) in
  let p := set_num_pings_outstanding outstanding p in
  match err with
  | Some text => (peer_error p text, [])
  | None => (p, [gossip_ping_reply (peer_id p) true len])
  end.

(** The daemon [env] with the peer [p] at position [i] of its list (at
    the end when the list is shorter) and the graph [rstate]. *)
Definition peer_in_daemon (env : daemon) (i : nat) (rstate : routing_state)
    (p : peer) : daemon :=
  set_rstate rstate
    (set_peers (take i (peers env) ++ p :: drop i (peers env)) env).

(** [owner_msg_in]: the peer after the message.  [None]: the session is
    over, the daemon has ended or ([io_close]) the connection is closed. *)
Definition owner_msg_in (X : collaborators) (dev : dev_knobs)
    (rstate : routing_state) (p : peer) (msg : peer_wire) : option peer :=
  match msg with
  | WIRE_CHANNEL_ANNOUNCEMENT handled
  | WIRE_CHANNEL_UPDATE handled
  | WIRE_NODE_ANNOUNCEMENT handled =>
      match handled with
      | None => None
      | Some (Some err) => Some (queue_peer_msg p (routing_error err))
      | Some None => Some p
      end
  | WIRE_QUERY_SHORT_CHANNEL_IDS parsed =>
      Some (handle_query_short_channel_ids X rstate p parsed)
  | WIRE_REPLY_SHORT_CHANNEL_IDS_END parsed =>
      Some (fst (handle_reply_short_channel_ids_end rstate p parsed))
  | WIRE_GOSSIP_TIMESTAMP_FILTER parsed =>
      Some (handle_gossip_timestamp_filter rstate p parsed)
  | WIRE_GOSSIP_GET_UPDATE env i now parsed =>
      let d := peer_in_daemon env i rstate p in
      d ← handle_get_update X d now (Nat.min i (length (peers env))) parsed;
      peers d !! (Nat.min i (length (peers env)))
  | WIRE_GOSSIP_LOCAL_ADD_CHANNEL => Some p
  | WIRE_GOSSIP_LOCAL_CHANNEL_UPDATE env i now parsed =>
      let d := peer_in_daemon env i rstate p in
      d ← handle_local_channel_update X d now parsed;
      peers d !! (Nat.min i (length (peers env)))
  | WIRE_QUERY_CHANNEL_RANGE parsed =>
      handle_query_channel_range X dev rstate p parsed
  | WIRE_REPLY_CHANNEL_RANGE rq parsed =>
      Some (fst (fst (handle_reply_channel_range X rstate p rq parsed)))
  | WIRE_PING checked => Some (handle_ping p checked)
  | WIRE_PONG len got_pong => Some (fst (handle_pong p len got_pong))
  | WIRE_UNKNOWN _ => None
  end.

Definition peer_step (X : collaborators) (dev : dev_knobs)
    (rstate : routing_state) (p : peer) (ev : peer_event) : option peer :=
  match ev with
  | ev_recv msg => owner_msg_in X dev rstate p msg
  | ev_wake => Some (snd (dump_gossip dev rstate p))
  | ev_timer => Some (wake_gossip_out p)
  end.

(** A [gossip_timestamp_filter] that parses and names our chain. *)
Definition accepted_filter (rstate : routing_state) (ev : peer_event) : bool :=
  match ev with
  | ev_recv (WIRE_GOSSIP_TIMESTAMP_FILTER (Some (chain, _, _))) =>
      bitcoin_blkid_eq (chain_hash rstate) chain
  | _ => false
  end.

(** ** Runs of one peer session *)

(** A trace pairs each event with the routing state it meets: the graph
    and the broadcast log change between events. *)
Fixpoint peer_run (X : collaborators) (dev : dev_knobs) (p : peer)
    (trace : list (routing_state * peer_event)) : option peer :=
  match trace with
  | [] => Some p
  | (r, ev) :: trace =>
      match peer_step X dev r p ev with
      | None => None
      | Some p => peer_run X dev p trace
      end
  end.

(** ** What the SCID reply is expected to be

    These follow the words of the specification, not the code. *)

(** "its [channel_announcement] followed by each present half's latest
    [channel_update]", for a channel that is known and announced. *)
Definition expected_channel_reply (rstate : routing_state) (s : Z) : list wire_msg :=
  match get_channel rstate s with
  | Some c =>
      if is_chan_announced c then
        stored (channel_announce c)
        :: (match channel_update (fst (half c)) with
            | Some u => [stored (Some u)]
            | None => []
            end)
        ++ (match channel_update (snd (half c)) with
            | Some u => [stored (Some u)]
            | None => []
            end)
      else []
  | None => []
  end.

(** The endpoints of the queried channels that were answered. *)
Definition expected_endpoints (rstate : routing_state) (s : Z) : list (list Z) :=
  match get_channel rstate s with
  | Some c => if is_chan_announced c then [fst (nodes c); snd (nodes c)] else []
  | None => []
  end.

(** "each emitted only if that node has been announced". *)
Definition expected_node_reply (rstate : routing_state) (k : list Z) : list wire_msg :=
  match get_node rstate k with
  | Some n =>
      if node_announcement_index n =? 0 then []
      else [stored (node_announcement n)]
  | None => []
  end.

(** ** Sample data *)

Definition sample_chain : blkid := replicate 32 111.
Definition other_chain : blkid := replicate 32 222.

Definition key_us : pubkey := 2 :: replicate 32 1.
Definition key_n : pubkey := 2 :: replicate 32 7.
Definition key_m : pubkey := 3 :: replicate 32 5.

Definition sample_half (ts : Z) (flags : Z) : half_chan :=
  {| channel_update := Some [1; 2; ts]; channel_flags := flags;
     message_flags := 1; last_timestamp := ts; delay := 6;
     htlc_minimum_msat := 0; base_fee := 1000; proportional_fee := 10;
     htlc_maximum_msat := 100000 |}.

Definition sample_chan (s : Z) (a b : pubkey) : chan :=
  {| scid := s; half := (sample_half 100 0, sample_half 101 1);
     nodes := (a, b); channel_announce := Some [1; 0; s];
     channel_announcement_index := 1 + s; local_disabled := false;
     satoshis := 50000 |}.

Definition sample_node (k : pubkey) (l : list Z) (idx : Z) : node :=
  {| node_id := k; node_last_timestamp := 90; chans := l;
     node_announcement := Some (1 :: 1 :: k);
     node_announcement_index := idx |}.

(** Channels in blocks 0, 1 and 2. *)
Definition scid_b0 : Z := mk_short_channel_id 0 5 1.
Definition scid_b1 : Z := mk_short_channel_id 1 2 0.
Definition scid_b2 : Z := mk_short_channel_id 2 9 1.

Definition sample_rstate : routing_state :=
  {| chain_hash := sample_chain;
     chanmap :=
       <[scid_b0 := sample_chan scid_b0 key_us key_m]>
         (<[scid_b1 := sample_chan scid_b1 key_us key_n]>
            (<[scid_b2 := sample_chan scid_b2 key_n key_m]> ∅));
     node_map :=
       <[key_us := sample_node key_us [scid_b0; scid_b1] 7]>
         (<[key_n := sample_node key_n [scid_b1; scid_b2] 8]>
            (<[key_m := sample_node key_m [scid_b0; scid_b2] 0]> ∅));
     broadcasts :=
       {| next_index := 4;
          broadcast_map :=
            <[1 := {| qm_timestamp := 100; qm_payload := [1; 0; 1] |}]>
              (<[2 := {| qm_timestamp := 200; qm_payload := [1; 2; 2] |}]>
                 (<[3 := {| qm_timestamp := 300; qm_payload := [1; 1; 3] |}]> ∅)) |};
     prune_timeout := 1209600;
     local_channel_announced := false |}.

(** Adler-32 and a stored-block zlib stream: what deflate falls back to
    for data it cannot shrink. *)
Definition adler32 (data : bytes) : Z :=
  let '(a, b) :=
    foldl (fun '(a, b) x => let a := (a + x) mod 65521 in (a, (b + a) mod 65521))
      (1, 0) data in
  b * 65536 + a.

Definition stored_stream (data : bytes) : bytes :=
  let len := Z.of_nat (length data) in
  [120; 1; 1; len mod 256; len / 256; 255 - len mod 256; 255 - len / 256]
  ++ data
  ++ map (fun i => Z.land (Z.shiftr (adler32 data) (8 * i)) 255) [3; 2; 1; 0].

(** Two ids whose sixteen raw bytes zlib 1.2.13 turns, at level 9, into a
    stream of sixteen bytes again. *)
Definition tight_scids : list Z := [72623859790382855; 506381209866536711].

Definition tight_stream : bytes :=
  [120; 218; 99; 100; 98; 102; 97; 101; 99; 135; 3; 0; 2; 155; 0; 92].

Definition sample_deflate (data : bytes) : bytes :=
  if bool_decide (data = flat_map towire_u64 tight_scids) then tight_stream
  else stored_stream data.

(** The uncompressed half of [decode_short_ids]. *)
Fixpoint parse_scids (n : nat) (body : bytes) : option (list Z) :=
  match n with
  | O => match body with [] => Some [] | _ => None end
  | S n =>
      match body with
      | [] => Some []
      | b7 :: b6 :: b5 :: b4 :: b3 :: b2 :: b1 :: b0 :: rest =>
          l ← parse_scids n rest;
          Some (foldl (fun acc b => acc * 256 + b) 0 [b7; b6; b5; b4; b3; b2; b1; b0] :: l)
      | _ => None
      end
  end.

Definition sample_decode (encoded : bytes) : option (list Z) :=
  match encoded with
  | 0 :: body => parse_scids (length body) body
  | _ => None
  end.

(** A [ping] on the wire: type, [num_pong_bytes], [byteslen], padding. *)
Definition sample_make_ping (num_pong_bytes len : Z) : bytes :=
  [0; 18; num_pong_bytes / 256; num_pong_bytes mod 256; len / 256; len mod 256]
  ++ replicate (Z.to_nat len) 0.

Definition sample_X : collaborators :=
  {| deflate_best := sample_deflate;
     decode_short_ids := sample_decode;
     make_ping := sample_make_ping;
     hsm_cupdate_sig := fun u => Some [1; 2; cu_timestamp u mod 256];
     handle_channel_update := fun r _ => (r, None);
     route_prune := fun r => r |}.

Definition sample_peer : peer := new_peer sample_rstate key_n false true.

Definition sample_daemon : daemon :=
  {| daemon_id := key_us;
     peers := [new_peer sample_rstate key_m true false; sample_peer];
     master := []; rstate := sample_rstate;
     broadcast_interval_msec := 60000 |}.

(** Four ids, one in block 1 and three in blocks 2^24 - 4, 2^24 - 3 and
    2^24 - 1.  zlib 1.2.13 turns, at level 9, the 32 raw bytes of the four
    into a stream of 23 bytes, and the 24 raw bytes of the last three into
    a stream of 24 bytes. *)
Definition wrap_low : Z := mk_short_channel_id 1 65535 65535.

Definition wrap_high : list Z :=
  [mk_short_channel_id 16777212 16777215 65280;
   mk_short_channel_id 16777213 65535 65535;
   mk_short_channel_id 16777215 16777215 255].

Definition wrap_stream_four : bytes :=
  [120; 218; 99; 96; 96; 100; 248; 15; 6; 127; 64; 4; 144; 253; 23; 202;
   135; 112; 1; 116; 121; 24; 228].

Definition wrap_stream_three : bytes :=
  [120; 218; 251; 255; 255; 207; 127; 32; 96; 248; 255; 255; 47; 195; 127;
   56; 96; 248; 15; 0; 10; 189; 20; 231].

Definition wrap_deflate (data : bytes) : bytes :=
  if bool_decide (data = flat_map towire_u64 (wrap_low :: wrap_high))
  then wrap_stream_four
  else if bool_decide (data = flat_map towire_u64 wrap_high)
  then wrap_stream_three
  else stored_stream data.

Definition wrap_X : collaborators :=
  {| deflate_best := wrap_deflate;
     decode_short_ids := sample_decode;
     make_ping := sample_make_ping;
     hsm_cupdate_sig := fun u => Some [1; 2; cu_timestamp u mod 256];
     handle_channel_update := fun r _ => (r, None);
     route_prune := fun r => r |}.

(** A graph with these four channels. *)
Definition wrap_rstate : routing_state :=
  set_chanmap
    (foldr (fun s m => <[s := sample_chan s key_us key_n]> m) ∅
       (wrap_low :: wrap_high))
    sample_rstate.

(** ** Notions used by the statements and proofs below *)

(** A run of the sample peer: wake-ups, the timer, and messages of every
    type but the unknown one, which ends the session. *)
Definition sample_trace : list (routing_state * peer_event) :=
  [(sample_rstate, ev_wake);
   (sample_rstate, ev_recv (WIRE_GOSSIP_TIMESTAMP_FILTER (Some (other_chain, 0, 10))));
   (sample_rstate, ev_recv (WIRE_QUERY_CHANNEL_RANGE (Some (sample_chain, 1, 2))));
   (sample_rstate, ev_wake);
   (sample_rstate, ev_recv (WIRE_CHANNEL_ANNOUNCEMENT (Some (Some [0; 17]))));
   (sample_rstate, ev_recv (WIRE_CHANNEL_UPDATE (Some None)));
   (sample_rstate, ev_recv (WIRE_NODE_ANNOUNCEMENT (Some None)));
   (sample_rstate,
    ev_recv (WIRE_QUERY_SHORT_CHANNEL_IDS (Some (sample_chain, [0]))));
   (sample_rstate,
    ev_recv (WIRE_REPLY_SHORT_CHANNEL_IDS_END (Some (sample_chain, 1))));
   (sample_rstate,
    ev_recv (WIRE_GOSSIP_GET_UPDATE sample_daemon 1 700000 (Some scid_b1)));
   (sample_rstate, ev_recv WIRE_GOSSIP_LOCAL_ADD_CHANNEL);
   (sample_rstate,
    ev_recv (WIRE_GOSSIP_LOCAL_CHANNEL_UPDATE sample_daemon 1 700000
               (Some (scid_b1, true, (6, 1, 1000, 10, 5000)))));
   (sample_rstate,
    ev_recv (WIRE_REPLY_CHANNEL_RANGE (start_range_query 1 2)
               (Some (sample_chain, 1, 2, 1, [0]))));
   (sample_rstate, ev_recv (WIRE_PING (Some (Some [0; 19; 0; 0]))));
   (sample_rstate,
    ev_recv (WIRE_PONG 4 (fun n => if n =? 0 then (Some "Unexpected pong", n)
                                   else (None, n - 1))));
   (sample_rstate, ev_timer);
   (sample_rstate, ev_wake)].

(** The test [handle_query_short_channel_ids] makes for a query that has
    not been answered to the end. *)
Definition scid_query_in_flight (p : peer) : Prop :=
  scid_queries p <> None \/ scid_query_nodes p <> None.

(** The four fields of the inbound query state agree. *)
Definition same_scid_query_state (p p' : peer) : Prop :=
  scid_queries p' = scid_queries p /\
  scid_query_idx p' = scid_query_idx p /\
  scid_query_nodes p' = scid_query_nodes p /\
  scid_query_nodes_idx p' = scid_query_nodes_idx p.

(** The sample peer with a query for two channels being answered. *)
Definition busy_peer : peer :=
  handle_query_short_channel_ids sample_X sample_rstate sample_peer
    (Some (sample_chain, 0 :: towire_u64 scid_b1 ++ towire_u64 scid_b2)).


(** The body of the loop of [peer_disable_channels], for [node->chans[i]]
    being the channel [k]. *)
Definition disable_step (n : node) (d : daemon) (k : Z) : daemon :=
  match chanmap (rstate d) !! k with
  | None => d
  | Some c =>
      if pubkey_eq (other_node n c) (daemon_id d) then
        set_rstate
          (set_chanmap
             (<[k := set_local_disabled true c]> (chanmap (rstate d)))
             (rstate d)) d
      else d
  end.

(** What the compaction computes: [out] is the part already written, the
    next id is dropped when it equals the last one written. *)
Fixpoint compact (out rest : list (list Z)) : list (list Z) :=
  match rest with
  | [] => out
  | x :: rest =>
      if match last out with Some y => pubkey_eq y x | None => false end
      then compact out rest
      else compact (out ++ [x]) rest
  end.

(** The inbound query state of a peer while a query is answered: the ids,
    the channel cursor, the node ids gathered, the node cursor, and what
    has been queued to the peer. *)
Definition query_state (p : peer) (scids : list Z) (i : nat)
    (acc : list (list Z)) (j : nat) (q : list wire_msg) : Prop :=
  scid_queries p = Some scids /\ scid_query_idx p = i /\
  scid_query_nodes p = Some acc /\ scid_query_nodes_idx p = j /\ dc p = q.

(** No query in flight, as [connectd_new_peer] and the end of a query
    leave the peer. *)
Definition query_done (p : peer) (q : list wire_msg) : Prop :=
  scid_queries p = None /\ scid_query_nodes p = None /\
  scid_query_nodes_idx p = 0%nat /\ dc p = q.

(** The second half of [create_next_scid_reply], from the node loop on,
    named for the proofs. *)
Definition scid_reply_tail (r : routing_state) (sent : bool) (p3 : peer)
    : bool * peer :=
  let num := length (tal_arr (scid_query_nodes p3)) in
  let '(j, sent, p4) :=
    if sent then (scid_query_nodes_idx p3, true, p3)
    else
      scid_reply_nodes r
        (drop (scid_query_nodes_idx p3) (tal_arr (scid_query_nodes p3)))
        (scid_query_nodes_idx p3) p3 in
  let p5 := set_scid_query_nodes_idx j p4 in
  if bool_decide (scid_queries p5 <> None) && (j =? num)%nat then
    let p6 :=
      queue_peer_msg p5
        (wire_reply_short_channel_ids_end (chain_hash r) true) in
    (true,
     set_scid_query_nodes_idx 0%nat
       (set_scid_query_nodes None
          (set_scid_query_idx 0%nat (set_scid_queries None p6))))
  else (sent, p5).

(** The entries a walk with [uintmap_after] still has ahead of it. *)
Definition keys_above {A} (m : gmap Z A) (idx : Z) : list (Z * A) :=
  filter (fun kv => idx < kv.1) (map_to_list m).

(** The ids of the blocks [first_blocknum .. first_blocknum +
    number_of_blocks - 1] fit one [reply_channel_range]:
    [encode_short_channel_ids_end] returns true on them. *)
Definition range_fits (X : collaborators) (dev : dev_knobs) (r : routing_state)
    (first_blocknum number_of_blocks : Z) : bool :=
  match range_encoding r first_blocknum number_of_blocks with
  | Some e =>
      match encode_short_channel_ids_end X dev e max_encoded_bytes with
      | Some (true, _) => true
      | _ => false
      end
  | None => false
  end.

(** [msg] is the [reply_channel_range] for the window and the ids of
    [chunk]: its body is what the codec makes of these ids. *)
Definition reply_carries (X : collaborators) (dev : dev_knobs)
    (r : routing_state) (chunk : Z * Z * list Z) (msg : wire_msg) : Prop :=
  exists body,
    encode_scids X dev chunk.2 max_encoded_bytes = Some (true, body) /\
    msg = wire_reply_channel_range (chain_hash r) chunk.1.1 chunk.1.2 1 body.

(** ** Requests of the main daemon

    Each request below gives the fields handed to the [towire_] constructor
    of its reply; a request that does not parse ends the process in
    [master_badmsg], which is [None]. *)

(** Modelled from the spec: [uintmap_first(map, &idx)] (ccan/intmap), the
    start of the "iterator over [chanmap] by SCID": the entry with the
    least key, if any. *)
Definition uintmap_first {A} (m : gmap Z A) : option (Z * A) :=
  foldr (fun kv best =>
           match best with
           | Some b => if fst kv <? fst b then Some kv else best
           | None => Some kv
           end)
        None (map_to_list m).

(** [struct gossip_getchannels_entry]. *)
Record gossip_getchannels_entry := {
  e_source : pubkey;
  e_destination : pubkey;
  e_satoshis : Z;
  e_channel_flags : Z;
  e_message_flags : Z;
  e_local_disabled : bool;
  e_public : bool;
  e_short_channel_id : Z;
  e_last_update_timestamp : Z;
  e_base_fee_msat : Z;
  e_fee_per_millionth : Z;
  e_delay : Z
}.

Definition append_half_channel (entries : list gossip_getchannels_entry)
    (c : chan) (idx : Z) : list gossip_getchannels_entry :=
  let hc := half_at c idx in
  if negb (is_halfchan_defined hc) then entries
  else
    entries ++
    [{| e_source := node_at c idx;
        e_destination := node_at c (if idx =? 0 then 1 else 0);
        e_satoshis := satoshis c;
        e_channel_flags := channel_flags hc;
        e_message_flags := message_flags hc;
        e_local_disabled := local_disabled c;
        e_public := is_chan_public c;
        e_short_channel_id := scid c;
        e_last_update_timestamp := last_timestamp hc;
        e_base_fee_msat := base_fee hc;
        e_fee_per_millionth := proportional_fee hc;
        e_delay := delay hc |}].

Definition append_channel (entries : list gossip_getchannels_entry) (c : chan)
    : list gossip_getchannels_entry :=
  append_half_channel (append_half_channel entries c 0) c 1.

(** The [for (chan = uintmap_first(..); chan; chan = uintmap_after(..))]
    loop of [getchannels_req]; [cur] is the entry the loop stands on.
    [None]: out of fuel. *)
Fixpoint getchannels_walk (fuel : nat) (m : gmap Z chan) (cur : option (Z * chan))
    (entries : list gossip_getchannels_entry)
    : option (list gossip_getchannels_entry) :=
  match fuel with
  | O => None
  | S fuel =>
      match cur with
      | None => Some entries
      | Some (idx, c) =>
          getchannels_walk fuel m (uintmap_after m idx) (append_channel entries c)
      end
  end.

(** [getchannels_req]: the entries of the [gossip_getchannels_reply]; the
    request carries an optional id. *)
Definition getchannels_req (d : daemon) (parsed : option (option Z))
    : option (list gossip_getchannels_entry) :=
  match parsed with
  | None => None
  | Some (Some s) =>
      match get_channel (rstate d) s with
      | Some c => Some (append_channel [] c)
      | None => Some []
      end
  | Some None =>
      getchannels_walk (S (size (chanmap (rstate d)))) (chanmap (rstate d))
        (uintmap_first (chanmap (rstate d))) []
  end.

(** [struct route_info]. *)
Record route_info := {
  ri_pubkey : pubkey;
  ri_short_channel_id : Z;
  ri_fee_base_msat : Z;
  ri_fee_proportional_millionths : Z;
  ri_cltv_expiry_delta : Z
}.

(** Modelled from the spec: [half_chan_to(n, chan)], the index of the half
    of [chan] that enters [n] ("incoming half-channels"). *)
Definition half_chan_to (n : node) (c : chan) : Z :=
  if pubkey_eq (snd (nodes c)) (node_id n) then 0 else 1.

(** The body of the loop of [get_incoming_channels], for [node->chans[i]]
    being the channel [k]. *)
Definition incoming_step (d : daemon) (n : node) (r : list route_info) (k : Z)
    : list route_info :=
  match chanmap (rstate d) !! k with
  | None => r
  | Some c =>
      if negb (is_chan_public c) then r
      else
        let hc := half_at c (half_chan_to n c) in
        if negb (is_halfchan_enabled hc) then r
        else
          r ++ [{| ri_pubkey := other_node n c;
                   ri_short_channel_id := scid c;
                   ri_fee_base_msat := base_fee hc;
                   ri_fee_proportional_millionths := proportional_fee hc;
                   ri_cltv_expiry_delta := delay hc |}]
  end.

(** [get_incoming_channels]: the hints of the reply.  [rstate->local_id]
    is the id [gossip_init] gave [new_routing_state], [daemon->id]. *)
Definition get_incoming_channels (d : daemon) (parsed : bool)
    : option (list route_info) :=
  if negb parsed then None
  else
    match get_node (rstate d) (daemon_id d) with
    | None => Some []
    | Some n => Some (foldl (incoming_step d n) [] (chans n))
    end.


(** [handle_local_channel_close]. *)
Definition handle_local_channel_close (d : daemon) (parsed : option Z)
    : option daemon :=
  match parsed with
  | None => None
  | Some s =>
      match get_channel (rstate d) s with
      | Some c =>
          Some (set_rstate
                  (set_chanmap
                     (<[s := set_local_disabled true c]> (chanmap (rstate d)))
                     (rstate d)) d)
      | None => Some d
      end
  end.



(** [query_scids_req] (developer builds).  [None]: [master_badmsg], or
    [status_failed] in the codec. *)
Definition query_scids_req (X : collaborators) (dev : dev_knobs) (d : daemon)
    (parsed : option (pubkey * list Z)) : option daemon :=
  let reply_overhead := 32 + 2 in
  let max_encoded_bytes := 65535 - 2 - reply_overhead in
  let fail := master_send d (gossip_scids_reply false false) in
  match parsed with
  | None => None
  | Some (id, scids) =>
      match find_peer d id with
      | None => Some fail
      | Some i =>
          if negb (default false
                     (gossip_queries_feature <$> peers d !! i)) then Some fail
          else
            let encoded :=
              foldl encode_add_short_channel_id encode_short_channel_ids_start
                scids in
            match encode_short_channel_ids_end X dev encoded max_encoded_bytes with
            | None => None
            | Some (false, _) => Some fail
            | Some (true, encoded) =>
                Some (with_peer d i
                        (fun p =>
                           set_num_scid_queries_outstanding
                             (to_u64 (num_scid_queries_outstanding p + 1))
                             (queue_peer_msg p
                                (wire_query_short_channel_ids
                                   (chain_hash (rstate d)) encoded))))
            end
      end
  end.

(** [send_timestamp_filter] (developer builds). *)
Definition send_timestamp_filter (d : daemon) (parsed : option (pubkey * Z * Z))
    : option daemon :=
  match parsed with
  | None => None
  | Some (id, first, range) =>
      match find_peer d id with
      | None => Some d
      | Some i =>
          if negb (default false
                     (gossip_queries_feature <$> peers d !! i)) then Some d
          else
            Some (with_peer d i
                    (fun p =>
                       queue_peer_msg p
                         (wire_gossip_timestamp_filter (chain_hash (rstate d))
                            first range)))
      end
  end.

(** Modelled from the spec: [fromwire_gossip_timestamp_filter], the
    generated parser, gives back the fields
    [towire_gossip_timestamp_filter] was given. *)
Definition fromwire_gossip_timestamp_filter (msg : wire_msg)
    : option (blkid * Z * Z) :=
  match msg with
  | wire_gossip_timestamp_filter chain first_timestamp timestamp_range =>
      Some (chain, first_timestamp, timestamp_range)
  | _ => None
  end.

(** ** New peers *)

(** What goes to connectd: [gossip_new_peer_reply], and the descriptor
    passed after a success. *)
Inductive connectd_msg :=
| gossip_new_peer_reply (success : bool)
| connectd_fd.

(** [connectd_new_peer]: the daemon after the request and what is sent to
    connectd.  [socketpair_ok] is whether [socketpair] succeeded.  [None]:
    the request did not parse and the connection to connectd is closed.
    The peer found under the same id is freed, which runs [destroy_peer];
    the new one goes to the tail of [daemon->peers]. *)
Definition connectd_new_peer (d : daemon) (parsed : option (pubkey * bool * bool))
    (socketpair_ok : bool) : option (daemon * list connectd_msg) :=
  match parsed with
  | None => None
  | Some (id, gossip_queries, initial_routing_sync) =>
      if negb socketpair_ok then Some (d, [gossip_new_peer_reply false])
      else
        let d :=
          match find_peer d id with
          | Some i => destroy_peer d i
          | None => d
          end in
        let peer :=
          wake_gossip_out
            (new_peer (rstate d) id gossip_queries initial_routing_sync) in
        Some (set_peers (peers d ++ [peer]) d,
              [gossip_new_peer_reply true; connectd_fd])
  end.

(** ** Our own node announcement *)

(** The timestamp [send_node_announcement] puts in the announcement it
    has signed: [now] is [time_now().ts.tv_sec], [last_timestamp] is a
    signed 64-bit value, -1 without a node of our own.  "Timestamps must
    move forward, or announce will be ignored!" *)
Definition send_node_announcement_timestamp (d : daemon) (now : Z) : Z :=
  let timestamp := to_u32 now in
  let last_timestamp :=
    match get_node (rstate d) (daemon_id d) with
    | Some self => node_last_timestamp self
    | None => -1
    end in
  if timestamp <=? last_timestamp then to_u32 (last_timestamp + 1)
  else timestamp.

(** ** Notions used by the further properties *)

(** A [getchannels] entry with [local_disabled] set. *)
Definition entry_disabled (e : gossip_getchannels_entry) : gossip_getchannels_entry :=
  {| e_source := e_source e; e_destination := e_destination e;
     e_satoshis := e_satoshis e; e_channel_flags := e_channel_flags e;
     e_message_flags := e_message_flags e; e_local_disabled := true;
     e_public := e_public e; e_short_channel_id := e_short_channel_id e;
     e_last_update_timestamp := e_last_update_timestamp e;
     e_base_fee_msat := e_base_fee_msat e;
     e_fee_per_millionth := e_fee_per_millionth e; e_delay := e_delay e |}.

(** The route hint [get_incoming_channels] makes of the channel [c] of
    the node [n]. *)
Definition incoming_hint (n : node) (c : chan) : route_info :=
  let hc := half_at c (half_chan_to n c) in
  {| ri_pubkey := other_node n c;
     ri_short_channel_id := scid c;
     ri_fee_base_msat := base_fee hc;
     ri_fee_proportional_millionths := proportional_fee hc;
     ri_cltv_expiry_delta := delay hc |}.

(** "Peers we have directly or indirectly: id is unique". *)
Definition peers_unique (d : daemon) : Prop := NoDup (peer_id <$> peers d).

(** Every setting of the staggered broadcast is as it was. *)
Definition same_broadcast_state (p p' : peer) : Prop :=
  broadcast_index p' = broadcast_index p /\
  gossip_timer p' = gossip_timer p /\
  gossip_timestamp_min p' = gossip_timestamp_min p /\
  gossip_timestamp_max p' = gossip_timestamp_max p.

(** The log entry [q] is inside the timestamp window of [p]. *)
Definition in_window (p : peer) (q : queued_message) : Prop :=
  gossip_timestamp_min p <= qm_timestamp q <= gossip_timestamp_max p.

(** The windows [ws], each of at least one block, follow one another from
    block [lo] up to block [hi], without gap or overlap. *)
Fixpoint tiles (lo hi : Z) (ws : list (Z * Z)) : Prop :=
  match ws with
  | [] => lo = hi
  | w :: ws => w.1 = lo /\ 1 <= w.2 /\ tiles (w.1 + w.2) hi ws
  end.

(** [l] is what the walk of [queue_channel_ranges] gathers for the window
    of [number_of_blocks] blocks from [first_blocknum]. *)
Definition range_ids (r : routing_state) (first_blocknum number_of_blocks : Z)
    (l : list Z) : Prop :=
  forall s, s ∈ l <->
    is_Some (chanmap r !! s) /\ range_start first_blocknum < s /\
    short_channel_id_blocknum s < first_blocknum + number_of_blocks.

(** The windows [ws] follow one another from block [lo] up to block [hi],
    without gap or overlap; a window may be empty. *)
Fixpoint abuts (lo hi : Z) (ws : list (Z * Z)) : Prop :=
  match ws with
  | [] => lo = hi
  | w :: ws => w.1 = lo /\ 0 <= w.2 /\ abuts (w.1 + w.2) hi ws
  end.

(** [msgs] is what [queue_channel_ranges] queues for the windows [leaves]
    its halving ends at, each with the ids of its walk: one
    [reply_channel_range] for a window whose ids fit one reply, and nothing
    for a window whose ids do not fit, which then has at most one block. *)
Fixpoint range_answers (X : collaborators) (dev : dev_knobs)
    (r : routing_state) (leaves : list (Z * Z * list Z))
    (msgs : list wire_msg) : Prop :=
  match leaves with
  | [] => msgs = []
  | c :: leaves =>
      (exists msg msgs',
         msgs = msg :: msgs' /\ reply_carries X dev r c msg /\
         range_answers X dev r leaves msgs')
      \/ (c.1.2 <= 1 /\
          (exists body,
             encode_scids X dev c.2 max_encoded_bytes = Some (false, body)) /\
          range_answers X dev r leaves msgs)
  end.

(** The decoder [X'] reads what the encoder [X] writes, for ids of the
    channel map of [r]. *)
Definition codec_round_trip (X : collaborators) (dev : dev_knobs)
    (X' : collaborators) (r : routing_state) : Prop :=
  forall (l : list Z) body,
    (forall s, s ∈ l -> is_Some (chanmap r !! s)) ->
    encode_scids X dev l max_encoded_bytes = Some (true, body) ->
    decode_short_ids X' body = Some l.

(** The unsigned update [gossip_send_keepalive_update] has
    [update_local_channel] build for the half [hc] of [c]. *)
Definition keepalive_update (d : daemon) (now : Z) (c : chan) (hc : half_chan)
    : channel_update_fields :=
  local_channel_update (rstate d) now c
    (Z.land (channel_flags hc) ROUTING_FLAGS_DIRECTION) (local_disabled c)
    (delay hc) (htlc_minimum_msat hc) (base_fee hc) (proportional_fee hc)
    (htlc_maximum_msat hc).

(** * Properties *)

(** ** Projections of the field updates *)

(** Each projection commutes with the updates of the other fields. *)

Lemma broadcast_index_set_broadcast_index v p : broadcast_index (set_broadcast_index v p) = v.
Proof. reflexivity. Qed.

Lemma gossip_timestamp_min_set_broadcast_index v p : gossip_timestamp_min (set_broadcast_index v p) = gossip_timestamp_min p.
Proof. reflexivity. Qed.

Lemma gossip_timestamp_max_set_broadcast_index v p : gossip_timestamp_max (set_broadcast_index v p) = gossip_timestamp_max p.
Proof. reflexivity. Qed.

Lemma scid_queries_set_broadcast_index v p : scid_queries (set_broadcast_index v p) = scid_queries p.
Proof. reflexivity. Qed.

Lemma scid_query_idx_set_broadcast_index v p : scid_query_idx (set_broadcast_index v p) = scid_query_idx p.
Proof. reflexivity. Qed.

Lemma scid_query_nodes_set_broadcast_index v p : scid_query_nodes (set_broadcast_index v p) = scid_query_nodes p.
Proof. reflexivity. Qed.

Lemma scid_query_nodes_idx_set_broadcast_index v p : scid_query_nodes_idx (set_broadcast_index v p) = scid_query_nodes_idx p.
Proof. reflexivity. Qed.

Lemma gossip_timer_set_broadcast_index v p : gossip_timer (set_broadcast_index v p) = gossip_timer p.
Proof. reflexivity. Qed.

Lemma num_pings_outstanding_set_broadcast_index v p : num_pings_outstanding (set_broadcast_index v p) = num_pings_outstanding p.
Proof. reflexivity. Qed.

Lemma dc_set_broadcast_index v p : dc (set_broadcast_index v p) = dc p.
Proof. reflexivity. Qed.

Lemma broadcast_index_set_gossip_timestamp_min v p : broadcast_index (set_gossip_timestamp_min v p) = broadcast_index p.
Proof. reflexivity. Qed.

Lemma gossip_timestamp_min_set_gossip_timestamp_min v p : gossip_timestamp_min (set_gossip_timestamp_min v p) = v.
Proof. reflexivity. Qed.

Lemma gossip_timestamp_max_set_gossip_timestamp_min v p : gossip_timestamp_max (set_gossip_timestamp_min v p) = gossip_timestamp_max p.
Proof. reflexivity. Qed.

Lemma scid_queries_set_gossip_timestamp_min v p : scid_queries (set_gossip_timestamp_min v p) = scid_queries p.
Proof. reflexivity. Qed.

Lemma scid_query_idx_set_gossip_timestamp_min v p : scid_query_idx (set_gossip_timestamp_min v p) = scid_query_idx p.
Proof. reflexivity. Qed.

Lemma scid_query_nodes_set_gossip_timestamp_min v p : scid_query_nodes (set_gossip_timestamp_min v p) = scid_query_nodes p.
Proof. reflexivity. Qed.

Lemma scid_query_nodes_idx_set_gossip_timestamp_min v p : scid_query_nodes_idx (set_gossip_timestamp_min v p) = scid_query_nodes_idx p.
Proof. reflexivity. Qed.

Lemma gossip_timer_set_gossip_timestamp_min v p : gossip_timer (set_gossip_timestamp_min v p) = gossip_timer p.
Proof. reflexivity. Qed.

Lemma num_pings_outstanding_set_gossip_timestamp_min v p : num_pings_outstanding (set_gossip_timestamp_min v p) = num_pings_outstanding p.
Proof. reflexivity. Qed.

Lemma dc_set_gossip_timestamp_min v p : dc (set_gossip_timestamp_min v p) = dc p.
Proof. reflexivity. Qed.

Lemma broadcast_index_set_gossip_timestamp_max v p : broadcast_index (set_gossip_timestamp_max v p) = broadcast_index p.
Proof. reflexivity. Qed.

Lemma gossip_timestamp_min_set_gossip_timestamp_max v p : gossip_timestamp_min (set_gossip_timestamp_max v p) = gossip_timestamp_min p.
Proof. reflexivity. Qed.

Lemma gossip_timestamp_max_set_gossip_timestamp_max v p : gossip_timestamp_max (set_gossip_timestamp_max v p) = v.
Proof. reflexivity. Qed.

Lemma scid_queries_set_gossip_timestamp_max v p : scid_queries (set_gossip_timestamp_max v p) = scid_queries p.
Proof. reflexivity. Qed.

Lemma scid_query_idx_set_gossip_timestamp_max v p : scid_query_idx (set_gossip_timestamp_max v p) = scid_query_idx p.
Proof. reflexivity. Qed.

Lemma scid_query_nodes_set_gossip_timestamp_max v p : scid_query_nodes (set_gossip_timestamp_max v p) = scid_query_nodes p.
Proof. reflexivity. Qed.

Lemma scid_query_nodes_idx_set_gossip_timestamp_max v p : scid_query_nodes_idx (set_gossip_timestamp_max v p) = scid_query_nodes_idx p.
Proof. reflexivity. Qed.

Lemma gossip_timer_set_gossip_timestamp_max v p : gossip_timer (set_gossip_timestamp_max v p) = gossip_timer p.
Proof. reflexivity. Qed.

Lemma num_pings_outstanding_set_gossip_timestamp_max v p : num_pings_outstanding (set_gossip_timestamp_max v p) = num_pings_outstanding p.
Proof. reflexivity. Qed.

Lemma dc_set_gossip_timestamp_max v p : dc (set_gossip_timestamp_max v p) = dc p.
Proof. reflexivity. Qed.

Lemma broadcast_index_set_scid_queries v p : broadcast_index (set_scid_queries v p) = broadcast_index p.
Proof. reflexivity. Qed.

Lemma gossip_timestamp_min_set_scid_queries v p : gossip_timestamp_min (set_scid_queries v p) = gossip_timestamp_min p.
Proof. reflexivity. Qed.

Lemma gossip_timestamp_max_set_scid_queries v p : gossip_timestamp_max (set_scid_queries v p) = gossip_timestamp_max p.
Proof. reflexivity. Qed.

Lemma scid_queries_set_scid_queries v p : scid_queries (set_scid_queries v p) = v.
Proof. reflexivity. Qed.

Lemma scid_query_idx_set_scid_queries v p : scid_query_idx (set_scid_queries v p) = scid_query_idx p.
Proof. reflexivity. Qed.

Lemma scid_query_nodes_set_scid_queries v p : scid_query_nodes (set_scid_queries v p) = scid_query_nodes p.
Proof. reflexivity. Qed.

Lemma scid_query_nodes_idx_set_scid_queries v p : scid_query_nodes_idx (set_scid_queries v p) = scid_query_nodes_idx p.
Proof. reflexivity. Qed.

Lemma gossip_timer_set_scid_queries v p : gossip_timer (set_scid_queries v p) = gossip_timer p.
Proof. reflexivity. Qed.

Lemma num_pings_outstanding_set_scid_queries v p : num_pings_outstanding (set_scid_queries v p) = num_pings_outstanding p.
Proof. reflexivity. Qed.

Lemma dc_set_scid_queries v p : dc (set_scid_queries v p) = dc p.
Proof. reflexivity. Qed.

Lemma broadcast_index_set_scid_query_idx v p : broadcast_index (set_scid_query_idx v p) = broadcast_index p.
Proof. reflexivity. Qed.

Lemma gossip_timestamp_min_set_scid_query_idx v p : gossip_timestamp_min (set_scid_query_idx v p) = gossip_timestamp_min p.
Proof. reflexivity. Qed.

Lemma gossip_timestamp_max_set_scid_query_idx v p : gossip_timestamp_max (set_scid_query_idx v p) = gossip_timestamp_max p.
Proof. reflexivity. Qed.

Lemma scid_queries_set_scid_query_idx v p : scid_queries (set_scid_query_idx v p) = scid_queries p.
Proof. reflexivity. Qed.

Lemma scid_query_idx_set_scid_query_idx v p : scid_query_idx (set_scid_query_idx v p) = v.
Proof. reflexivity. Qed.

Lemma scid_query_nodes_set_scid_query_idx v p : scid_query_nodes (set_scid_query_idx v p) = scid_query_nodes p.
Proof. reflexivity. Qed.

Lemma scid_query_nodes_idx_set_scid_query_idx v p : scid_query_nodes_idx (set_scid_query_idx v p) = scid_query_nodes_idx p.
Proof. reflexivity. Qed.

Lemma gossip_timer_set_scid_query_idx v p : gossip_timer (set_scid_query_idx v p) = gossip_timer p.
Proof. reflexivity. Qed.

Lemma num_pings_outstanding_set_scid_query_idx v p : num_pings_outstanding (set_scid_query_idx v p) = num_pings_outstanding p.
Proof. reflexivity. Qed.

Lemma dc_set_scid_query_idx v p : dc (set_scid_query_idx v p) = dc p.
Proof. reflexivity. Qed.

Lemma broadcast_index_set_scid_query_nodes v p : broadcast_index (set_scid_query_nodes v p) = broadcast_index p.
Proof. reflexivity. Qed.

Lemma gossip_timestamp_min_set_scid_query_nodes v p : gossip_timestamp_min (set_scid_query_nodes v p) = gossip_timestamp_min p.
Proof. reflexivity. Qed.

Lemma gossip_timestamp_max_set_scid_query_nodes v p : gossip_timestamp_max (set_scid_query_nodes v p) = gossip_timestamp_max p.
Proof. reflexivity. Qed.

Lemma scid_queries_set_scid_query_nodes v p : scid_queries (set_scid_query_nodes v p) = scid_queries p.
Proof. reflexivity. Qed.

Lemma scid_query_idx_set_scid_query_nodes v p : scid_query_idx (set_scid_query_nodes v p) = scid_query_idx p.
Proof. reflexivity. Qed.

Lemma scid_query_nodes_set_scid_query_nodes v p : scid_query_nodes (set_scid_query_nodes v p) = v.
Proof. reflexivity. Qed.

Lemma scid_query_nodes_idx_set_scid_query_nodes v p : scid_query_nodes_idx (set_scid_query_nodes v p) = scid_query_nodes_idx p.
Proof. reflexivity. Qed.

Lemma gossip_timer_set_scid_query_nodes v p : gossip_timer (set_scid_query_nodes v p) = gossip_timer p.
Proof. reflexivity. Qed.

Lemma num_pings_outstanding_set_scid_query_nodes v p : num_pings_outstanding (set_scid_query_nodes v p) = num_pings_outstanding p.
Proof. reflexivity. Qed.

Lemma dc_set_scid_query_nodes v p : dc (set_scid_query_nodes v p) = dc p.
Proof. reflexivity. Qed.

Lemma broadcast_index_set_scid_query_nodes_idx v p : broadcast_index (set_scid_query_nodes_idx v p) = broadcast_index p.
Proof. reflexivity. Qed.

Lemma gossip_timestamp_min_set_scid_query_nodes_idx v p : gossip_timestamp_min (set_scid_query_nodes_idx v p) = gossip_timestamp_min p.
Proof. reflexivity. Qed.

Lemma gossip_timestamp_max_set_scid_query_nodes_idx v p : gossip_timestamp_max (set_scid_query_nodes_idx v p) = gossip_timestamp_max p.
Proof. reflexivity. Qed.

Lemma scid_queries_set_scid_query_nodes_idx v p : scid_queries (set_scid_query_nodes_idx v p) = scid_queries p.
Proof. reflexivity. Qed.

Lemma scid_query_idx_set_scid_query_nodes_idx v p : scid_query_idx (set_scid_query_nodes_idx v p) = scid_query_idx p.
Proof. reflexivity. Qed.

Lemma scid_query_nodes_set_scid_query_nodes_idx v p : scid_query_nodes (set_scid_query_nodes_idx v p) = scid_query_nodes p.
Proof. reflexivity. Qed.

Lemma scid_query_nodes_idx_set_scid_query_nodes_idx v p : scid_query_nodes_idx (set_scid_query_nodes_idx v p) = v.
Proof. reflexivity. Qed.

Lemma gossip_timer_set_scid_query_nodes_idx v p : gossip_timer (set_scid_query_nodes_idx v p) = gossip_timer p.
Proof. reflexivity. Qed.

Lemma num_pings_outstanding_set_scid_query_nodes_idx v p : num_pings_outstanding (set_scid_query_nodes_idx v p) = num_pings_outstanding p.
Proof. reflexivity. Qed.

Lemma dc_set_scid_query_nodes_idx v p : dc (set_scid_query_nodes_idx v p) = dc p.
Proof. reflexivity. Qed.

Lemma broadcast_index_set_gossip_timer v p : broadcast_index (set_gossip_timer v p) = broadcast_index p.
Proof. reflexivity. Qed.

Lemma gossip_timestamp_min_set_gossip_timer v p : gossip_timestamp_min (set_gossip_timer v p) = gossip_timestamp_min p.
Proof. reflexivity. Qed.

Lemma gossip_timestamp_max_set_gossip_timer v p : gossip_timestamp_max (set_gossip_timer v p) = gossip_timestamp_max p.
Proof. reflexivity. Qed.

Lemma scid_queries_set_gossip_timer v p : scid_queries (set_gossip_timer v p) = scid_queries p.
Proof. reflexivity. Qed.

Lemma scid_query_idx_set_gossip_timer v p : scid_query_idx (set_gossip_timer v p) = scid_query_idx p.
Proof. reflexivity. Qed.

Lemma scid_query_nodes_set_gossip_timer v p : scid_query_nodes (set_gossip_timer v p) = scid_query_nodes p.
Proof. reflexivity. Qed.

Lemma scid_query_nodes_idx_set_gossip_timer v p : scid_query_nodes_idx (set_gossip_timer v p) = scid_query_nodes_idx p.
Proof. reflexivity. Qed.

Lemma gossip_timer_set_gossip_timer v p : gossip_timer (set_gossip_timer v p) = v.
Proof. reflexivity. Qed.

Lemma num_pings_outstanding_set_gossip_timer v p : num_pings_outstanding (set_gossip_timer v p) = num_pings_outstanding p.
Proof. reflexivity. Qed.

Lemma dc_set_gossip_timer v p : dc (set_gossip_timer v p) = dc p.
Proof. reflexivity. Qed.

Lemma broadcast_index_set_num_scid_queries_outstanding v p : broadcast_index (set_num_scid_queries_outstanding v p) = broadcast_index p.
Proof. reflexivity. Qed.

Lemma gossip_timestamp_min_set_num_scid_queries_outstanding v p : gossip_timestamp_min (set_num_scid_queries_outstanding v p) = gossip_timestamp_min p.
Proof. reflexivity. Qed.

Lemma gossip_timestamp_max_set_num_scid_queries_outstanding v p : gossip_timestamp_max (set_num_scid_queries_outstanding v p) = gossip_timestamp_max p.
Proof. reflexivity. Qed.

Lemma scid_queries_set_num_scid_queries_outstanding v p : scid_queries (set_num_scid_queries_outstanding v p) = scid_queries p.
Proof. reflexivity. Qed.

Lemma scid_query_idx_set_num_scid_queries_outstanding v p : scid_query_idx (set_num_scid_queries_outstanding v p) = scid_query_idx p.
Proof. reflexivity. Qed.

Lemma scid_query_nodes_set_num_scid_queries_outstanding v p : scid_query_nodes (set_num_scid_queries_outstanding v p) = scid_query_nodes p.
Proof. reflexivity. Qed.

Lemma scid_query_nodes_idx_set_num_scid_queries_outstanding v p : scid_query_nodes_idx (set_num_scid_queries_outstanding v p) = scid_query_nodes_idx p.
Proof. reflexivity. Qed.

Lemma gossip_timer_set_num_scid_queries_outstanding v p : gossip_timer (set_num_scid_queries_outstanding v p) = gossip_timer p.
Proof. reflexivity. Qed.

Lemma num_pings_outstanding_set_num_scid_queries_outstanding v p : num_pings_outstanding (set_num_scid_queries_outstanding v p) = num_pings_outstanding p.
Proof. reflexivity. Qed.

Lemma dc_set_num_scid_queries_outstanding v p : dc (set_num_scid_queries_outstanding v p) = dc p.
Proof. reflexivity. Qed.

Lemma broadcast_index_set_num_pings_outstanding v p : broadcast_index (set_num_pings_outstanding v p) = broadcast_index p.
Proof. reflexivity. Qed.

Lemma gossip_timestamp_min_set_num_pings_outstanding v p : gossip_timestamp_min (set_num_pings_outstanding v p) = gossip_timestamp_min p.
Proof. reflexivity. Qed.

Lemma gossip_timestamp_max_set_num_pings_outstanding v p : gossip_timestamp_max (set_num_pings_outstanding v p) = gossip_timestamp_max p.
Proof. reflexivity. Qed.

Lemma scid_queries_set_num_pings_outstanding v p : scid_queries (set_num_pings_outstanding v p) = scid_queries p.
Proof. reflexivity. Qed.

Lemma scid_query_idx_set_num_pings_outstanding v p : scid_query_idx (set_num_pings_outstanding v p) = scid_query_idx p.
Proof. reflexivity. Qed.

Lemma scid_query_nodes_set_num_pings_outstanding v p : scid_query_nodes (set_num_pings_outstanding v p) = scid_query_nodes p.
Proof. reflexivity. Qed.

Lemma scid_query_nodes_idx_set_num_pings_outstanding v p : scid_query_nodes_idx (set_num_pings_outstanding v p) = scid_query_nodes_idx p.
Proof. reflexivity. Qed.

Lemma gossip_timer_set_num_pings_outstanding v p : gossip_timer (set_num_pings_outstanding v p) = gossip_timer p.
Proof. reflexivity. Qed.

Lemma num_pings_outstanding_set_num_pings_outstanding v p : num_pings_outstanding (set_num_pings_outstanding v p) = v.
Proof. reflexivity. Qed.

Lemma dc_set_num_pings_outstanding v p : dc (set_num_pings_outstanding v p) = dc p.
Proof. reflexivity. Qed.

Lemma broadcast_index_set_dc v p : broadcast_index (set_dc v p) = broadcast_index p.
Proof. reflexivity. Qed.

Lemma gossip_timestamp_min_set_dc v p : gossip_timestamp_min (set_dc v p) = gossip_timestamp_min p.
Proof. reflexivity. Qed.

Lemma gossip_timestamp_max_set_dc v p : gossip_timestamp_max (set_dc v p) = gossip_timestamp_max p.
Proof. reflexivity. Qed.

Lemma scid_queries_set_dc v p : scid_queries (set_dc v p) = scid_queries p.
Proof. reflexivity. Qed.

Lemma scid_query_idx_set_dc v p : scid_query_idx (set_dc v p) = scid_query_idx p.
Proof. reflexivity. Qed.

Lemma scid_query_nodes_set_dc v p : scid_query_nodes (set_dc v p) = scid_query_nodes p.
Proof. reflexivity. Qed.

Lemma scid_query_nodes_idx_set_dc v p : scid_query_nodes_idx (set_dc v p) = scid_query_nodes_idx p.
Proof. reflexivity. Qed.

Lemma gossip_timer_set_dc v p : gossip_timer (set_dc v p) = gossip_timer p.
Proof. reflexivity. Qed.

Lemma num_pings_outstanding_set_dc v p : num_pings_outstanding (set_dc v p) = num_pings_outstanding p.
Proof. reflexivity. Qed.

Lemma dc_set_dc v p : dc (set_dc v p) = v.
Proof. reflexivity. Qed.

Create HintDb peer.

#[global] Hint Rewrite
  broadcast_index_set_broadcast_index
  gossip_timestamp_min_set_broadcast_index
  gossip_timestamp_max_set_broadcast_index scid_queries_set_broadcast_index
  scid_query_idx_set_broadcast_index scid_query_nodes_set_broadcast_index
  scid_query_nodes_idx_set_broadcast_index gossip_timer_set_broadcast_index
  num_pings_outstanding_set_broadcast_index dc_set_broadcast_index
  broadcast_index_set_gossip_timestamp_min
  gossip_timestamp_min_set_gossip_timestamp_min
  gossip_timestamp_max_set_gossip_timestamp_min
  scid_queries_set_gossip_timestamp_min
  scid_query_idx_set_gossip_timestamp_min
  scid_query_nodes_set_gossip_timestamp_min
  scid_query_nodes_idx_set_gossip_timestamp_min
  gossip_timer_set_gossip_timestamp_min
  num_pings_outstanding_set_gossip_timestamp_min dc_set_gossip_timestamp_min
  broadcast_index_set_gossip_timestamp_max
  gossip_timestamp_min_set_gossip_timestamp_max
  gossip_timestamp_max_set_gossip_timestamp_max
  scid_queries_set_gossip_timestamp_max
  scid_query_idx_set_gossip_timestamp_max
  scid_query_nodes_set_gossip_timestamp_max
  scid_query_nodes_idx_set_gossip_timestamp_max
  gossip_timer_set_gossip_timestamp_max
  num_pings_outstanding_set_gossip_timestamp_max dc_set_gossip_timestamp_max
  broadcast_index_set_scid_queries gossip_timestamp_min_set_scid_queries
  gossip_timestamp_max_set_scid_queries scid_queries_set_scid_queries
  scid_query_idx_set_scid_queries scid_query_nodes_set_scid_queries
  scid_query_nodes_idx_set_scid_queries gossip_timer_set_scid_queries
  num_pings_outstanding_set_scid_queries dc_set_scid_queries
  broadcast_index_set_scid_query_idx gossip_timestamp_min_set_scid_query_idx
  gossip_timestamp_max_set_scid_query_idx scid_queries_set_scid_query_idx
  scid_query_idx_set_scid_query_idx scid_query_nodes_set_scid_query_idx
  scid_query_nodes_idx_set_scid_query_idx gossip_timer_set_scid_query_idx
  num_pings_outstanding_set_scid_query_idx dc_set_scid_query_idx
  broadcast_index_set_scid_query_nodes
  gossip_timestamp_min_set_scid_query_nodes
  gossip_timestamp_max_set_scid_query_nodes scid_queries_set_scid_query_nodes
  scid_query_idx_set_scid_query_nodes scid_query_nodes_set_scid_query_nodes
  scid_query_nodes_idx_set_scid_query_nodes gossip_timer_set_scid_query_nodes
  num_pings_outstanding_set_scid_query_nodes dc_set_scid_query_nodes
  broadcast_index_set_scid_query_nodes_idx
  gossip_timestamp_min_set_scid_query_nodes_idx
  gossip_timestamp_max_set_scid_query_nodes_idx
  scid_queries_set_scid_query_nodes_idx
  scid_query_idx_set_scid_query_nodes_idx
  scid_query_nodes_set_scid_query_nodes_idx
  scid_query_nodes_idx_set_scid_query_nodes_idx
  gossip_timer_set_scid_query_nodes_idx
  num_pings_outstanding_set_scid_query_nodes_idx dc_set_scid_query_nodes_idx
  broadcast_index_set_gossip_timer gossip_timestamp_min_set_gossip_timer
  gossip_timestamp_max_set_gossip_timer scid_queries_set_gossip_timer
  scid_query_idx_set_gossip_timer scid_query_nodes_set_gossip_timer
  scid_query_nodes_idx_set_gossip_timer gossip_timer_set_gossip_timer
  num_pings_outstanding_set_gossip_timer dc_set_gossip_timer
  broadcast_index_set_num_scid_queries_outstanding
  gossip_timestamp_min_set_num_scid_queries_outstanding
  gossip_timestamp_max_set_num_scid_queries_outstanding
  scid_queries_set_num_scid_queries_outstanding
  scid_query_idx_set_num_scid_queries_outstanding
  scid_query_nodes_set_num_scid_queries_outstanding
  scid_query_nodes_idx_set_num_scid_queries_outstanding
  gossip_timer_set_num_scid_queries_outstanding
  num_pings_outstanding_set_num_scid_queries_outstanding
  dc_set_num_scid_queries_outstanding
  broadcast_index_set_num_pings_outstanding
  gossip_timestamp_min_set_num_pings_outstanding
  gossip_timestamp_max_set_num_pings_outstanding
  scid_queries_set_num_pings_outstanding
  scid_query_idx_set_num_pings_outstanding
  scid_query_nodes_set_num_pings_outstanding
  scid_query_nodes_idx_set_num_pings_outstanding
  gossip_timer_set_num_pings_outstanding
  num_pings_outstanding_set_num_pings_outstanding
  dc_set_num_pings_outstanding broadcast_index_set_dc
  gossip_timestamp_min_set_dc gossip_timestamp_max_set_dc scid_queries_set_dc
  scid_query_idx_set_dc scid_query_nodes_set_dc scid_query_nodes_idx_set_dc
  gossip_timer_set_dc num_pings_outstanding_set_dc dc_set_dc
  : peer.

Ltac peer_simpl :=
  unfold peer_error, queue_peer_msg, wake_gossip_out in *;
  autorewrite with peer in *.

(** ** [uintmap_after] picks the least key above the index *)

Lemma uintmap_after_list {A} (l : list (Z * A)) (idx : Z) :
  match foldr (fun kv best =>
                 if idx <? fst kv then
                   match best with
                   | Some b => if fst kv <? fst b then Some kv else best
                   | None => Some kv
                   end
                 else best) None l with
  | Some kv => kv ∈ l /\ idx < fst kv /\ forall kv', kv' ∈ l -> idx < fst kv' -> fst kv <= fst kv'
  | None => forall kv', kv' ∈ l -> fst kv' <= idx
  end.
Proof.
  induction l as [|x l IH]; cbn [foldr].
  - intros kv' H. inversion H.
  - destruct (foldr _ None l) as [b|] eqn:E.
    + destruct IH as (Hin & Hlt & Hmin).
      destruct (idx <? x.1) eqn:Hx.
      * apply Z.ltb_lt in Hx. destruct (x.1 <? b.1) eqn:Hb.
        -- apply Z.ltb_lt in Hb. split; [left|]. split; [done|].
           intros kv' Hkv' Hi. apply elem_of_cons in Hkv' as [->|Hkv']; [lia|].
           specialize (Hmin _ Hkv' Hi). lia.
        -- apply Z.ltb_ge in Hb. split; [by right|]. split; [done|].
           intros kv' Hkv' Hi. apply elem_of_cons in Hkv' as [->|Hkv']; [lia|].
           by apply Hmin.
      * apply Z.ltb_ge in Hx. split; [by right|]. split; [done|].
        intros kv' Hkv' Hi. apply elem_of_cons in Hkv' as [->|Hkv']; [lia|].
        by apply Hmin.
    + destruct (idx <? x.1) eqn:Hx.
      * apply Z.ltb_lt in Hx. split; [left|]. split; [done|].
        intros kv' Hkv' Hi. apply elem_of_cons in Hkv' as [->|Hkv']; [lia|].
        specialize (IH _ Hkv'). lia.
      * apply Z.ltb_ge in Hx.
        intros kv' Hkv'. apply elem_of_cons in Hkv' as [->|Hkv']; [lia|].
        by apply IH.
Qed.

Lemma uintmap_after_Some {A} (m : gmap Z A) idx k v :
  uintmap_after m idx = Some (k, v) ->
  m !! k = Some v /\ idx < k /\
  forall k', is_Some (m !! k') -> idx < k' -> k <= k'.
Proof.
  unfold uintmap_after. intros H.
  pose proof (uintmap_after_list (map_to_list m) idx) as L.
  rewrite H in L. destruct L as (Hin & Hlt & Hmin).
  apply elem_of_map_to_list in Hin. split; [done|]. split; [done|].
  intros k' [v' Hv'] Hi.
  apply (Hmin (k', v')); [by apply elem_of_map_to_list | done].
Qed.

Lemma uintmap_after_None {A} (m : gmap Z A) idx :
  uintmap_after m idx = None ->
  forall k', is_Some (m !! k') -> k' <= idx.
Proof.
  unfold uintmap_after. intros H k' [v' Hv'].
  pose proof (uintmap_after_list (map_to_list m) idx) as L.
  rewrite H in L. apply (L (k', v')). by apply elem_of_map_to_list.
Qed.

Lemma keys_above_next {A} (m : gmap Z A) idx k v :
  uintmap_after m idx = Some (k, v) ->
  (length (keys_above m k) < length (keys_above m idx))%nat.
Proof.
  intros H. apply uintmap_after_Some in H as (Hk & Hlt & _).
  unfold keys_above.
  rewrite <- (list_filter_filter_l (fun kv => k < kv.1) (fun kv => idx < kv.1))
    by (intros x; cbn; lia).
  apply (length_filter_lt _ _ (k, v)).
  - apply list_elem_of_filter. split; [done|]. by apply elem_of_map_to_list.
  - cbn. lia.
Qed.

Lemma keys_above_size {A} (m : gmap Z A) idx :
  (length (keys_above m idx) <= size m)%nat.
Proof. unfold keys_above. rewrite <- length_map_to_list. apply length_filter. Qed.

(** A walk from [idx] ends within as many steps as there are keys above
    [idx]: more fuel does not change what [next_broadcast] returns. *)
Lemma next_broadcast_from_enough fuel fuel' (m : gmap Z queued_message) tmin tmax :
  forall idx,
  (length (keys_above m idx) < fuel)%nat ->
  (length (keys_above m idx) < fuel')%nat ->
  next_broadcast_from fuel m tmin tmax idx
  = next_broadcast_from fuel' m tmin tmax idx.
Proof.
  revert fuel'. induction fuel as [|fuel IH]; intros [|fuel'] idx H1 H2;
    try lia.
  cbn [next_broadcast_from].
  destruct (uintmap_after m idx) as [[k q]|] eqn:E; [|done].
  destruct (_ && _); [done|].
  pose proof (keys_above_next m idx k q E). apply IH; lia.
Qed.

(** ** The timestamp filter *)

Lemma filter_upper_bound first range :
  is_u32 first -> 0 <= range <= UINT32_MAX ->
  to_u32 (to_u32 (first + range) - 1) =
    if (first + range =? 0) then UINT32_MAX
    else if first + range - 1 <=? UINT32_MAX then first + range - 1
    else first + range - 1 - 2 ^ 32.
Proof.
  unfold is_u32, UINT32_MAX, to_u32. intros Hf Hr.
  destruct (first + range =? 0) eqn:E0.
  - apply Z.eqb_eq in E0. rewrite E0. reflexivity.
  - apply Z.eqb_neq in E0.
    destruct (first + range - 1 <=? 4294967295) eqn:E1.
    + apply Z.leb_le in E1.
      destruct (Z.eq_dec (first + range) (2 ^ 32)) as [e|n].
      * rewrite e. reflexivity.
      * rewrite (Z.mod_small (first + range)) by lia.
        rewrite Z.mod_small by lia. reflexivity.
    + apply Z.leb_gt in E1.
      replace (first + range) with ((first + range - 2 ^ 32) + 1 * 2 ^ 32) at 1 by lia.
      rewrite Z.mod_add by lia.
      rewrite (Z.mod_small (first + range - 2 ^ 32)) by lia.
      rewrite Z.mod_small by lia. lia.
Qed.

Lemma filter_accepted_fields rstate p chain first range :
  bitcoin_blkid_eq (chain_hash rstate) chain = true ->
  let p' := handle_gossip_timestamp_filter rstate p (Some (chain, first, range)) in
  gossip_timestamp_min p' = first /\
  gossip_timestamp_max p' =
    (let m := to_u32 (to_u32 (first + range) - 1) in
     if m <? first then UINT32_MAX else m) /\
  broadcast_index p' = 0.
Proof.
  intros Hc. unfold handle_gossip_timestamp_filter. rewrite Hc. cbn [negb].
  destruct (gossip_timestamp_max p <? gossip_timestamp_min p);
    peer_simpl; destruct (_ <? first); peer_simpl; auto.
Qed.

(** C4.  An accepted [gossip_timestamp_filter] with a range of at least one
    leaves [ts_min = first_timestamp <= ts_max]; when
    [first_timestamp + timestamp_range - 1] passes [2^32 - 1] the upper
    bound is [2^32 - 1], not the wrapped sum, and otherwise it is that
    sum. *)
Theorem timestamp_filter_saturates rstate p chain first range :
  bitcoin_blkid_eq (chain_hash rstate) chain = true ->
  is_u32 first -> 1 <= range <= UINT32_MAX ->
  let p' := handle_gossip_timestamp_filter rstate p (Some (chain, first, range)) in
  gossip_timestamp_min p' = first /\
  gossip_timestamp_min p' <= gossip_timestamp_max p' /\
  (UINT32_MAX < first + range - 1 -> gossip_timestamp_max p' = UINT32_MAX) /\
  (first + range - 1 <= UINT32_MAX ->
   gossip_timestamp_max p' = first + range - 1).
Proof.
  intros Hc Hf Hr p'.
  destruct (filter_accepted_fields rstate p chain first range Hc) as (Hmin & Hmax & _).
  fold p' in Hmin, Hmax. rewrite Hmin, Hmax.
  rewrite filter_upper_bound by (unfold is_u32 in *; lia).
  unfold is_u32, UINT32_MAX in *.
  destruct (first + range =? 0) eqn:E0; [apply Z.eqb_eq in E0; lia|].
  destruct (first + range - 1 <=? 4294967295) eqn:E1; cbn zeta.
  - apply Z.leb_le in E1.
    destruct (first + range - 1 <? first) eqn:E2;
      [apply Z.ltb_lt in E2 | apply Z.ltb_ge in E2]; lia.
  - apply Z.leb_gt in E1.
    destruct (first + range - 1 - 2 ^ 32 <? first) eqn:E2;
      [apply Z.ltb_lt in E2 | apply Z.ltb_ge in E2]; lia.
Qed.

Lemma timestamp_filter_saturates_witness :
  let p' := handle_gossip_timestamp_filter sample_rstate sample_peer
              (Some (sample_chain, 4294967000, 500)) in
  gossip_timestamp_min p' = 4294967000 /\
  gossip_timestamp_min p' <= gossip_timestamp_max p' /\
  (UINT32_MAX < 4294967000 + 500 - 1 -> gossip_timestamp_max p' = UINT32_MAX) /\
  (4294967000 + 500 - 1 <= UINT32_MAX ->
   gossip_timestamp_max p' = 4294967000 + 500 - 1).
Proof.
  apply (timestamp_filter_saturates sample_rstate sample_peer sample_chain
           4294967000 500).
  - reflexivity.
  - unfold is_u32, UINT32_MAX. lia.
  - unfold UINT32_MAX. lia.
Defined.

(** C10.  An accepted [gossip_timestamp_filter] with a range of zero
    subscribes the peer to everything from [first_timestamp] on: the window
    becomes [first_timestamp, 2^32 - 1].  For a [first_timestamp] of at
    least one this is the saturation of the computed maximum
    [first_timestamp - 1], which lies below the minimum. *)
Theorem timestamp_filter_zero_range rstate p chain first :
  bitcoin_blkid_eq (chain_hash rstate) chain = true ->
  is_u32 first ->
  let p' := handle_gossip_timestamp_filter rstate p (Some (chain, first, 0)) in
  gossip_timestamp_min p' = first /\ gossip_timestamp_max p' = UINT32_MAX /\
  (1 <= first ->
   to_u32 (to_u32 (first + 0) - 1) = first - 1 /\ first - 1 < first).
Proof.
  intros Hc Hf p'.
  destruct (filter_accepted_fields rstate p chain first 0 Hc) as (Hmin & Hmax & _).
  fold p' in Hmin, Hmax. rewrite Hmin, Hmax. split; [done|].
  rewrite filter_upper_bound by (unfold is_u32, UINT32_MAX in *; lia).
  unfold is_u32, UINT32_MAX in *.
  destruct (first + 0 =? 0) eqn:E0; cbn zeta.
  - apply Z.eqb_eq in E0. split; [|lia].
    destruct (4294967295 <? first) eqn:E2; [apply Z.ltb_lt in E2; lia | done].
  - apply Z.eqb_neq in E0.
    destruct (first + 0 - 1 <=? 4294967295) eqn:E1;
      [|apply Z.leb_gt in E1; lia].
    split; [|lia].
    destruct (first + 0 - 1 <? first) eqn:E2; [done | apply Z.ltb_ge in E2; lia].
Qed.

Lemma timestamp_filter_zero_range_witness :
  let p' := handle_gossip_timestamp_filter sample_rstate sample_peer
              (Some (sample_chain, 1500000000, 0)) in
  gossip_timestamp_min p' = 1500000000 /\ gossip_timestamp_max p' = UINT32_MAX /\
  (1 <= 1500000000 ->
   to_u32 (to_u32 (1500000000 + 0) - 1) = 1500000000 - 1
   /\ 1500000000 - 1 < 1500000000).
Proof.
  apply (timestamp_filter_zero_range sample_rstate sample_peer sample_chain
           1500000000).
  - reflexivity.
  - unfold is_u32, UINT32_MAX. lia.
Defined.

(** ** The broadcast cursor *)

Lemma next_broadcast_from_ge fuel m tmin tmax idx :
  idx <= snd (next_broadcast_from fuel m tmin tmax idx).
Proof.
  revert idx. induction fuel as [|fuel IH]; intros idx; cbn; [lia|].
  destruct (uintmap_after m idx) as [[k q]|] eqn:E; cbn; [|lia].
  apply uintmap_after_Some in E as (_ & Hlt & _).
  destruct (_ && _); cbn; [lia|]. specialize (IH k). lia.
Qed.

Lemma maybe_queue_gossip_index dev rstate p :
  broadcast_index p <= broadcast_index (snd (maybe_queue_gossip dev rstate p)).
Proof.
  unfold maybe_queue_gossip, next_broadcast.
  pose proof (next_broadcast_from_ge
                (S (size (broadcast_map (broadcasts rstate))))
                (broadcast_map (broadcasts rstate)) (gossip_timestamp_min p)
                (gossip_timestamp_max p) (broadcast_index p)) as H.
  destruct (next_broadcast_from _ _ _ _ _) as [[m|] idx]; cbn [snd] in H;
    destruct (gossip_timer p), (suppress_gossip dev); cbn; lia.
Qed.

Lemma scid_reply_channels_index rstate rest i p :
  broadcast_index (snd (scid_reply_channels rstate rest i p)) = broadcast_index p.
Proof.
  revert i p. induction rest as [|s rest IH]; intros i p; cbn; [done|].
  destruct (get_channel rstate s) as [c|]; [|apply IH].
  destruct (is_chan_announced c); cbn; [|apply IH].
  destruct (channel_update (half c).1), (channel_update (half c).2); done.
Qed.

Lemma scid_reply_nodes_index rstate rest i p :
  broadcast_index (snd (scid_reply_nodes rstate rest i p)) = broadcast_index p.
Proof.
  revert i p. induction rest as [|k rest IH]; intros i p; cbn; [done|].
  destruct (get_node rstate k) as [n|]; [|apply IH].
  destruct (node_announcement_index n =? 0); cbn; [apply IH | done].
Qed.

Lemma create_next_scid_reply_index rstate p :
  broadcast_index (snd (create_next_scid_reply rstate p)) = broadcast_index p.
Proof.
  unfold create_next_scid_reply.
  pose proof (scid_reply_channels_index rstate
                (drop (scid_query_idx p) (tal_arr (scid_queries p)))
                (scid_query_idx p) p) as H1.
  destruct (scid_reply_channels _ _ _ _) as [[i sent] p1]. cbn [snd] in H1.
  set (p2 := if _ && _ then _ else p1).
  assert (H2 : broadcast_index p2 = broadcast_index p).
  { subst p2. destruct (_ && _); [done | done]. }
  clearbody p2.
  set (p3 := set_scid_query_idx i p2).
  assert (H3 : broadcast_index p3 = broadcast_index p) by done.
  clearbody p3.
  destruct sent.
  - destruct (_ && _); cbn; done.
  - pose proof (scid_reply_nodes_index rstate
                  (drop (scid_query_nodes_idx p3) (tal_arr (scid_query_nodes p3)))
                  (scid_query_nodes_idx p3) p3) as H4.
    destruct (scid_reply_nodes _ _ _ _) as [[j sent] p4]. cbn [snd] in H4.
    destruct (_ && _); cbn; congruence.
Qed.

Lemma dump_gossip_index dev rstate p :
  broadcast_index p <= broadcast_index (snd (dump_gossip dev rstate p)).
Proof.
  unfold dump_gossip.
  pose proof (create_next_scid_reply_index rstate p) as H.
  destruct (create_next_scid_reply rstate p) as [sent p']. cbn [snd] in H.
  destruct sent; cbn; [lia|].
  pose proof (maybe_queue_gossip_index dev rstate p'). lia.
Qed.

Lemma queue_channel_ranges_index fuel X dev rstate p first num p' :
  queue_channel_ranges fuel X dev rstate p first num = Some p' ->
  broadcast_index p' = broadcast_index p.
Proof.
  revert p first num p'.
  induction fuel as [|fuel IH]; intros p first num p';
    cbn [queue_channel_ranges]; [done|].
  destruct (range_encoding rstate first num) as [e|]; [|done].
  destruct (encode_short_channel_ids_end X dev e max_encoded_bytes)
    as [[[] e']|]; [| |done].
  - intros [= <-]. done.
  - destruct (num <=? 1); [by intros [= <-]|].
    destruct (queue_channel_ranges fuel X dev rstate p first (num / 2))
      as [p1|] eqn:E1; [|done].
    intros E2. apply IH in E1. apply IH in E2. congruence.
Qed.

Lemma alter_keeps_index (f : peer -> peer) i (l : list peer) :
  (forall q, broadcast_index (f q) = broadcast_index q) ->
  broadcast_index <$> alter f i l = broadcast_index <$> l.
Proof.
  intros Hf. revert i. induction l as [|q l IH]; intros [|i]; cbn; [done..| |].
  - by rewrite Hf.
  - f_equal. apply IH.
Qed.

Lemma update_local_channel_indices X d now c direction disable a b e f g d' :
  update_local_channel X d now c direction disable a b e f g = Some d' ->
  broadcast_index <$> peers d' = broadcast_index <$> peers d.
Proof.
  unfold update_local_channel.
  destruct (hsm_cupdate_sig X _) as [signed|]; [|done].
  set (d1 := if is_chan_public c then d else _).
  assert (H1 : broadcast_index <$> peers d1 = broadcast_index <$> peers d).
  { subst d1. destruct (is_chan_public c); [done|].
    destruct (find_peer d _) as [j|]; [|done].
    unfold with_peer. cbn [peers set_peers]. by apply alter_keeps_index. }
  destruct (handle_channel_update X (rstate d1) signed) as [r [err|]]; [done|].
  intros [= <-]. done.
Qed.

Lemma maybe_update_local_channel_indices X d now c direction d' :
  maybe_update_local_channel X d now c direction = Some d' ->
  broadcast_index <$> peers d' = broadcast_index <$> peers d.
Proof.
  unfold maybe_update_local_channel.
  destruct (negb _); [by intros [= <-]|].
  destruct (Bool.eqb _ _); [by intros [= <-]|].
  apply update_local_channel_indices.
Qed.

Lemma handle_get_update_indices X d now i parsed d' :
  handle_get_update X d now i parsed = Some d' ->
  broadcast_index <$> peers d' = broadcast_index <$> peers d.
Proof.
  unfold handle_get_update.
  assert (Hr : forall d0 u,
    broadcast_index
      <$> peers (with_peer d0 i
                   (fun p => set_dc (dc p ++ [gossip_get_update_reply u]) p))
    = broadcast_index <$> peers d0).
  { intros d0 u. unfold with_peer. cbn [peers set_peers].
    by apply alter_keeps_index. }
  destruct parsed as [s|]; [|by intros [= <-]].
  destruct (get_channel (rstate d) s) as [c|]; [|intros [= <-]; apply Hr].
  destruct (local_direction d c) as [direction|]; [|intros [= <-]; apply Hr].
  destruct (maybe_update_local_channel X d now c direction) as [d1|] eqn:E;
    [|done].
  intros [= <-]. rewrite Hr.
  by apply maybe_update_local_channel_indices in E.
Qed.

Lemma handle_local_channel_update_indices X d now parsed d' :
  handle_local_channel_update X d now parsed = Some d' ->
  broadcast_index <$> peers d' = broadcast_index <$> peers d.
Proof.
  unfold handle_local_channel_update.
  destruct parsed as [[[s disable] [[[[a b] e] f] g]]|]; [|by intros [= <-]].
  destruct (get_channel (rstate d) s) as [c|]; [|by intros [= <-]].
  destruct (local_direction d c) as [direction|]; [|by intros [= <-]].
  destruct (_ || _ || _).
  - destruct (update_local_channel X d now c direction disable a b e f g)
      as [d1|] eqn:E; [|done].
    intros [= <-]. by apply update_local_channel_indices in E.
  - by intros [= <-].
Qed.

(** The peer seated in a daemon is found at its position. *)
Lemma peer_in_daemon_lookup env i rstate p :
  peers (peer_in_daemon env i rstate p) !! Nat.min i (length (peers env))
  = Some p.
Proof.
  unfold peer_in_daemon. cbn [peers set_peers set_rstate].
  rewrite lookup_app_r by (rewrite length_take; lia).
  rewrite length_take, Nat.sub_diag. done.
Qed.

Lemma seated_peer_index env i rstate p d' p' :
  broadcast_index <$> peers d'
  = broadcast_index <$> peers (peer_in_daemon env i rstate p) ->
  peers d' !! Nat.min i (length (peers env)) = Some p' ->
  broadcast_index p' = broadcast_index p.
Proof.
  intros Hi Hl.
  pose proof (peer_in_daemon_lookup env i rstate p) as Hp.
  apply (f_equal (fmap broadcast_index)) in Hl, Hp.
  rewrite <- !list_lookup_fmap in Hl, Hp. rewrite Hi, Hp in Hl.
  by injection Hl.
Qed.
(** The handlers that work on the daemon leave the peer where it is:
    such a message ends the session only when its handler ends the
    daemon. *)
Lemma seated_peer_stays env i rstate p d' :
  broadcast_index <$> peers d'
  = broadcast_index <$> peers (peer_in_daemon env i rstate p) ->
  is_Some (peers d' !! Nat.min i (length (peers env))).
Proof.
  intros Hi. apply lookup_lt_is_Some.
  apply (f_equal length) in Hi. rewrite !length_fmap in Hi. rewrite Hi.
  apply lookup_lt_is_Some. rewrite peer_in_daemon_lookup. eauto.
Qed.

Lemma owner_msg_in_get_update_ends X dev rstate p env i now parsed :
  owner_msg_in X dev rstate p (WIRE_GOSSIP_GET_UPDATE env i now parsed) = None
  <-> handle_get_update X (peer_in_daemon env i rstate p) now
        (Nat.min i (length (peers env))) parsed = None.
Proof.
  cbn. destruct (handle_get_update X _ now _ parsed) as [d'|] eqn:E; [|done].
  cbn. apply handle_get_update_indices in E.
  destruct (seated_peer_stays env i rstate p d' E) as [p' ->]. done.
Qed.

Lemma owner_msg_in_local_channel_update_ends X dev rstate p env i now parsed :
  owner_msg_in X dev rstate p
    (WIRE_GOSSIP_LOCAL_CHANNEL_UPDATE env i now parsed) = None
  <-> handle_local_channel_update X (peer_in_daemon env i rstate p) now parsed
      = None.
Proof.
  cbn. destruct (handle_local_channel_update X _ now parsed) as [d'|] eqn:E;
    [|done].
  cbn. apply handle_local_channel_update_indices in E.
  destruct (seated_peer_stays env i rstate p d' E) as [p' ->]. done.
Qed.

Lemma owner_msg_in_index X dev rstate p msg p' :
  accepted_filter rstate (ev_recv msg) = false ->
  owner_msg_in X dev rstate p msg = Some p' ->
  broadcast_index p' = broadcast_index p.
Proof.
  intros Hacc.
  destruct msg as [handled|handled|handled|parsed|parsed|parsed
                  |env i now parsed| |env i now parsed|parsed|rq parsed
                  |checked|len got|type]; cbn.
  1-3: destruct handled as [[err|]|]; [by intros [= <-]..|done].
  - intros [= <-]. unfold handle_query_short_channel_ids.
    destruct parsed as [[chain encoded]|]; [|done].
    destruct (negb _); [done|]. destruct (_ || _); [done|].
    destruct (decode_short_ids X encoded); done.
  - intros [= <-]. unfold handle_reply_short_channel_ids_end.
    destruct parsed as [[chain complete]|]; [|done].
    destruct (negb _); [done|]. destruct (_ =? 0); done.
  - intros [= <-]. unfold handle_gossip_timestamp_filter.
    destruct parsed as [[[chain first] range]|]; [|done].
    cbn in Hacc. rewrite Hacc. done.
  - destruct (handle_get_update X _ now _ parsed) as [d'|] eqn:E; [|done].
    cbn. apply handle_get_update_indices in E.
    intros Hl. exact (seated_peer_index env i rstate p d' p' E Hl).
  - by intros [= <-].
  - destruct (handle_local_channel_update X _ now parsed) as [d'|] eqn:E;
      [|done].
    cbn. apply handle_local_channel_update_indices in E.
    intros Hl. exact (seated_peer_index env i rstate p d' p' E Hl).
  - unfold handle_query_channel_range.
    destruct parsed as [[[chain first] range]|]; [|by intros [= <-]].
    destruct (negb _); [by intros [= <-]|].
    destruct (_ <? first); [by intros [= <-]|].
    apply queue_channel_ranges_index.
  - intros [= <-]. unfold handle_reply_channel_range.
    destruct parsed as [[[[[chain first] num] complete] encoded]|]; [|done].
    destruct (negb _); [done|].
    destruct (query_channel_blocks rq) as [blocks|]; [|done].
    destruct (_ <? first); [done|].
    destruct (decode_short_ids X encoded) as [scids|]; [|done].
    destruct (_ || _); [done|].
    destruct (memchr (drop _ blocks) 1 num); [done|].
    destruct (memchr _ 0 _); done.
  - intros [= <-]. by destruct checked as [[pong|]|].
  - intros [= <-]. unfold handle_pong.
    destruct (got (num_pings_outstanding p)) as [[text|] n]; done.
  - done.
Qed.

Lemma peer_step_index X dev rstate p ev p' :
  accepted_filter rstate ev = false ->
  peer_step X dev rstate p ev = Some p' ->
  broadcast_index p <= broadcast_index p'.
Proof.
  intros Hacc. destruct ev as [msg| |]; cbn.
  - intros H. apply owner_msg_in_index in H; [lia | done].
  - intros [= <-]. apply dump_gossip_index.
  - intros [= <-]. done.
Qed.

(** C3, as the code has it.  Over any run of a peer session (inbound
    messages of every type [owner_msg_in] tells apart, wake-ups of the
    write loop, expiries of the pacing timer) in which no event is an
    accepted [gossip_timestamp_filter], [broadcast_index] never decreases:
    every other inbound message leaves it alone, and the write loop only
    moves it forward through the broadcast log. *)
Theorem broadcast_index_monotone X dev trace p p' :
  Forall (fun re => accepted_filter (fst re) (snd re) = false) trace ->
  peer_run X dev p trace = Some p' ->
  broadcast_index p <= broadcast_index p'.
Proof.
  revert p. induction trace as [|[r ev] trace IH]; intros p Hall; cbn.
  - intros [= <-]. lia.
  - apply Forall_cons in Hall as [Hacc Hall]. cbn in Hacc.
    destruct (peer_step X dev r p ev) as [p1|] eqn:E; [|done].
    intros Hrun. apply (peer_step_index _ _ _ _ _ _ Hacc) in E.
    specialize (IH p1 Hall Hrun). lia.
Qed.

Lemma broadcast_index_monotone_witness :
  broadcast_index sample_peer
  <= broadcast_index
       (default sample_peer (peer_run sample_X dev_default sample_peer sample_trace)).
Proof.
  destruct (peer_run sample_X dev_default sample_peer sample_trace) as [p'|] eqn:E.
  - cbn [default].
    apply (broadcast_index_monotone sample_X dev_default sample_trace sample_peer p').
    + repeat constructor.
    + exact E.
  - vm_compute in E. discriminate E.
Defined.

(** C3, as stated, fails: a peer whose cursor has advanced to 3 is sent back
    to 0 by an accepted [gossip_timestamp_filter]. *)
Lemma timestamp_filter_lowers_broadcast_index :
  let p := set_broadcast_index 3 sample_peer in
  exists p',
    peer_step sample_X dev_default sample_rstate p
      (ev_recv (WIRE_GOSSIP_TIMESTAMP_FILTER (Some (sample_chain, 0, 100))))
    = Some p'
    /\ broadcast_index p' < broadcast_index p.
Proof.
  eexists. split; [reflexivity|]. vm_compute. reflexivity.
Qed.

(** A message of a type [owner_msg_in] does not know closes the
    connection: the session has no next state. *)
Example unknown_message_ends_session :
  peer_run sample_X dev_default sample_peer
    [(sample_rstate, ev_recv (WIRE_UNKNOWN 4242)); (sample_rstate, ev_wake)]
  = None.
Proof. reflexivity. Qed.

(** ** Concurrent SCID queries *)

Lemma in_flight_test p :
  scid_query_in_flight p ->
  bool_decide (scid_queries p <> None)
  || bool_decide (scid_query_nodes p <> None) = true.
Proof.
  intros [H|H]; apply orb_true_iff; [left|right]; by apply bool_decide_eq_true.
Qed.

(** C7, as the code has it.  A [query_short_channel_ids] that arrives while
    an earlier one is still being answered never touches the query state.
    It is answered with an [error] when it names our chain, and also when
    it does not parse; when it names another chain it is dropped and
    nothing is sent. *)
Theorem concurrent_query_rejected X rstate p parsed :
  scid_query_in_flight p ->
  let p' := handle_query_short_channel_ids X rstate p parsed in
  same_scid_query_state p p' /\
  match parsed with
  | None => dc p' = dc p ++ [wire_error "Bad query_short_channel_ids"]
  | Some (chain, _) =>
      if bitcoin_blkid_eq (chain_hash rstate) chain
      then dc p' = dc p ++ [wire_error "Bad concurrent query_short_channel_ids"]
      else p' = p
  end.
Proof.
  intros Hfl. unfold handle_query_short_channel_ids, same_scid_query_state.
  destruct parsed as [[chain encoded]|]; [|by cbn].
  destruct (bitcoin_blkid_eq (chain_hash rstate) chain); cbn [negb]; [|done].
  rewrite (in_flight_test p Hfl). by cbn.
Qed.

Lemma concurrent_query_rejected_witness :
  let p' := handle_query_short_channel_ids sample_X sample_rstate busy_peer
              (Some (sample_chain, 0 :: towire_u64 scid_b0)) in
  same_scid_query_state busy_peer p' /\
  dc p' = dc busy_peer ++ [wire_error "Bad concurrent query_short_channel_ids"].
Proof.
  apply (concurrent_query_rejected sample_X sample_rstate busy_peer
           (Some (sample_chain, 0 :: towire_u64 scid_b0))).
  left. vm_compute. discriminate.
Defined.

(** C7, as stated, fails: with a query in flight, a second query naming
    another chain draws no [error] at all. *)
Lemma concurrent_query_foreign_chain_silent :
  scid_query_in_flight busy_peer /\
  let p' := handle_query_short_channel_ids sample_X sample_rstate busy_peer
              (Some (other_chain, 0 :: towire_u64 scid_b0)) in
  dc p' = dc busy_peer /\
  ~ exists text, wire_error text ∈ dc p'.
Proof.
  split; [left; vm_compute; discriminate|].
  split; [reflexivity|].
  intros [text H]. vm_compute in H. inversion H.
Qed.

(** ** Control pings *)

Lemma find_peer_lookup d id i :
  find_peer d id = Some i -> exists p, peers d !! i = Some p.
Proof.
  unfold find_peer. intros H. apply fmap_Some in H as [[j p] [H ->]].
  apply list_find_Some in H as (H & _). eauto.
Qed.

(** C9, as the code has it.  A control ping to a connected peer whose
    [ping] message fits the 65535 bytes of a wire message: when it asks for
    at least 65532 pong bytes it is answered on the control connection at
    once and leaves [num_pings_outstanding] alone; when it asks for fewer it
    adds exactly one to [num_pings_outstanding] and sends nothing to
    control.  (A ping that does not fit ends the daemon before either.) *)
Theorem ping_req_reply_or_count X d id num_pong_bytes len i p :
  find_peer d id = Some i ->
  peers d !! i = Some p ->
  Z.of_nat (length (make_ping X num_pong_bytes len)) <= 65535 ->
  0 <= num_pings_outstanding p < UINT64_MAX ->
  exists d' p',
    ping_req X d (Some (id, num_pong_bytes, len)) = Some d' /\
    peers d' !! i = Some p' /\
    dc p' = dc p ++ [wire_ping (make_ping X num_pong_bytes len)] /\
    if 65532 <=? num_pong_bytes then
      master d' = master d ++ [gossip_ping_reply id true 0] /\
      num_pings_outstanding p' = num_pings_outstanding p
    else
      master d' = master d /\
      num_pings_outstanding p' = num_pings_outstanding p + 1.
Proof.
  intros Hfind Hp Hlen Hcnt. unfold ping_req. rewrite Hfind.
  destruct (65535 <? _) eqn:E; [apply Z.ltb_lt in E; exfalso; lia|].
  destruct (65532 <=? num_pong_bytes).
  - eexists _, _. split; [reflexivity|].
    cbn. rewrite list_lookup_alter_eq, Hp. cbn. done.
  - eexists _, _. split; [reflexivity|].
    cbn. rewrite !list_lookup_alter_eq, Hp. cbn.
    split; [reflexivity|]. split; [done|]. split; [done|].
    peer_simpl. unfold to_u64, UINT64_MAX in *. rewrite Z.mod_small; [lia|].
    change (2 ^ 64) with 18446744073709551616. lia.
Qed.

Lemma ping_req_reply_or_count_witness :
  exists d' p',
    ping_req sample_X sample_daemon (Some (key_n, 65532, 4)) = Some d' /\
    peers d' !! 1%nat = Some p' /\
    dc p' = dc sample_peer ++ [wire_ping (make_ping sample_X 65532 4)] /\
    if 65532 <=? 65532 then
      master d' = master sample_daemon ++ [gossip_ping_reply key_n true 0] /\
      num_pings_outstanding p' = num_pings_outstanding sample_peer
    else
      master d' = master sample_daemon /\
      num_pings_outstanding p' = num_pings_outstanding sample_peer + 1.
Proof.
  apply (ping_req_reply_or_count sample_X sample_daemon key_n 65532 4 1%nat
           sample_peer).
  - reflexivity.
  - reflexivity.
  - vm_compute. discriminate.
  - vm_compute. split; [discriminate | reflexivity].
Defined.

(** "Oversize ping": whatever the number of pong bytes asked for, a ping
    longer than 65535 bytes ends the daemon in [status_failed]. *)
(** "Oversize ping": a [ping] of more than 65535 bytes for a connected
    peer ends the daemon, whatever it asks for. *)
Lemma ping_req_oversize X d id num_pong_bytes len i :
  find_peer d id = Some i ->
  65535 < Z.of_nat (length (make_ping X num_pong_bytes len)) ->
  ping_req X d (Some (id, num_pong_bytes, len)) = None.
Proof.
  intros Hfind Hlen. unfold ping_req. rewrite Hfind.
  apply Z.ltb_lt in Hlen. by rewrite Hlen.
Qed.

(** C9, as stated, fails for a ping that does not fit.  The peer [key_n] is
    connected; a request with 65530 bytes of padding makes a [ping] of
    65536 bytes, and the daemon stops at "Oversize ping": for
    [num_pong_bytes = 0] the counter is not raised, for
    [num_pong_bytes = 65532] control gets no reply. *)
Lemma ping_req_oversize_no_reply_no_count :
  find_peer sample_daemon key_n = Some 1%nat /\
  Z.of_nat (length (make_ping sample_X 0 65530)) = 65536 /\
  ping_req sample_X sample_daemon (Some (key_n, 0, 65530)) = None /\
  ping_req sample_X sample_daemon (Some (key_n, 65532, 65530)) = None.
Proof. repeat split; vm_compute; reflexivity. Qed.

(** The counter is a [size_t]: at its maximum, one more ping brings it
    back to 0. *)
Example ping_req_count_wraps :
  let d := with_peer sample_daemon 1 (set_num_pings_outstanding UINT64_MAX) in
  num_pings_outstanding
  <$> (ping_req sample_X d (Some (key_n, 0, 0)) ≫= fun d' => peers d' !! 1%nat)
  = Some 0.
Proof. vm_compute. reflexivity. Qed.

(** ** The timestamp of a regenerated [channel_update] *)

Lemma local_channel_update_timestamp rstate now c direction disable a b e f g :
  cu_timestamp (local_channel_update rstate now c direction disable a b e f g) =
    if is_halfchan_defined (half_at c direction)
       && (to_u32 now =? last_timestamp (half_at c direction))
    then to_u32 (to_u32 now + 1) else to_u32 now.
Proof. unfold local_channel_update. by destruct (_ && _). Qed.

(** When the clock has not fallen behind the previous update, the new
    timestamp is past it: this is all the keep-alive sweep needs. *)
Lemma local_channel_update_advances rstate now c direction disable a b e f g :
  is_halfchan_defined (half_at c direction) = true ->
  0 <= now < UINT32_MAX ->
  last_timestamp (half_at c direction) <= now ->
  last_timestamp (half_at c direction)
  < cu_timestamp (local_channel_update rstate now c direction disable a b e f g).
Proof.
  intros Hdef Hnow Hlast. rewrite local_channel_update_timestamp, Hdef.
  unfold to_u32, UINT32_MAX in *.
  assert (H32 : 2 ^ 32 = 4294967296) by reflexivity.
  rewrite (Z.mod_small now) by lia. cbn [andb].
  destruct (now =? _) eqn:E.
  - apply Z.eqb_eq in E. rewrite Z.mod_small by lia. lia.
  - apply Z.eqb_neq in E. lia.
Qed.

(** C6 fails on the code.  A half-channel of ours whose previous update
    carries timestamp 100 is regenerated while the clock reads 99: the new
    update is stamped 99, which does not exceed 100.  Only a clock equal to
    the previous timestamp is bumped. *)
Theorem local_update_timestamp_can_go_back :
  let c := sample_chan scid_b1 key_us key_n in
  local_direction sample_daemon c = Some 0 /\
  is_halfchan_defined (half_at c 0) = true /\
  last_timestamp (half_at c 0) = 100 /\
  cu_timestamp
    (local_channel_update sample_rstate 99 c 0 false 6 0 1000 10 100000) = 99.
Proof. repeat split. Qed.

(** ** The envelope chosen by the encoder *)

Lemma foldl_encode_add (l : list Z) (e : list Z) :
  foldl encode_add_short_channel_id e l = e ++ flat_map towire_u64 l.
Proof.
  revert e. induction l as [|s l IH]; intros e; cbn [foldl flat_map].
  - by rewrite app_nil_r.
  - rewrite IH. unfold encode_add_short_channel_id, towire_short_channel_id.
    by rewrite <- app_assoc.
Qed.

(** C5, as the code has it.  The finalised encoding carries the ZLIB tag
    exactly when the deflate stream is no longer than the raw eight bytes
    per id, and its body is then that stream; otherwise the tag is
    UNCOMPRESSED and the body is the raw encoding.  The boolean returned is
    the length check alone. *)
Theorem encode_zlib_iff_not_longer X dev (l : list Z) max_bytes :
  let raw := flat_map towire_u64 l in
  let z := deflate_best X raw in
  exists encoded,
    encode_scids X dev l max_bytes
    = Some (check_length dev encoded max_bytes, encoded) /\
    (head encoded = Some SHORTIDS_ZLIB <-> (length z <= length raw)%nat) /\
    encoded = (if bool_decide (length z <= length raw)%nat
               then SHORTIDS_ZLIB :: z else SHORTIDS_UNCOMPRESSED :: raw).
Proof.
  intros raw z. unfold encode_scids. rewrite foldl_encode_add.
  unfold encode_short_channel_ids_start. cbn [app].
  unfold encode_short_channel_ids_end.
  replace (SHORTIDS_ZLIB =? SHORTIDS_ZLIB) with true by reflexivity.
  unfold zencode_scids, compress2. fold raw. fold z.
  destruct (Z.of_nat (length z) <=? Z.of_nat (length raw)) eqn:E.
  - apply Z.leb_le in E. assert (length z <= length raw)%nat by lia.
    eexists. split; [reflexivity|]. rewrite bool_decide_eq_true_2 by done.
    split; [|done]. cbn. done.
  - apply Z.leb_gt in E. assert (~ (length z <= length raw)%nat) by lia.
    eexists. split; [reflexivity|]. rewrite bool_decide_eq_false_2 by done.
    split; [|done]. cbn. split; [discriminate | done].
Qed.

(** C5, as stated, fails: for these two ids the stream is as long as the
    raw body, not strictly smaller, and the tag stays ZLIB. *)
Lemma encode_keeps_zlib_at_equal_length :
  let raw := flat_map towire_u64 tight_scids in
  exists encoded,
    encode_scids sample_X dev_default tight_scids max_encoded_bytes
    = Some (true, encoded) /\
    head encoded = Some SHORTIDS_ZLIB /\
    length (deflate_best sample_X raw) = length raw /\
    ~ (length (deflate_best sample_X raw) < length raw)%nat.
Proof.
  eexists. split; [vm_compute; reflexivity|].
  split; [reflexivity|]. split; [vm_compute; reflexivity|].
  vm_compute. lia.
Qed.

(** ** Channels shared with a destroyed peer *)



Lemma peer_disable_channels_fold d n :
  peer_disable_channels d n = foldl (disable_step n) d (chans n).
Proof. reflexivity. Qed.




(** ** The order on node ids *)

Lemma memcmp_refl a : memcmp a a = Eq.
Proof. induction a as [|x a IH]; cbn; [done|]. by rewrite Z.compare_refl. Qed.

Lemma memcmp_eq a b : memcmp a b = Eq -> a = b.
Proof.
  revert b. induction a as [|x a IH]; intros [|y b]; cbn; try done.
  destruct (Z.compare_spec x y) as [Hxy|Hxy|Hxy]; try done.
  intros Hm. subst. f_equal. by apply IH.
Qed.

Lemma memcmp_antisym a b : memcmp b a = CompOpp (memcmp a b).
Proof.
  revert b. induction a as [|x a IH]; intros [|y b]; cbn; try done.
  rewrite (Z.compare_antisym x y). destruct (x ?= y); cbn; auto.
Qed.

Lemma memcmp_lt_trans a b c :
  memcmp a b = Lt -> memcmp b c = Lt -> memcmp a c = Lt.
Proof.
  revert b c. induction a as [|x a IH]; intros [|y b] [|z c]; cbn; try done.
  destruct (Z.compare_spec x y), (Z.compare_spec y z); subst; try done.
  - rewrite Z.compare_refl. apply IH.
  - intros _ _. by rewrite (proj2 (Z.compare_lt_iff _ _)).
  - intros _ _. by rewrite (proj2 (Z.compare_lt_iff _ _)).
  - intros _ _. rewrite (proj2 (Z.compare_lt_iff x z)); [done | lia].
Qed.

#[global] Instance pubkey_le_trans : Transitive pubkey_le.
Proof.
  intros a b c. unfold pubkey_le, pubkey_order, pubkey_cmp. intros Hab Hbc.
  destruct (memcmp a b) eqn:E1; [| |done].
  - apply memcmp_eq in E1. by subst.
  - destruct (memcmp b c) eqn:E2; [| |done].
    + apply memcmp_eq in E2. subst. by rewrite E1.
    + by rewrite (memcmp_lt_trans a b c).
Qed.

#[global] Instance pubkey_le_total : Total pubkey_le.
Proof.
  intros a b. unfold pubkey_le, pubkey_order, pubkey_cmp.
  rewrite (memcmp_antisym a b). destruct (memcmp a b); cbn; auto.
Qed.

#[global] Instance pubkey_lt_trans : Transitive pubkey_lt.
Proof. intros a b c. apply memcmp_lt_trans. Qed.

Lemma pubkey_le_neq_lt a b : pubkey_le a b -> a <> b -> pubkey_lt a b.
Proof.
  unfold pubkey_le, pubkey_lt, pubkey_order, pubkey_cmp. intros Hle Hne.
  destruct (memcmp a b) eqn:E; [|done|done]. by apply memcmp_eq in E.
Qed.

(** ** [uniquify_node_ids] *)

Lemma uniquify_loop_compact n (ids : list (list Z)) dst src :
  (dst <= src)%nat -> (src + n = length ids)%nat ->
  take (uniquify_loop n ids dst src).2 (uniquify_loop n ids dst src).1
  = compact (take dst ids) (drop src ids).
Proof.
  revert ids dst src. induction n as [|n IH]; intros ids dst src Hds Hlen.
  - cbn. rewrite drop_ge by lia. done.
  - cbn [uniquify_loop].
    destruct (ids !! src) as [x|] eqn:Ex;
      [|apply lookup_ge_None in Ex; lia].
    rewrite (drop_S _ _ _ Ex). cbn [compact].
    assert (Hlast : last (take dst ids) =
                    if (dst =? 0)%nat then None else ids !! (dst - 1)%nat).
    { rewrite last_lookup, length_take.
      destruct dst as [|dst]; [done|]. cbn [Nat.eqb].
      rewrite Nat.min_l by lia. cbn [pred].
      rewrite lookup_take_lt by lia. f_equal. lia. }
    rewrite Hlast.
    destruct (dst =? 0)%nat eqn:E0; cbn [negb andb].
    + apply Nat.eqb_eq in E0. subst dst.
      rewrite IH by (rewrite ?length_insert; lia).
      rewrite drop_insert_lt by lia.
      rewrite (take_S_r _ _ x); [done|].
      apply list_lookup_insert_eq. apply lookup_lt_Some in Ex. lia.
    + destruct (ids !! (dst - 1)%nat) as [y|] eqn:Ey.
      * destruct (pubkey_eq y x).
        -- apply IH; lia.
        -- rewrite IH by (rewrite ?length_insert; lia).
           rewrite drop_insert_lt by lia.
           rewrite (take_S_r _ _ x);
             [|apply list_lookup_insert_eq; apply lookup_lt_Some in Ex; lia].
           by rewrite take_insert_ge by lia.
      * rewrite IH by (rewrite ?length_insert; lia).
        rewrite drop_insert_lt by lia.
        rewrite (take_S_r _ _ x);
          [|apply list_lookup_insert_eq; apply lookup_lt_Some in Ex; lia].
        by rewrite take_insert_ge by lia.
Qed.

Lemma StronglySorted_lt_last (out : list (list Z)) y :
  StronglySorted pubkey_lt out -> last out = Some y ->
  forall o, o ∈ out -> o = y \/ pubkey_lt o y.
Proof.
  intros Hs Hl o Ho. apply last_Some in Hl as [l' ->].
  apply elem_of_app in Ho as [Ho|Ho].
  - right. apply (StronglySorted_app_1_elem_of _ _ _ _ _ Hs Ho). set_solver.
  - left. set_solver.
Qed.

Lemma compact_spec (rest out : list (list Z)) :
  StronglySorted pubkey_lt out ->
  StronglySorted pubkey_le rest ->
  (forall y x, last out = Some y -> x ∈ rest -> pubkey_le y x) ->
  StronglySorted pubkey_lt (compact out rest) /\
  forall z, z ∈ compact out rest <-> z ∈ out \/ z ∈ rest.
Proof.
  revert out. induction rest as [|x rest IH]; intros out Hout Hrest Hle; cbn [compact].
  - split; [done|]. set_solver.
  - apply StronglySorted_cons in Hrest as [Hx Hrest].
    destruct (last out) as [y|] eqn:El.
    + destruct (pubkey_eq y x) eqn:Eyx.
      * apply bool_decide_eq_true in Eyx. subst y.
        destruct (IH out Hout Hrest) as [Hs Hm].
        { intros y x' Hy Hx'. apply Hle; [congruence | set_solver]. }
        split; [done|]. intros z. rewrite Hm.
        apply last_Some_elem_of in El. set_solver.
      * apply bool_decide_eq_false in Eyx.
        assert (Hyx : pubkey_lt y x).
        { apply pubkey_le_neq_lt; [apply Hle; [done | set_solver] | done]. }
        destruct (IH (out ++ [x])) as [Hs Hm]; [| done | |].
        -- apply StronglySorted_app_2; [| done | repeat constructor].
           intros o x' Ho Hx'. apply list_elem_of_singleton in Hx'. subst x'.
           destruct (StronglySorted_lt_last out y Hout El o Ho) as [->|Hoy];
             [done | by etrans].
        -- intros y' x' Hy' Hx'. rewrite last_snoc in Hy'.
           injection Hy' as <-. rewrite Forall_forall in Hx. by apply Hx.
        -- split; [done|]. intros z. rewrite Hm. set_solver.
    + destruct (IH (out ++ [x])) as [Hs Hm]; [| done | |].
      * apply last_None in El. subst out. repeat constructor.
      * intros y' x' Hy' Hx'. rewrite last_snoc in Hy'.
        injection Hy' as <-. rewrite Forall_forall in Hx. by apply Hx.
      * split; [done|]. intros z. rewrite Hm. set_solver.
Qed.

Lemma uniquify_node_ids_compact (ids : list (list Z)) :
  uniquify_node_ids ids = compact [] (asort ids).
Proof.
  unfold uniquify_node_ids.
  pose proof (uniquify_loop_compact (length (asort ids)) (asort ids) 0 0) as H.
  destruct (uniquify_loop _ _ _ _) as [ids' dst]. cbn [fst snd] in H.
  rewrite H by lia. done.
Qed.

(** The node ids come out strictly increasing, hence without repetition,
    and they are exactly the ids that went in. *)
Lemma uniquify_node_ids_spec (ids : list (list Z)) :
  StronglySorted pubkey_lt (uniquify_node_ids ids) /\
  forall k, k ∈ uniquify_node_ids ids <-> k ∈ ids.
Proof.
  rewrite uniquify_node_ids_compact.
  destruct (compact_spec (asort ids) []) as [Hs Hm].
  - constructor.
  - apply StronglySorted_merge_sort; apply _.
  - intros y x Hy. discriminate Hy.
  - split; [done|]. intros k. rewrite Hm. unfold asort.
    rewrite merge_sort_Permutation. set_solver.
Qed.

(** ** One call of [create_next_scid_reply] *)

Section scid_reply.
Variable r : routing_state.

Let C := flat_map (expected_channel_reply r).
Let E := flat_map (expected_endpoints r).
Let N := flat_map (expected_node_reply r).
Let fin := wire_reply_short_channel_ids_end (chain_hash r) true.

Lemma scid_reply_channels_spec (rest : list Z) i p :
  exists k,
    let res := scid_reply_channels r rest i p in
    (k <= length rest)%nat /\ res.1.1 = (i + k)%nat /\
    scid_queries res.2 = scid_queries p /\
    scid_query_idx res.2 = scid_query_idx p /\
    scid_query_nodes_idx res.2 = scid_query_nodes_idx p /\
    dc res.2 = dc p ++ C (take k rest) /\
    if res.1.2 then
      (1 <= k)%nat /\
      scid_query_nodes res.2
      = Some (tal_arr (scid_query_nodes p) ++ E (take k rest)) /\
      E (take k rest) <> []
    else k = length rest /\ res.2 = p /\ C rest = [] /\ E rest = [].
Proof.
  revert i p. induction rest as [|s rest IH]; intros i p.
  - exists 0%nat. cbn. rewrite app_nil_r. repeat split; lia.
  - cbn [scid_reply_channels].
    assert (Hskip :
      expected_channel_reply r s = [] -> expected_endpoints r s = [] ->
      exists k,
        let res := scid_reply_channels r rest (S i) p in
        (k <= length (s :: rest))%nat /\ res.1.1 = (i + k)%nat /\
        scid_queries res.2 = scid_queries p /\
        scid_query_idx res.2 = scid_query_idx p /\
        scid_query_nodes_idx res.2 = scid_query_nodes_idx p /\
        dc res.2 = dc p ++ C (take k (s :: rest)) /\
        if res.1.2 then
          (1 <= k)%nat /\
          scid_query_nodes res.2
          = Some (tal_arr (scid_query_nodes p) ++ E (take k (s :: rest))) /\
          E (take k (s :: rest)) <> []
        else k = length (s :: rest) /\ res.2 = p
             /\ C (s :: rest) = [] /\ E (s :: rest) = []).
    { intros Hc He. destruct (IH (S i) p) as (k & Hk & Hi & H1 & H2 & H3 & H4 & H5).
      exists (S k). cbn zeta in *. subst C E. cbn [take flat_map length].
      rewrite Hc, He. cbn [app].
      repeat split; try done; try lia.
      destruct (scid_reply_channels r rest (S i) p).1.2.
      - destruct H5 as (? & ? & ?). repeat split; try done; lia.
      - destruct H5 as (? & ? & ? & ?). repeat split; try done; lia. }
    unfold expected_channel_reply, expected_endpoints in Hskip.
    destruct (get_channel r s) as [c|] eqn:Ec; [|by apply Hskip].
    destruct (is_chan_announced c) eqn:Ea; cbn [negb]; [|by apply Hskip].
    clear Hskip. exists 1%nat. cbn zeta. cbn [fst snd take length].
    subst C E. cbn [flat_map]. unfold expected_channel_reply, expected_endpoints.
    rewrite Ec, Ea. rewrite !app_nil_r.
    split; [lia|]. split; [lia|].
    destruct (channel_update (half c).1) as [u0|],
             (channel_update (half c).2) as [u1|];
      peer_simpl; cbn [tal_arr default from_option id];
      rewrite <- ?app_assoc; cbn [app]; repeat split; try done; try lia.
Qed.

Lemma scid_reply_nodes_spec (rest : list (list Z)) j p :
  exists k,
    let res := scid_reply_nodes r rest j p in
    (k <= length rest)%nat /\ res.1.1 = (j + k)%nat /\
    scid_queries res.2 = scid_queries p /\
    scid_query_idx res.2 = scid_query_idx p /\
    scid_query_nodes res.2 = scid_query_nodes p /\
    scid_query_nodes_idx res.2 = scid_query_nodes_idx p /\
    dc res.2 = dc p ++ N (take k rest) /\
    if res.1.2 then (1 <= k)%nat else k = length rest.
Proof.
  revert j p. induction rest as [|x rest IH]; intros j p.
  - exists 0%nat. cbn. rewrite app_nil_r. repeat split; lia.
  - cbn [scid_reply_nodes].
    assert (Hskip :
      expected_node_reply r x = [] ->
      exists k,
        let res := scid_reply_nodes r rest (S j) p in
        (k <= length (x :: rest))%nat /\ res.1.1 = (j + k)%nat /\
        scid_queries res.2 = scid_queries p /\
        scid_query_idx res.2 = scid_query_idx p /\
        scid_query_nodes res.2 = scid_query_nodes p /\
        scid_query_nodes_idx res.2 = scid_query_nodes_idx p /\
        dc res.2 = dc p ++ N (take k (x :: rest)) /\
        if res.1.2 then (1 <= k)%nat else k = length (x :: rest)).
    { intros Hn. destruct (IH (S j) p) as (k & Hk & Hj & H1 & H2 & H3 & H4 & H5 & H6).
      exists (S k). cbn zeta in *. subst N. cbn [take flat_map length].
      rewrite Hn. cbn [app]. repeat split; try done; try lia.
      destruct (scid_reply_nodes r rest (S j) p).1.2; lia. }
    unfold expected_node_reply in Hskip.
    destruct (get_node r x) as [n|] eqn:En; [|by apply Hskip].
    destruct (node_announcement_index n =? 0) eqn:Ei; [by apply Hskip|].
    clear Hskip. exists 1%nat. cbn zeta. cbn [fst snd take length].
    subst N. cbn [flat_map]. unfold expected_node_reply. rewrite En, Ei.
    rewrite app_nil_r. peer_simpl. repeat split; try done; lia.
Qed.

End scid_reply.

Lemma create_next_scid_reply_tail r p :
  create_next_scid_reply r p =
  let res :=
    scid_reply_channels r
      (drop (scid_query_idx p) (tal_arr (scid_queries p)))
      (scid_query_idx p) p in
  scid_reply_tail r res.1.2
    (set_scid_query_idx res.1.1
       (if negb (scid_query_idx p =? length (tal_arr (scid_queries p)))%nat
           && (res.1.1 =? length (tal_arr (scid_queries p)))%nat
        then set_scid_query_nodes (uniquify_node_ids <$> scid_query_nodes res.2) res.2
        else res.2)).
Proof.
  unfold create_next_scid_reply, scid_reply_tail.
  by destruct (scid_reply_channels _ _ _ _) as [[i sent] p1].
Qed.

Lemma scid_reply_tail_sent r p3 L :
  scid_query_nodes p3 = Some L -> L <> [] ->
  scid_query_nodes_idx p3 = 0%nat ->
  exists p5,
    scid_reply_tail r true p3 = (true, p5) /\
    scid_queries p5 = scid_queries p3 /\
    scid_query_idx p5 = scid_query_idx p3 /\
    scid_query_nodes p5 = Some L /\
    scid_query_nodes_idx p5 = 0%nat /\ dc p5 = dc p3.
Proof.
  intros Hn HL Hj. unfold scid_reply_tail. rewrite Hn, Hj.
  cbn [tal_arr default from_option id].
  destruct L as [|x L]; [done|]. cbn [length Nat.eqb].
  rewrite andb_false_r. eexists. split; [reflexivity|]. by peer_simpl.
Qed.

Section scid_reply_steps.
Variable r : routing_state.

Let C := flat_map (expected_channel_reply r).
Let E := flat_map (expected_endpoints r).
Let N := flat_map (expected_node_reply r).
Let fin := wire_reply_short_channel_ids_end (chain_hash r) true.

Lemma step_nodes p scids U j q :
  query_state p scids (length scids) U j q -> (j <= length U)%nat ->
  exists p',
    create_next_scid_reply r p = (true, p') /\
    (query_done p' (q ++ N (drop j U) ++ [fin]) \/
     exists j', (j < j' < length U)%nat /\
       query_state p' scids (length scids) U j'
         (q ++ N (take (j' - j) (drop j U)))).
Proof.
  intros (Hq & Hi & Hn & Hj & Hd) Hle.
  unfold create_next_scid_reply. rewrite Hq, Hi.
  cbn [tal_arr default from_option id]. rewrite drop_all.
  cbn [scid_reply_channels]. rewrite Nat.eqb_refl. cbn [negb andb].
  set (p3 := set_scid_query_idx (length scids) p).
  assert (H3 : query_state p3 scids (length scids) U j q) by done.
  destruct H3 as (Hq3 & Hi3 & Hn3 & Hj3 & Hd3). clearbody p3.
  rewrite Hn3, Hj3. cbn [tal_arr default from_option id].
  destruct (scid_reply_nodes_spec r (drop j U) j p3)
    as (k & Hk & Hj' & H1 & H2 & H3 & H4 & H5 & H6).
  cbn zeta in *. rewrite length_drop in Hk.
  destruct (scid_reply_nodes r (drop j U) j p3) as [[j' sent] p4].
  cbn [fst snd] in *.
  assert (Hsome : bool_decide (scid_queries (set_scid_query_nodes_idx j' p4) <> None) = true).
  { apply bool_decide_eq_true. peer_simpl. congruence. }
  rewrite Hsome. cbn [andb].
  destruct (j' =? length U)%nat eqn:Ej.
  - apply Nat.eqb_eq in Ej. eexists. split; [by destruct sent|].
    left. unfold query_done. peer_simpl. repeat split.
    rewrite H5, Hd3. assert (k = (length U - j)%nat) as -> by lia.
    rewrite take_ge by (rewrite length_drop; lia). by rewrite <- app_assoc.
  - apply Nat.eqb_neq in Ej. destruct sent.
    + eexists. split; [done|]. right. exists j'. split; [lia|].
      unfold query_state. peer_simpl. repeat split; try congruence.
      rewrite H5, Hd3. do 3 f_equal. lia.
    + rewrite length_drop in H6. exfalso. lia.
Qed.

Lemma uniquify_nonempty (l : list (list Z)) : l <> [] -> uniquify_node_ids l <> [].
Proof.
  destruct l as [|x l]; [done|]. intros _ Hu.
  destruct (uniquify_node_ids_spec (x :: l)) as [_ Hm].
  specialize (Hm x). rewrite Hu in Hm.
  destruct Hm as [_ Hm]. specialize (Hm ltac:(left)). inversion Hm.
Qed.

Lemma step_channels p scids i acc q :
  query_state p scids i acc 0 q -> (i < length scids)%nat ->
  (exists p' i',
     create_next_scid_reply r p = (true, p') /\
     (i < i' <= length scids)%nat /\
     E (take (i' - i) (drop i scids)) <> [] /\
     query_state p' scids i'
       (if (i' =? length scids)%nat
        then uniquify_node_ids (acc ++ E (take (i' - i) (drop i scids)))
        else acc ++ E (take (i' - i) (drop i scids)))
       0 (q ++ C (take (i' - i) (drop i scids))))
  \/
  (exists p3,
     create_next_scid_reply r p = create_next_scid_reply r p3 /\
     query_state p3 scids (length scids) (uniquify_node_ids acc) 0 q /\
     C (drop i scids) = [] /\ E (drop i scids) = []).
Proof.
  intros (Hq & Hi & Hn & Hj & Hd) Hlt.
  rewrite create_next_scid_reply_tail. rewrite Hq, Hi.
  cbn [tal_arr default from_option id].
  destruct (scid_reply_channels_spec r (drop i scids) i p)
    as (k & Hk & Hi' & H1 & H2 & H3 & H4 & H5).
  cbn zeta in *. rewrite length_drop in Hk.
  destruct (scid_reply_channels r (drop i scids) i p) as [[i' sent] p1].
  cbn [fst snd] in *.
  assert (Hne : (i =? length scids)%nat = false) by (apply Nat.eqb_neq; lia).
  rewrite Hne. cbn [negb andb].
  destruct sent.
  - destruct H5 as (Hk1 & Hn1 & HE). left.
    rewrite Hn in Hn1. cbn [tal_arr default from_option id] in Hn1.
    assert (Hik : (i' - i)%nat = k) by lia.
    set (L := if (i' =? length scids)%nat
              then uniquify_node_ids (acc ++ E (take k (drop i scids)))
              else acc ++ E (take k (drop i scids))).
    set (p3 := set_scid_query_idx i' _).
    assert (HL : L <> []).
    { subst L. destruct (i' =? length scids)%nat.
      - apply uniquify_nonempty. by destruct acc.
      - by destruct acc. }
    assert (H3n : scid_query_nodes p3 = Some L).
    { subst p3 L. destruct (i' =? length scids)%nat; peer_simpl.
      - by rewrite Hn1.
      - done. }
    destruct (scid_reply_tail_sent r p3 L H3n HL) as (p5 & Hr & G1 & G2 & G3 & G4 & G5).
    { subst p3. destruct (i' =? length scids)%nat; peer_simpl; congruence. }
    exists p5, i'. rewrite Hik. split; [done|]. split; [lia|]. split; [done|].
    unfold query_state. rewrite G1, G2, G3, G4, G5.
    subst p3 L. destruct (i' =? length scids)%nat; peer_simpl;
      repeat split; try congruence; by rewrite H4, Hd.
  - destruct H5 as (-> & -> & HC & HE). right.
    rewrite length_drop in Hi'.
    assert (i' = length scids) as -> by lia.
    rewrite Nat.eqb_refl.
    exists (set_scid_query_idx (length scids)
              (set_scid_query_nodes (uniquify_node_ids <$> scid_query_nodes p) p)).
    split; [|split; [|done]].
    + rewrite create_next_scid_reply_tail. peer_simpl. rewrite Hq.
      cbn [tal_arr default from_option id]. rewrite drop_all.
      cbn [scid_reply_channels fst snd]. rewrite Nat.eqb_refl. done.
    + unfold query_state. peer_simpl. rewrite Hn. done.
Qed.

Lemma create_next_scid_reply_done p q :
  query_done p q ->
  exists p', create_next_scid_reply r p = (false, p') /\ query_done p' q.
Proof.
  intros (Hq & Hn & Hj & Hd). rewrite create_next_scid_reply_tail. rewrite Hq.
  cbn [tal_arr default from_option id]. rewrite drop_nil.
  cbn [scid_reply_channels fst snd length].
  assert (Hc : negb (scid_query_idx p =? 0)%nat && (scid_query_idx p =? 0)%nat = false)
    by (by destruct (scid_query_idx p =? 0)%nat).
  rewrite Hc. unfold scid_reply_tail. peer_simpl. rewrite Hn.
  cbn [tal_arr default from_option id]. rewrite drop_nil.
  cbn [scid_reply_nodes]. peer_simpl. rewrite Hq.
  rewrite bool_decide_eq_false_2 by (intros H; by apply H).
  cbn [andb]. eexists. split; [reflexivity|]. unfold query_done.
  peer_simpl. done.
Qed.

Lemma run_done p q :
  query_done p q ->
  exists p', (forall fuel, (1 <= fuel)%nat -> scid_reply_run fuel r p = Some p')
             /\ query_done p' q.
Proof.
  intros Hdone. destruct (create_next_scid_reply_done p q Hdone) as (p' & Hc & Hd).
  exists p'. split; [|done]. intros [|fuel] Hf; [lia|].
  cbn [scid_reply_run]. by rewrite Hc.
Qed.

Lemma run_nodes n : forall p scids U j q,
  (length U - j <= n)%nat ->
  query_state p scids (length scids) U j q -> (j <= length U)%nat ->
  exists p',
    (forall fuel, (n + 2 <= fuel)%nat -> scid_reply_run fuel r p = Some p') /\
    query_done p' (q ++ N (drop j U) ++ [fin]).
Proof.
  induction n as [|n IH]; intros p scids U j q Hn Hst Hle.
  - destruct (step_nodes p scids U j q Hst Hle) as (p1 & Hc & [Hd | (j' & Hj' & _)]);
      [|lia].
    destruct (run_done p1 _ Hd) as (p' & Hrun & Hd').
    exists p'. split; [|done]. intros [|fuel] Hf; [lia|].
    cbn [scid_reply_run]. rewrite Hc. apply Hrun. lia.
  - destruct (step_nodes p scids U j q Hst Hle) as (p1 & Hc & [Hd | (j' & Hj' & Hst')]).
    + destruct (run_done p1 _ Hd) as (p' & Hrun & Hd').
      exists p'. split; [|done]. intros [|fuel] Hf; [lia|].
      cbn [scid_reply_run]. rewrite Hc. apply Hrun. lia.
    + destruct (IH p1 scids U j' _ ltac:(lia) Hst' ltac:(lia)) as (p' & Hrun & Hd').
      exists p'. split.
      * intros [|fuel] Hf; [lia|]. cbn [scid_reply_run]. rewrite Hc.
        apply Hrun. lia.
      * replace (q ++ N (drop j U) ++ [fin])
          with ((q ++ N (take (j' - j) (drop j U))) ++ N (drop j' U) ++ [fin]);
          [done|].
        rewrite <- !app_assoc. f_equal. rewrite app_assoc. f_equal.
        subst N. rewrite <- flat_map_app. f_equal.
        rewrite <- (take_drop (j' - j) (drop j U)) at 2. f_equal.
        rewrite drop_drop. f_equal. lia.
Qed.

Lemma run_same_first_call p p3 fuel :
  create_next_scid_reply r p = create_next_scid_reply r p3 ->
  scid_reply_run fuel r p = scid_reply_run fuel r p3.
Proof. intros H. destruct fuel; cbn [scid_reply_run]; [done|]. by rewrite H. Qed.

Lemma run_channels n : forall p scids i acc q,
  (length scids - i <= n)%nat -> (i < length scids)%nat ->
  query_state p scids i acc 0 q ->
  exists bound p',
    (forall fuel, (bound <= fuel)%nat -> scid_reply_run fuel r p = Some p') /\
    query_done p'
      (q ++ C (drop i scids)
         ++ N (uniquify_node_ids (acc ++ E (drop i scids))) ++ [fin]).
Proof.
  induction n as [|n IH]; intros p scids i acc q Hn Hlt Hst; [lia|].
  destruct (step_channels p scids i acc q Hst Hlt)
    as [(p1 & i' & Hc & Hi' & HE & Hst') | (p3 & Hc & Hst' & HC & HE)].
  - destruct (i' =? length scids)%nat eqn:Ei.
    + apply Nat.eqb_eq in Ei. subst i'.
      rewrite take_ge in Hst' by (rewrite length_drop; lia).
      destruct (run_nodes _ p1 scids _ 0%nat _ (Nat.le_refl _) Hst' ltac:(lia))
        as (p' & Hrun & Hd').
      eexists (S _), p'. split.
      * intros [|fuel] Hf; [lia|]. cbn [scid_reply_run]. rewrite Hc.
        apply Hrun. apply le_S_n, Hf.
      * rewrite drop_0 in Hd'. by rewrite <- app_assoc in Hd'.
    + apply Nat.eqb_neq in Ei.
      destruct (IH p1 scids i' _ _ ltac:(lia) ltac:(lia) Hst')
        as (bound & p' & Hrun & Hd').
      exists (S bound), p'. split.
      * intros [|fuel] Hf; [lia|]. cbn [scid_reply_run]. rewrite Hc.
        apply Hrun. lia.
      * assert (Hsplit : drop i scids
                         = take (i' - i) (drop i scids) ++ drop i' scids).
        { rewrite <- (take_drop (i' - i) (drop i scids)) at 1. f_equal.
          rewrite drop_drop. f_equal. lia. }
        rewrite Hsplit. subst C E. rewrite !flat_map_app.
        rewrite <- !app_assoc in Hd'. rewrite <- !app_assoc. exact Hd'.
  - destruct (run_nodes _ p3 scids _ 0%nat _ (Nat.le_refl _) Hst' ltac:(lia))
      as (p' & Hrun & Hd').
    eexists _, p'. split.
    + intros fuel Hf. rewrite (run_same_first_call p p3 fuel Hc).
      apply Hrun. exact Hf.
    + rewrite HC, HE, app_nil_r. cbn [app]. by rewrite drop_0 in Hd'.
Qed.

End scid_reply_steps.

(** ** The whole reply to an SCID query *)

(** C1.  An accepted [query_short_channel_ids] (our chain, no query in
    flight, ids that decode) makes the write loop emit, and nothing else:
    for each queried id in query order whose channel is known and
    announced, its [channel_announcement] and then the [channel_update] of
    each half that has one; then the [node_announcement]s of the endpoints
    of those channels, in strictly increasing node-id order, each node once
    and only if it has been announced; then one
    [reply_short_channel_ids_end] with [complete] set.  The loop stops there,
    with the query state cleared.  (A peer with no query in flight has its
    node cursor at zero: [connectd_new_peer] and the end of every query
    leave it so.) *)
Theorem scid_query_reply_sequence X r p chain encoded (scids : list Z) :
  bitcoin_blkid_eq (chain_hash r) chain = true ->
  scid_queries p = None -> scid_query_nodes p = None ->
  scid_query_nodes_idx p = 0%nat ->
  decode_short_ids X encoded = Some scids ->
  let p0 := handle_query_short_channel_ids X r p (Some (chain, encoded)) in
  exists (node_ids : list (list Z)) bound p',
    StronglySorted pubkey_lt node_ids /\
    (forall k, k ∈ node_ids <-> k ∈ flat_map (expected_endpoints r) scids) /\
    (forall fuel, (bound <= fuel)%nat -> scid_reply_run fuel r p0 = Some p') /\
    dc p' = dc p ++ flat_map (expected_channel_reply r) scids
                 ++ flat_map (expected_node_reply r) node_ids
                 ++ [wire_reply_short_channel_ids_end (chain_hash r) true] /\
    scid_queries p' = None /\ scid_query_nodes p' = None /\
    scid_query_nodes_idx p' = 0%nat.
Proof.
  intros Hc Hq Hn Hj Hdec p0.
  assert (Hst : query_state p0 scids 0 [] 0 (dc p)).
  { subst p0. unfold handle_query_short_channel_ids. rewrite Hc, Hq, Hn, Hdec.
    cbn [negb]. rewrite !bool_decide_eq_false_2 by (intros H; by apply H).
    cbn [orb]. done. }
  clearbody p0.
  destruct (uniquify_node_ids_spec (flat_map (expected_endpoints r) scids))
    as [Hsorted Hmem].
  destruct scids as [|s scids].
  - destruct (run_nodes r 0 p0 [] [] 0%nat (dc p) (Nat.le_refl _) Hst (Nat.le_refl _))
      as (p' & Hrun & Hq' & Hn' & Hj' & Hd').
    exists [], 2%nat, p'. repeat split; try done; try constructor.
  - destruct (run_channels r _ p0 (s :: scids) 0%nat [] (dc p) (Nat.le_refl _)
                ltac:(cbn; lia) Hst)
      as (bound & p' & Hrun & Hq' & Hn' & Hj' & Hd').
    rewrite drop_0 in Hd'. cbn [app] in Hd'.
    exists (uniquify_node_ids (flat_map (expected_endpoints r) (s :: scids))),
      bound, p'.
    repeat split; try done; apply Hmem.
Qed.

Lemma scid_query_reply_sequence_witness :
  let p0 := handle_query_short_channel_ids sample_X sample_rstate sample_peer
              (Some (sample_chain,
                     0 :: towire_u64 scid_b1 ++ towire_u64 77 ++ towire_u64 scid_b2)) in
  exists (node_ids : list (list Z)) bound p',
    StronglySorted pubkey_lt node_ids /\
    (forall k, k ∈ node_ids
               <-> k ∈ flat_map (expected_endpoints sample_rstate)
                         [scid_b1; 77; scid_b2]) /\
    (forall fuel, (bound <= fuel)%nat ->
                  scid_reply_run fuel sample_rstate p0 = Some p') /\
    dc p' = dc sample_peer
              ++ flat_map (expected_channel_reply sample_rstate) [scid_b1; 77; scid_b2]
              ++ flat_map (expected_node_reply sample_rstate) node_ids
              ++ [wire_reply_short_channel_ids_end (chain_hash sample_rstate) true] /\
    scid_queries p' = None /\ scid_query_nodes p' = None /\
    scid_query_nodes_idx p' = 0%nat.
Proof.
  apply (scid_query_reply_sequence sample_X sample_rstate sample_peer
           sample_chain _ [scid_b1; 77; scid_b2]).
  - reflexivity.
  - reflexivity.
  - reflexivity.
  - reflexivity.
  - vm_compute. reflexivity.
Defined.

(** The third scenario of the specification, run: two channels sharing the
    endpoint [key_n]; [key_m] was never announced. *)
Example scid_reply_scenario :
  dc <$> scid_reply_run 10 sample_rstate busy_peer
  = Some [stored (Some [1; 0; scid_b1]); stored (Some [1; 2; 100]);
          stored (Some [1; 2; 101]);
          stored (Some [1; 0; scid_b2]); stored (Some [1; 2; 100]);
          stored (Some [1; 2; 101]);
          stored (Some (1 :: 1 :: key_us)); stored (Some (1 :: 1 :: key_n));
          wire_reply_short_channel_ids_end sample_chain true].
Proof. vm_compute. reflexivity. Qed.

(** ** Replies to [query_channel_range] *)

Lemma blocknum_mono s s' :
  s <= s' -> short_channel_id_blocknum s <= short_channel_id_blocknum s'.
Proof.
  intros H. unfold short_channel_id_blocknum. rewrite !Z.shiftr_div_pow2 by lia.
  apply Z.div_le_mono; lia.
Qed.

(** The walk stops within the fuel and has added, in key order, the ids
    above [idx] whose block is below [limit]. *)
Lemma chanmap_walk_spec fuel (m : gmap Z chan) limit : forall idx encoded,
  (length (keys_above m idx) < fuel)%nat ->
  exists L : list Z,
    chanmap_walk fuel m limit idx encoded
    = Some (encoded ++ flat_map towire_u64 L) /\
    forall s, s ∈ L <->
      is_Some (m !! s) /\ idx < s /\ short_channel_id_blocknum s < limit.
Proof.
  induction fuel as [|fuel IH]; intros idx encoded Hfuel; [lia|].
  cbn [chanmap_walk].
  destruct (uintmap_after m idx) as [[k c]|] eqn:Ea.
  - pose proof (keys_above_next m idx k c Ea) as Hdec.
    apply uintmap_after_Some in Ea as (Hk & Hlt & Hmin).
    destruct (limit <=? short_channel_id_blocknum k) eqn:El.
    + apply Z.leb_le in El. exists []. cbn. rewrite app_nil_r. split; [done|].
      intros s. split; [intros H; inversion H|].
      intros (Hs & Hi & Hb). specialize (Hmin s Hs Hi).
      pose proof (blocknum_mono k s Hmin). lia.
    + apply Z.leb_gt in El.
      destruct (IH k (encode_add_short_channel_id encoded k)) as (L & HL & Hmem);
        [lia|].
      exists (k :: L). split.
      * rewrite HL. unfold encode_add_short_channel_id, towire_short_channel_id.
        cbn [flat_map]. by rewrite <- app_assoc.
      * intros s. rewrite elem_of_cons, Hmem. split.
        -- intros [-> | (Hs & Hi & Hb)]; [eauto | split; [done|]; lia].
        -- intros (Hs & Hi & Hb). specialize (Hmin s Hs Hi).
           destruct (decide (s = k)) as [->|Hne]; [by left|].
           right. split; [done|]. lia.
  - exists []. cbn. rewrite app_nil_r. split; [done|].
    intros s. split; [intros H; inversion H|].
    intros (Hs & Hi & _). pose proof (uintmap_after_None m idx Ea s Hs). lia.
Qed.

Lemma mk_short_channel_id_block b :
  0 <= b < 2 ^ 24 -> mk_short_channel_id b 0 0 = b * 2 ^ 40.
Proof.
  intros Hb. unfold mk_short_channel_id.
  change 16777215 with (Z.ones 24). rewrite !Z.land_ones by lia.
  rewrite Z.mod_small by lia. cbn. rewrite !Z.lor_0_r.
  by rewrite Z.shiftl_mul_pow2.
Qed.

Lemma range_start_spec first s :
  0 <= first < 2 ^ 24 ->
  range_start first < s <-> Z.max first 1 <= short_channel_id_blocknum s.
Proof.
  intros Hf. unfold range_start, short_channel_id_blocknum.
  rewrite Z.shiftr_div_pow2 by lia.
  assert (H40 : 2 ^ 40 = 1099511627776) by reflexivity.
  assert (H24 : 2 ^ 24 = 16777216) by reflexivity.
  assert (Hs : (if first =? 0 then mk_short_channel_id 1 0 0
                else mk_short_channel_id first 0 0) = Z.max first 1 * 2 ^ 40).
  { destruct (first =? 0) eqn:E0.
    - apply Z.eqb_eq in E0. subst. reflexivity.
    - apply Z.eqb_neq in E0. rewrite mk_short_channel_id_block by lia.
      f_equal. lia. }
  rewrite Hs. unfold to_u64. rewrite Z.mod_small.
  2:{ assert (2 ^ 64 = 18446744073709551616) by reflexivity. lia. }
  pose proof (Z.div_mod s (2 ^ 40) ltac:(lia)) as Hdm.
  pose proof (Z.mod_pos_bound s (2 ^ 40) ltac:(lia)) as Hmb.
  split; intros H; nia.
Qed.

Lemma range_encoding_spec r first num :
  0 <= first < 2 ^ 24 -> 0 <= num -> first + num <= 2 ^ 24 ->
  exists L : list Z,
    range_encoding r first num
    = Some (foldl encode_add_short_channel_id encode_short_channel_ids_start L) /\
    forall s, s ∈ L <->
      is_Some (chanmap r !! s) /\
      Z.max first 1 <= short_channel_id_blocknum s < first + num.
Proof.
  intros Hf Hn Hsum. unfold range_encoding.
  assert (H24 : 2 ^ 24 = 16777216) by reflexivity.
  assert (H32 : 2 ^ 32 = 4294967296) by reflexivity.
  assert (Hlim : to_u32 (first + num) = first + num)
    by (unfold to_u32; apply Z.mod_small; lia).
  rewrite Hlim.
  destruct (chanmap_walk_spec (S (size (chanmap r))) (chanmap r) (first + num)
              (range_start first) encode_short_channel_ids_start)
    as (L & HL & Hmem).
  { pose proof (keys_above_size (chanmap r) (range_start first)). lia. }
  exists L. rewrite foldl_encode_add. split; [done|].
  intros s. rewrite Hmem, range_start_spec by lia. tauto.
Qed.

Lemma encode_scids_total X dev (l : list Z) max_bytes :
  exists ok body, encode_scids X dev l max_bytes = Some (ok, body).
Proof.
  unfold encode_scids. rewrite foldl_encode_add.
  unfold encode_short_channel_ids_start. cbn [app].
  unfold encode_short_channel_ids_end.
  replace (SHORTIDS_ZLIB =? SHORTIDS_ZLIB) with true by reflexivity.
  destruct (zencode_scids X _); eauto.
Qed.

Lemma queue_channel_ranges_S fuel X dev r p first num :
  queue_channel_ranges (S fuel) X dev r p first num =
  match range_encoding r first num with
  | None => None
  | Some encoded =>
      match encode_short_channel_ids_end X dev encoded max_encoded_bytes with
      | None => None
      | Some (true, encoded) =>
          Some (reply_channel_range r p first num encoded)
      | Some (false, _) =>
          if num <=? 1 then Some p
          else
            match queue_channel_ranges fuel X dev r p first (num / 2) with
            | None => None
            | Some p =>
                queue_channel_ranges fuel X dev r p (to_u32 (first + num / 2))
                  (num - num / 2)
            end
      end
  end.
Proof. reflexivity. Qed.

Section channel_ranges.
Variables (X : collaborators) (dev : dev_knobs) (r : routing_state).

Lemma queue_channel_ranges_spec fuel : forall p first num,
  0 <= first < 2 ^ 24 -> 0 <= num -> first + num <= 2 ^ 24 ->
  num <= 2 ^ Z.of_nat fuel ->
  (forall b, first <= b < first + num -> range_fits X dev r b 1 = true) ->
  exists chunks msgs p',
    queue_channel_ranges (S fuel) X dev r p first num = Some p' /\
    dc p' = dc p ++ msgs /\
    Forall2 (reply_carries X dev r) chunks msgs /\
    forall s, (exists chunk, chunk ∈ chunks /\ s ∈ chunk.2) <->
      is_Some (chanmap r !! s) /\
      Z.max first 1 <= short_channel_id_blocknum s < first + num.
Proof.
  assert (H24 : 2 ^ 24 = 16777216) by reflexivity.
  assert (H32 : 2 ^ 32 = 4294967296) by reflexivity.
  induction fuel as [|fuel IH]; intros p first num Hf Hn Hsum Hpow Hfits;
    rewrite queue_channel_ranges_S;
    destruct (range_encoding_spec r first num Hf Hn Hsum) as (L & HL & Hmem);
    rewrite HL;
    destruct (encode_scids_total X dev L max_encoded_bytes) as (ok & body & Henc);
    pose proof Henc as Henc'; unfold encode_scids in Henc'; rewrite Henc';
    destruct ok.
  1,3: exists [(first, num, L)], [wire_reply_channel_range (chain_hash r) first num 1 body];
    eexists; (split; [reflexivity|]); (split; [done|]);
    (split; [repeat constructor; by exists body|]);
    intros s; rewrite <- Hmem; split;
    [ intros (chunk & Hc & Hs); apply list_elem_of_singleton in Hc; by subst
    | intros Hs; exists (first, num, L); split; [apply list_elem_of_singleton|]; done ].
  - (* out of room, no halving left *)
    assert (Hnum : num <= 1) by (cbn in Hpow; lia).
    destruct (num <=? 1) eqn:E1; [|apply Z.leb_gt in E1; lia].
    destruct (decide (num = 1)) as [->|Hne].
    + specialize (Hfits first ltac:(lia)). unfold range_fits in Hfits.
      rewrite HL, Henc' in Hfits. done.
    + exists [], [], p. split; [done|]. split; [by rewrite app_nil_r|].
      split; [constructor|]. intros s. split.
      * intros (chunk & Hc & _). inversion Hc.
      * intros (_ & Hb). lia.
  - destruct (num <=? 1) eqn:E1.
    + apply Z.leb_le in E1.
      destruct (decide (num = 1)) as [->|Hne].
      * specialize (Hfits first ltac:(lia)). unfold range_fits in Hfits.
        rewrite HL, Henc' in Hfits. done.
      * exists [], [], p. split; [done|]. split; [by rewrite app_nil_r|].
        split; [constructor|]. intros s. split.
        -- intros (chunk & Hc & _). inversion Hc.
        -- intros (_ & Hb). lia.
    + apply Z.leb_gt in E1.
      assert (Hh : 1 <= num / 2 /\ 2 * (num / 2) <= num < 2 * (num / 2) + 2).
      { pose proof (Z.div_mod num 2 ltac:(lia)).
        pose proof (Z.mod_pos_bound num 2 ltac:(lia)). lia. }
      assert (Hp2 : 2 ^ Z.of_nat (S fuel) = 2 * 2 ^ Z.of_nat fuel).
      { rewrite Nat2Z.inj_succ, Z.pow_succ_r by lia. done. }
      assert (Hmid : to_u32 (first + num / 2) = first + num / 2)
        by (unfold to_u32; apply Z.mod_small; lia).
      rewrite Hmid.
      destruct (IH p first (num / 2)) as (ch1 & ms1 & p1 & Hq1 & Hd1 & Hc1 & Hm1);
        [lia | lia | lia | lia | intros b Hb; apply Hfits; lia |].
      rewrite Hq1.
      destruct (IH p1 (first + num / 2) (num - num / 2))
        as (ch2 & ms2 & p2 & Hq2 & Hd2 & Hc2 & Hm2);
        [lia | lia | lia | lia | intros b Hb; apply Hfits; lia |].
      exists (ch1 ++ ch2), (ms1 ++ ms2), p2. split; [done|].
      split; [by rewrite Hd2, Hd1, app_assoc|].
      split; [by apply Forall2_app|].
      intros s. split.
      * intros (chunk & Hc & Hs). apply elem_of_app in Hc as [Hc|Hc].
        -- destruct (proj1 (Hm1 s)) as (? & ?); [eauto|]. split; [done|]. lia.
        -- destruct (proj1 (Hm2 s)) as (? & ?); [eauto|]. split; [done|]. lia.
      * intros (Hs & Hb).
        destruct (decide (short_channel_id_blocknum s < first + num / 2)).
        -- destruct (proj2 (Hm1 s)) as (chunk & Hc & Hin); [split; [done|]; lia|].
           exists chunk. split; [apply elem_of_app; by left | done].
        -- destruct (proj2 (Hm2 s)) as (chunk & Hc & Hin); [split; [done|]; lia|].
           exists chunk. split; [apply elem_of_app; by right | done].
Qed.

End channel_ranges.

(** The walk for a window that starts below block 2^24 and ends within
    the 32-bit block numbers of the query. *)
Lemma range_encoding_wide r first num :
  0 <= first < 2 ^ 24 -> 0 <= num -> first + num < 2 ^ 32 ->
  exists L : list Z,
    range_encoding r first num
    = Some (foldl encode_add_short_channel_id encode_short_channel_ids_start L) /\
    forall s, s ∈ L <->
      is_Some (chanmap r !! s) /\
      Z.max first 1 <= short_channel_id_blocknum s < first + num.
Proof.
  intros Hf Hn Hsum. unfold range_encoding.
  assert (H32 : 2 ^ 32 = 4294967296) by reflexivity.
  assert (Hlim : to_u32 (first + num) = first + num)
    by (unfold to_u32; apply Z.mod_small; lia).
  rewrite Hlim.
  destruct (chanmap_walk_spec (S (size (chanmap r))) (chanmap r) (first + num)
              (range_start first) encode_short_channel_ids_start)
    as (L & HL & Hmem).
  { pose proof (keys_above_size (chanmap r) (range_start first)). lia. }
  exists L. rewrite foldl_encode_add. split; [done|].
  intros s. rewrite Hmem, range_start_spec by lia. tauto.
Qed.

(** C2, as the code has it.  Take an accepted [query_channel_range] that
    starts below block 2^24, the first block number an id cannot hold, and
    whose ids either all fit one reply, wherever the window ends, or lie in
    a window that ends by block 2^24 and whose every single block fits one
    reply.  Then the ids carried by the [reply_channel_range] messages
    queued are, taken together, exactly the ids of the channel map whose
    block is in the window and is not block 0: the walk starts at block 1
    when [first_blocknum] is 0. *)
Theorem channel_range_replies_cover X dev r p chain first num :
  bitcoin_blkid_eq (chain_hash r) chain = true ->
  0 <= first < 2 ^ 24 -> 0 <= num -> first + num < 2 ^ 32 ->
  range_fits X dev r first num = true \/
  (first + num <= 2 ^ 24 /\
   forall b, first <= b < first + num -> range_fits X dev r b 1 = true) ->
  exists chunks msgs p',
    handle_query_channel_range X dev r p (Some (chain, first, num)) = Some p' /\
    dc p' = dc p ++ msgs /\
    Forall2 (reply_carries X dev r) chunks msgs /\
    forall s, (exists chunk, chunk ∈ chunks /\ s ∈ chunk.2) <->
      is_Some (chanmap r !! s) /\
      Z.max first 1 <= short_channel_id_blocknum s < first + num.
Proof.
  intros Hc Hf Hn Hsum Hcase. unfold handle_query_channel_range.
  rewrite Hc. cbn [negb].
  assert (H24 : 2 ^ 24 = 16777216) by reflexivity.
  assert (H32 : 2 ^ 32 = 4294967296) by reflexivity.
  assert (Hlim : to_u32 (first + num) = first + num)
    by (unfold to_u32; apply Z.mod_small; lia).
  rewrite Hlim.
  destruct (first + num <? first) eqn:E; [apply Z.ltb_lt in E; exfalso; lia|].
  destruct Hcase as [Hfit | [Hend Hfits]].
  - unfold range_depth. rewrite queue_channel_ranges_S.
    unfold range_fits in Hfit.
    destruct (range_encoding_wide r first num Hf Hn Hsum) as (L & HL & Hmem).
    rewrite HL in Hfit |- *.
    destruct (encode_short_channel_ids_end X dev _ max_encoded_bytes)
      as [[[|] body]|] eqn:Henc; [|done..].
    exists [(first, num, L)],
      [wire_reply_channel_range (chain_hash r) first num 1 body].
    eexists. split; [reflexivity|]. split; [done|].
    split; [repeat constructor; by exists body|].
    intros s. rewrite <- Hmem. split.
    + intros (chunk & Hin & Hs). apply list_elem_of_singleton in Hin. by subst.
    + intros Hs. exists (first, num, L).
      split; [apply list_elem_of_singleton|]; done.
  - apply queue_channel_ranges_spec; try done.
    change (Z.of_nat 32) with 32. lia.
Qed.

Lemma channel_range_replies_cover_witness :
  exists chunks msgs p',
    handle_query_channel_range sample_X dev_default sample_rstate sample_peer
      (Some (sample_chain, 1, 4294967294)) = Some p' /\
    dc p' = dc sample_peer ++ msgs /\
    Forall2 (reply_carries sample_X dev_default sample_rstate) chunks msgs /\
    forall s, (exists chunk, chunk ∈ chunks /\ s ∈ chunk.2) <->
      is_Some (chanmap sample_rstate !! s) /\
      Z.max 1 1 <= short_channel_id_blocknum s < 1 + 4294967294.
Proof.
  apply (channel_range_replies_cover sample_X dev_default sample_rstate
           sample_peer sample_chain 1 4294967294).
  - reflexivity.
  - split; [lia | reflexivity].
  - lia.
  - reflexivity.
  - left. vm_compute. reflexivity.
Defined.

(** C2, as stated, fails at [first_blocknum = 0]: the channel map holds an
    id in block 0, the query asks for blocks 0 and 1, and the one reply
    carries the id of block 1 alone. *)
Lemma channel_range_skips_block_zero :
  exists p',
    handle_query_channel_range sample_X dev_default sample_rstate sample_peer
      (Some (sample_chain, 0, 2)) = Some p' /\
    dc p' = [wire_reply_channel_range sample_chain 0 2 1
               (SHORTIDS_UNCOMPRESSED :: towire_u64 scid_b1)] /\
    decode_short_ids sample_X (SHORTIDS_UNCOMPRESSED :: towire_u64 scid_b1)
    = Some [scid_b1] /\
    is_Some (chanmap sample_rstate !! scid_b0) /\
    0 <= short_channel_id_blocknum scid_b0 < 0 + 2 /\
    scid_b0 ∉ [scid_b1].
Proof.
  eexists. split; [vm_compute; reflexivity|].
  split; [reflexivity|]. split; [vm_compute; reflexivity|].
  split; [vm_compute; eauto|]. split; [vm_compute; split; [discriminate | reflexivity]|].
  intros H. apply list_elem_of_singleton in H. vm_compute in H. discriminate H.
Qed.
(** A window that starts at or above block 2^24 is walked from the block
    its start wraps to: the query for the five blocks from 2^24 + 1 is
    answered with the ids of blocks 1 and 2. *)
Lemma channel_range_first_wraps :
  exists p',
    handle_query_channel_range sample_X dev_default sample_rstate sample_peer
      (Some (sample_chain, 2 ^ 24 + 1, 5)) = Some p' /\
    dc p' = [wire_reply_channel_range sample_chain (2 ^ 24 + 1) 5 1
               (SHORTIDS_UNCOMPRESSED
                :: towire_u64 scid_b1 ++ towire_u64 scid_b2)] /\
    decode_short_ids sample_X
      (SHORTIDS_UNCOMPRESSED :: towire_u64 scid_b1 ++ towire_u64 scid_b2)
    = Some [scid_b1; scid_b2] /\
    short_channel_id_blocknum scid_b1 = 1 /\
    short_channel_id_blocknum scid_b2 = 2.
Proof.
  eexists. split; [vm_compute; reflexivity|].
  repeat split; vm_compute; reflexivity.
Qed.

(** So is a sub-window of the halving.  The query asks for the ten blocks
    from 2^24 - 4, under a cap of 24 bytes: every block of the window that
    an id can hold fits one reply, the window as a whole does not, and its
    second half, the five blocks from 2^24 + 1, is walked from block 1.
    The four ids found there take, compressed, one byte less than the
    three of them that are in the window, and fit: this half is answered
    with one reply, which carries the id of block 1. *)
Lemma channel_range_half_wraps :
  let dev := {| max_scids_encode_bytes := 24; suppress_gossip := false |} in
  let first := 2 ^ 24 - 4 in
  let num := 10 in
  exists p' m1 m2 m3,
    handle_query_channel_range wrap_X dev wrap_rstate sample_peer
      (Some (sample_chain, first, num)) = Some p' /\
    dc p' = [m1; m2; m3] /\
    reply_carries wrap_X dev wrap_rstate (first, 2, take 2 wrap_high) m1 /\
    reply_carries wrap_X dev wrap_rstate (first + 2, 3, drop 2 wrap_high) m2 /\
    reply_carries wrap_X dev wrap_rstate (2 ^ 24 + 1, 5, wrap_low :: wrap_high)
      m3 /\
    short_channel_id_blocknum wrap_low = 1 /\
    range_fits wrap_X dev wrap_rstate first num = false /\
    forall b, first <= b < 2 ^ 24 -> range_fits wrap_X dev wrap_rstate b 1 = true.
Proof.
  cbv zeta. do 4 eexists. split; [vm_compute; reflexivity|].
  split; [reflexivity|].
  split; [eexists; split; [vm_compute; reflexivity | reflexivity]|].
  split; [eexists; split; [vm_compute; reflexivity | reflexivity]|].
  split; [eexists; split; [vm_compute; reflexivity | reflexivity]|].
  split; [reflexivity|]. split; [vm_compute; reflexivity|].
  intros b Hb. change (2 ^ 24) with 16777216 in Hb.
  assert (b = 16777212 \/ b = 16777213 \/ b = 16777214 \/ b = 16777215)
    as [-> | [-> | [-> | ->]]] by lia; vm_compute; reflexivity.
Qed.

(** When the ids of one block do not fit a reply the block goes
    unanswered; here the developer knob caps the encoding at four bytes. *)
Example channel_range_block_abandoned :
  handle_query_channel_range sample_X
    {| max_scids_encode_bytes := 4; suppress_gossip := false |}
    sample_rstate sample_peer (Some (sample_chain, 1, 1))
  = Some sample_peer.
Proof. vm_compute. reflexivity. Qed.

(** ** Scenarios of the specification, run on the sample data *)

(** Legacy initial sync: cursor 0, window [0, 2^32 - 1]; the three log
    entries go out one per wake-up, in log order, then the pacing timer is
    armed. *)
Example legacy_initial_sync :
  (fun p => (dc p, broadcast_index p, gossip_timer p))
  <$> peer_run sample_X dev_default sample_peer
        (replicate 4 (sample_rstate, ev_wake))
  = Some ([stored (Some [1; 0; 1]); stored (Some [1; 2; 2]);
           stored (Some [1; 1; 3])], 3, true).
Proof. vm_compute. reflexivity. Qed.

(** A peer that negotiated [gossip_queries] gets nothing before it sets a
    filter, and everything in its window after. *)
Example modern_peer_filter :
  (fun p => (dc p, gossip_timestamp_min p, gossip_timestamp_max p))
  <$> peer_run sample_X dev_default (new_peer sample_rstate key_m true false)
        [(sample_rstate, ev_wake);
         (sample_rstate,
          ev_recv (WIRE_GOSSIP_TIMESTAMP_FILTER (Some (sample_chain, 150, 100))));
         (sample_rstate, ev_wake); (sample_rstate, ev_wake)]
  = Some ([wire_gossip_timestamp_filter sample_chain 0 UINT32_MAX;
           stored (Some [1; 2; 2])], 150, 249).
Proof. vm_compute. reflexivity. Qed.

(** * Further properties of the daemon *)

(** ** Projections of the field updates, continued *)

Lemma num_scid_queries_outstanding_set_broadcast_index v p : num_scid_queries_outstanding (set_broadcast_index v p) = num_scid_queries_outstanding p.
Proof. reflexivity. Qed.

Lemma num_scid_queries_outstanding_set_gossip_timestamp_min v p : num_scid_queries_outstanding (set_gossip_timestamp_min v p) = num_scid_queries_outstanding p.
Proof. reflexivity. Qed.

Lemma num_scid_queries_outstanding_set_gossip_timestamp_max v p : num_scid_queries_outstanding (set_gossip_timestamp_max v p) = num_scid_queries_outstanding p.
Proof. reflexivity. Qed.

Lemma num_scid_queries_outstanding_set_scid_queries v p : num_scid_queries_outstanding (set_scid_queries v p) = num_scid_queries_outstanding p.
Proof. reflexivity. Qed.

Lemma num_scid_queries_outstanding_set_scid_query_idx v p : num_scid_queries_outstanding (set_scid_query_idx v p) = num_scid_queries_outstanding p.
Proof. reflexivity. Qed.

Lemma num_scid_queries_outstanding_set_scid_query_nodes v p : num_scid_queries_outstanding (set_scid_query_nodes v p) = num_scid_queries_outstanding p.
Proof. reflexivity. Qed.

Lemma num_scid_queries_outstanding_set_scid_query_nodes_idx v p : num_scid_queries_outstanding (set_scid_query_nodes_idx v p) = num_scid_queries_outstanding p.
Proof. reflexivity. Qed.

Lemma num_scid_queries_outstanding_set_gossip_timer v p : num_scid_queries_outstanding (set_gossip_timer v p) = num_scid_queries_outstanding p.
Proof. reflexivity. Qed.

Lemma num_scid_queries_outstanding_set_num_scid_queries_outstanding v p : num_scid_queries_outstanding (set_num_scid_queries_outstanding v p) = v.
Proof. reflexivity. Qed.

Lemma num_scid_queries_outstanding_set_num_pings_outstanding v p : num_scid_queries_outstanding (set_num_pings_outstanding v p) = num_scid_queries_outstanding p.
Proof. reflexivity. Qed.

Lemma num_scid_queries_outstanding_set_dc v p : num_scid_queries_outstanding (set_dc v p) = num_scid_queries_outstanding p.
Proof. reflexivity. Qed.

Lemma peer_id_set_broadcast_index v p : peer_id (set_broadcast_index v p) = peer_id p.
Proof. reflexivity. Qed.

Lemma peer_id_set_gossip_timestamp_min v p : peer_id (set_gossip_timestamp_min v p) = peer_id p.
Proof. reflexivity. Qed.

Lemma peer_id_set_gossip_timestamp_max v p : peer_id (set_gossip_timestamp_max v p) = peer_id p.
Proof. reflexivity. Qed.

Lemma peer_id_set_scid_queries v p : peer_id (set_scid_queries v p) = peer_id p.
Proof. reflexivity. Qed.

Lemma peer_id_set_scid_query_idx v p : peer_id (set_scid_query_idx v p) = peer_id p.
Proof. reflexivity. Qed.

Lemma peer_id_set_scid_query_nodes v p : peer_id (set_scid_query_nodes v p) = peer_id p.
Proof. reflexivity. Qed.

Lemma peer_id_set_scid_query_nodes_idx v p : peer_id (set_scid_query_nodes_idx v p) = peer_id p.
Proof. reflexivity. Qed.

Lemma peer_id_set_gossip_timer v p : peer_id (set_gossip_timer v p) = peer_id p.
Proof. reflexivity. Qed.

Lemma peer_id_set_num_scid_queries_outstanding v p : peer_id (set_num_scid_queries_outstanding v p) = peer_id p.
Proof. reflexivity. Qed.

Lemma peer_id_set_num_pings_outstanding v p : peer_id (set_num_pings_outstanding v p) = peer_id p.
Proof. reflexivity. Qed.

Lemma peer_id_set_dc v p : peer_id (set_dc v p) = peer_id p.
Proof. reflexivity. Qed.

Lemma gossip_queries_feature_set_broadcast_index v p : gossip_queries_feature (set_broadcast_index v p) = gossip_queries_feature p.
Proof. reflexivity. Qed.

Lemma gossip_queries_feature_set_gossip_timestamp_min v p : gossip_queries_feature (set_gossip_timestamp_min v p) = gossip_queries_feature p.
Proof. reflexivity. Qed.

Lemma gossip_queries_feature_set_gossip_timestamp_max v p : gossip_queries_feature (set_gossip_timestamp_max v p) = gossip_queries_feature p.
Proof. reflexivity. Qed.

Lemma gossip_queries_feature_set_scid_queries v p : gossip_queries_feature (set_scid_queries v p) = gossip_queries_feature p.
Proof. reflexivity. Qed.

Lemma gossip_queries_feature_set_scid_query_idx v p : gossip_queries_feature (set_scid_query_idx v p) = gossip_queries_feature p.
Proof. reflexivity. Qed.

Lemma gossip_queries_feature_set_scid_query_nodes v p : gossip_queries_feature (set_scid_query_nodes v p) = gossip_queries_feature p.
Proof. reflexivity. Qed.

Lemma gossip_queries_feature_set_scid_query_nodes_idx v p : gossip_queries_feature (set_scid_query_nodes_idx v p) = gossip_queries_feature p.
Proof. reflexivity. Qed.

Lemma gossip_queries_feature_set_gossip_timer v p : gossip_queries_feature (set_gossip_timer v p) = gossip_queries_feature p.
Proof. reflexivity. Qed.

Lemma gossip_queries_feature_set_num_scid_queries_outstanding v p : gossip_queries_feature (set_num_scid_queries_outstanding v p) = gossip_queries_feature p.
Proof. reflexivity. Qed.

Lemma gossip_queries_feature_set_num_pings_outstanding v p : gossip_queries_feature (set_num_pings_outstanding v p) = gossip_queries_feature p.
Proof. reflexivity. Qed.

Lemma gossip_queries_feature_set_dc v p : gossip_queries_feature (set_dc v p) = gossip_queries_feature p.
Proof. reflexivity. Qed.

Lemma initial_routing_sync_feature_set_broadcast_index v p : initial_routing_sync_feature (set_broadcast_index v p) = initial_routing_sync_feature p.
Proof. reflexivity. Qed.

Lemma initial_routing_sync_feature_set_gossip_timestamp_min v p : initial_routing_sync_feature (set_gossip_timestamp_min v p) = initial_routing_sync_feature p.
Proof. reflexivity. Qed.

Lemma initial_routing_sync_feature_set_gossip_timestamp_max v p : initial_routing_sync_feature (set_gossip_timestamp_max v p) = initial_routing_sync_feature p.
Proof. reflexivity. Qed.

Lemma initial_routing_sync_feature_set_scid_queries v p : initial_routing_sync_feature (set_scid_queries v p) = initial_routing_sync_feature p.
Proof. reflexivity. Qed.

Lemma initial_routing_sync_feature_set_scid_query_idx v p : initial_routing_sync_feature (set_scid_query_idx v p) = initial_routing_sync_feature p.
Proof. reflexivity. Qed.

Lemma initial_routing_sync_feature_set_scid_query_nodes v p : initial_routing_sync_feature (set_scid_query_nodes v p) = initial_routing_sync_feature p.
Proof. reflexivity. Qed.

Lemma initial_routing_sync_feature_set_scid_query_nodes_idx v p : initial_routing_sync_feature (set_scid_query_nodes_idx v p) = initial_routing_sync_feature p.
Proof. reflexivity. Qed.

Lemma initial_routing_sync_feature_set_gossip_timer v p : initial_routing_sync_feature (set_gossip_timer v p) = initial_routing_sync_feature p.
Proof. reflexivity. Qed.

Lemma initial_routing_sync_feature_set_num_scid_queries_outstanding v p : initial_routing_sync_feature (set_num_scid_queries_outstanding v p) = initial_routing_sync_feature p.
Proof. reflexivity. Qed.

Lemma initial_routing_sync_feature_set_num_pings_outstanding v p : initial_routing_sync_feature (set_num_pings_outstanding v p) = initial_routing_sync_feature p.
Proof. reflexivity. Qed.

Lemma initial_routing_sync_feature_set_dc v p : initial_routing_sync_feature (set_dc v p) = initial_routing_sync_feature p.
Proof. reflexivity. Qed.

#[global] Hint Rewrite
  num_scid_queries_outstanding_set_broadcast_index num_scid_queries_outstanding_set_gossip_timestamp_min
  num_scid_queries_outstanding_set_gossip_timestamp_max num_scid_queries_outstanding_set_scid_queries
  num_scid_queries_outstanding_set_scid_query_idx num_scid_queries_outstanding_set_scid_query_nodes
  num_scid_queries_outstanding_set_scid_query_nodes_idx num_scid_queries_outstanding_set_gossip_timer
  num_scid_queries_outstanding_set_num_scid_queries_outstanding num_scid_queries_outstanding_set_num_pings_outstanding
  num_scid_queries_outstanding_set_dc peer_id_set_broadcast_index
  peer_id_set_gossip_timestamp_min peer_id_set_gossip_timestamp_max
  peer_id_set_scid_queries peer_id_set_scid_query_idx
  peer_id_set_scid_query_nodes peer_id_set_scid_query_nodes_idx
  peer_id_set_gossip_timer peer_id_set_num_scid_queries_outstanding
  peer_id_set_num_pings_outstanding peer_id_set_dc
  gossip_queries_feature_set_broadcast_index gossip_queries_feature_set_gossip_timestamp_min
  gossip_queries_feature_set_gossip_timestamp_max gossip_queries_feature_set_scid_queries
  gossip_queries_feature_set_scid_query_idx gossip_queries_feature_set_scid_query_nodes
  gossip_queries_feature_set_scid_query_nodes_idx gossip_queries_feature_set_gossip_timer
  gossip_queries_feature_set_num_scid_queries_outstanding gossip_queries_feature_set_num_pings_outstanding
  gossip_queries_feature_set_dc initial_routing_sync_feature_set_broadcast_index
  initial_routing_sync_feature_set_gossip_timestamp_min initial_routing_sync_feature_set_gossip_timestamp_max
  initial_routing_sync_feature_set_scid_queries initial_routing_sync_feature_set_scid_query_idx
  initial_routing_sync_feature_set_scid_query_nodes initial_routing_sync_feature_set_scid_query_nodes_idx
  initial_routing_sync_feature_set_gossip_timer initial_routing_sync_feature_set_num_scid_queries_outstanding
  initial_routing_sync_feature_set_num_pings_outstanding initial_routing_sync_feature_set_dc
  : peer.

(** ** Listing channels *)




Lemma append_half_channel_app entries c idx :
  append_half_channel entries c idx = entries ++ append_half_channel [] c idx.
Proof.
  unfold append_half_channel. destruct (negb _); [by rewrite app_nil_r | done].
Qed.




(** ** Route hints *)

Lemma incoming_fold_spec d n (l : list Z) : forall r ri,
  ri ∈ foldl (incoming_step d n) r l <->
  ri ∈ r \/
  exists k c, k ∈ l /\ chanmap (rstate d) !! k = Some c /\
    is_chan_public c = true /\
    is_halfchan_enabled (half_at c (half_chan_to n c)) = true /\
    ri = incoming_hint n c.
Proof.
  induction l as [|k0 l IH]; intros r ri; cbn [foldl].
  - split; [by left|]. intros [H | (k & c & Hk & _)]; [done | inversion Hk].
  - rewrite IH. unfold incoming_step at 1.
    destruct (chanmap (rstate d) !! k0) as [c0|] eqn:E0.
    + destruct (is_chan_public c0) eqn:Ep; cbn [negb].
      * destruct (is_halfchan_enabled (half_at c0 (half_chan_to n c0))) eqn:Ee;
          cbn [negb].
        -- rewrite elem_of_app, list_elem_of_singleton. split.
           ++ intros [[H | ->] | (k & c & Hk & H)]; [by left | right | right].
              ** exists k0, c0. split; [left|]. done.
              ** exists k, c. split; [by right | done].
           ++ intros [H | (k & c & Hk & Hc & Hpub & Hen & ->)]; [left; by left|].
              apply elem_of_cons in Hk as [-> | Hk].
              ** left. right. assert (c = c0) by congruence. by subst.
              ** right. by exists k, c.
        -- split.
           ++ intros [H | (k & c & Hk & H)]; [by left | right].
              exists k, c. split; [by right | done].
           ++ intros [H | (k & c & Hk & Hc & Hpub & Hen & ->)]; [by left|].
              apply elem_of_cons in Hk as [-> | Hk]; [congruence|].
              right. by exists k, c.
      * split.
        -- intros [H | (k & c & Hk & H)]; [by left | right].
           exists k, c. split; [by right | done].
        -- intros [H | (k & c & Hk & Hc & Hpub & Hen & ->)]; [by left|].
           apply elem_of_cons in Hk as [-> | Hk]; [congruence|].
           right. by exists k, c.
    + split.
      * intros [H | (k & c & Hk & H)]; [by left | right].
        exists k, c. split; [by right | done].
      * intros [H | (k & c & Hk & Hc & Hpub & Hen & ->)]; [by left|].
        apply elem_of_cons in Hk as [-> | Hk]; [congruence|].
        right. by exists k, c.
Qed.

(** X2.  "Don't leak private channels": the route hints answered to
    [get_incoming_channels] are exactly the hints of the channels of our
    node that are public and whose half towards us is enabled; a private
    channel, or one whose incoming half is undefined or disabled, gives no
    hint, and without a node of our own the answer is empty. *)
Theorem get_incoming_channels_public_enabled d :
  exists hints,
    get_incoming_channels d true = Some hints /\
    forall ri, ri ∈ hints <->
      exists n k c,
        get_node (rstate d) (daemon_id d) = Some n /\
        k ∈ chans n /\ chanmap (rstate d) !! k = Some c /\
        is_chan_public c = true /\
        is_halfchan_enabled (half_at c (half_chan_to n c)) = true /\
        ri = incoming_hint n c.
Proof.
  unfold get_incoming_channels. cbn [negb].
  destruct (get_node (rstate d) (daemon_id d)) as [n|] eqn:En.
  - eexists. split; [reflexivity|]. intros ri.
    rewrite incoming_fold_spec. split.
    + intros [H | (k & c & H)]; [inversion H|]. by exists n, k, c.
    + intros (n' & k & c & Hn & H). injection Hn as <-. right. by exists k, c.
  - exists []. split; [done|]. intros ri. split; [intros H; inversion H|].
    intros (n & k & c & Hn & _). done.
Qed.

(** ** The other end of a local channel *)


(** ** Closing and start-up *)

Lemma append_half_channel_disabled c idx :
  append_half_channel [] (set_local_disabled true c) idx
  = entry_disabled <$> append_half_channel [] c idx.
Proof.
  unfold append_half_channel, half_at. cbn [half set_local_disabled].
  by destruct (negb _).
Qed.

(** X4.  After [local_channel_close] the channel is still in the graph and
    still listed by [getchannels], with the same entries as before except
    that each now reports [local_disabled]; no other channel changes and
    nothing is queued to a peer or sent to the main daemon. *)
Theorem local_channel_close_keeps_listing d s :
  exists d' before,
    handle_local_channel_close d (Some s) = Some d' /\
    getchannels_req d (Some (Some s)) = Some before /\
    getchannels_req d' (Some (Some s)) = Some (entry_disabled <$> before) /\
    peers d' = peers d /\ master d' = master d /\
    dom (chanmap (rstate d')) = dom (chanmap (rstate d)) /\
    forall k, k <> s -> get_channel (rstate d') k = get_channel (rstate d) k.
Proof.
  unfold handle_local_channel_close, getchannels_req, get_channel.
  destruct (chanmap (rstate d) !! s) as [c|] eqn:E.
  - eexists _, _. split; [reflexivity|]. split; [reflexivity|].
    cbn [rstate set_rstate chanmap set_chanmap peers master].
    rewrite lookup_insert_eq. split; [|split; [done|split; [done|split]]].
    + f_equal. unfold append_channel.
      rewrite (append_half_channel_app (append_half_channel [] _ 0)).
      rewrite (append_half_channel_app (append_half_channel [] c 0)).
      rewrite !append_half_channel_disabled. by rewrite fmap_app.
    + rewrite dom_insert_L. apply elem_of_dom_2 in E. set_solver.
    + intros k Hk. by rewrite lookup_insert_ne.
  - exists d, []. rewrite E. done.
Qed.




(** ** New peers *)

Lemma disable_fold_peers n (l : list Z) : forall d,
  peers (foldl (disable_step n) d l) = peers d /\
  master (foldl (disable_step n) d l) = master d /\
  chain_hash (rstate (foldl (disable_step n) d l)) = chain_hash (rstate d) /\
  broadcasts (rstate (foldl (disable_step n) d l)) = broadcasts (rstate d).
Proof.
  induction l as [|k l IH]; intros d; cbn [foldl]; [done|].
  destruct (IH (disable_step n d k)) as (-> & -> & -> & ->).
  unfold disable_step. destruct (chanmap (rstate d) !! k); [|done].
  by destruct (pubkey_eq _ _).
Qed.

Lemma destroy_peer_peers d i p :
  peers d !! i = Some p ->
  peers (destroy_peer d i) = delete i (peers d) /\
  master (destroy_peer d i) = master d /\
  chain_hash (rstate (destroy_peer d i)) = chain_hash (rstate d) /\
  broadcasts (rstate (destroy_peer d i)) = broadcasts (rstate d).
Proof.
  intros Hp. unfold destroy_peer. rewrite Hp.
  destruct (get_node _ _) as [n|]; [|done].
  rewrite peer_disable_channels_fold.
  destruct (disable_fold_peers n (chans n) (set_peers (delete i (peers d)) d))
    as (-> & -> & -> & ->).
  done.
Qed.

Lemma find_peer_Some d id i :
  find_peer d id = Some i ->
  exists p, peers d !! i = Some p /\ peer_id p = id.
Proof.
  unfold find_peer. intros H. apply fmap_Some in H as [[j p] [H ->]].
  apply list_find_Some in H as (H & Hid & _).
  exists p. split; [done|]. by apply bool_decide_eq_true in Hid.
Qed.

Lemma find_peer_None d id :
  find_peer d id = None <-> id ∉ peer_id <$> peers d.
Proof.
  unfold find_peer. rewrite fmap_None, list_find_None, Forall_forall.
  rewrite list_elem_of_fmap. split.
  - intros H (p & -> & Hin). apply (H p Hin). by apply bool_decide_eq_true.
  - intros H p Hin Hid. apply H. exists p. split; [|done].
    symmetry. by apply bool_decide_eq_true in Hid.
Qed.

Lemma unique_delete_absent (l : list peer) i p :
  NoDup (peer_id <$> l) -> l !! i = Some p ->
  NoDup (peer_id <$> delete i l) /\ peer_id p ∉ peer_id <$> delete i l.
Proof.
  intros Hnd Hi. rewrite delete_take_drop.
  rewrite <- (take_drop_middle l i p Hi) in Hnd.
  rewrite fmap_app, fmap_cons in Hnd. rewrite fmap_app.
  apply NoDup_app in Hnd as (H1 & H2 & H3).
  apply NoDup_cons in H3 as (H3 & H4). split.
  - apply NoDup_app. split; [done|]. split; [|done].
    intros x Hx Hx'. apply (H2 x Hx). by right.
  - intros Hin. apply elem_of_app in Hin as [Hin|Hin]; [|done].
    apply (H2 _ Hin). by left.
Qed.

(** X6.  [connectd_new_peer] keeps the ids of [daemon->peers] unique: when
    they are unique before and [socketpair] succeeds, the peer known under
    the same id is dropped, the new one is put last in the state
    [new_peer] describes, [find_peer] finds it under its id, the ids are
    unique again, every peer with another id is kept and connectd is told
    of the success and handed the descriptor. *)
Theorem connectd_new_peer_unique d id gossip_queries initial_routing_sync :
  peers_unique d ->
  exists d' i,
    connectd_new_peer d (Some (id, gossip_queries, initial_routing_sync)) true
    = Some (d', [gossip_new_peer_reply true; connectd_fd]) /\
    peers_unique d' /\
    find_peer d' id = Some i /\
    peers d' !! i
    = Some (new_peer (rstate d) id gossip_queries initial_routing_sync) /\
    S i = length (peers d') /\
    forall p, peer_id p <> id -> p ∈ peers d' <-> p ∈ peers d.
Proof.
  intros Hu. unfold connectd_new_peer. cbn [negb].
  set (d0 := match find_peer d id with Some i => destroy_peer d i | None => d end).
  assert (H0 : NoDup (peer_id <$> peers d0) /\ (id ∉ peer_id <$> peers d0) /\
               chain_hash (rstate d0) = chain_hash (rstate d) /\
               broadcasts (rstate d0) = broadcasts (rstate d) /\
               forall p, peer_id p <> id -> p ∈ peers d0 <-> p ∈ peers d).
  { subst d0. destruct (find_peer d id) as [i|] eqn:Ef.
    - apply find_peer_Some in Ef as (p & Hp & Hid).
      destruct (destroy_peer_peers d i p Hp) as (-> & _ & -> & ->).
      destruct (unique_delete_absent (peers d) i p Hu Hp) as (H1 & H2).
      rewrite Hid in H2. split; [done|]. split; [done|]. split; [done|].
      split; [done|]. intros q Hq. rewrite delete_take_drop.
      rewrite <- (take_drop_middle (peers d) i p Hp) at 3.
      rewrite !elem_of_app, elem_of_cons. split; [tauto|].
      intros [H | [-> | H]]; [tauto | congruence | tauto].
    - apply find_peer_None in Ef. done. }
  destruct H0 as (Hnd & Habs & Hch & Hbc & Hkeep).
  exists (set_peers
            (peers d0 ++
             [wake_gossip_out
                (new_peer (rstate d0) id gossip_queries initial_routing_sync)]) d0),
    (length (peers d0)).
  split; [reflexivity|]. cbn [peers set_peers].
  assert (Hnew : wake_gossip_out
                   (new_peer (rstate d0) id gossip_queries initial_routing_sync)
                 = new_peer (rstate d) id gossip_queries initial_routing_sync).
  { unfold new_peer, wake_gossip_out, set_gossip_timer. cbn. by rewrite Hch, Hbc. }
  rewrite Hnew. split; [|split; [|split; [|split]]].
  - unfold peers_unique. cbn [peers set_peers]. rewrite fmap_app.
    apply NoDup_app. split; [done|]. split.
    + intros x Hx Hx'. apply list_elem_of_singleton in Hx'. cbn in Hx'. by subst.
    + apply NoDup_singleton.
  - unfold find_peer. cbn [peers set_peers].
    rewrite list_find_app_r.
    + cbn. rewrite decide_True; [done|]. by apply bool_decide_eq_true.
    + apply list_find_None, Forall_forall. intros p Hp Hid.
      apply bool_decide_eq_true in Hid. apply Habs.
      apply list_elem_of_fmap. by exists p.
  - by rewrite lookup_app_r, Nat.sub_diag.
  - rewrite length_app. cbn. lia.
  - intros p Hp. rewrite elem_of_app, list_elem_of_singleton, <- (Hkeep p Hp).
    split; [|tauto]. intros [H | ->]; [done|]. done.
Qed.

Lemma connectd_new_peer_unique_witness :
  exists d' i,
    connectd_new_peer sample_daemon (Some (key_n, true, false)) true
    = Some (d', [gossip_new_peer_reply true; connectd_fd]) /\
    peers_unique d' /\
    find_peer d' key_n = Some i /\
    peers d' !! i = Some (new_peer (rstate sample_daemon) key_n true false) /\
    S i = length (peers d') /\
    forall p, peer_id p <> key_n -> p ∈ peers d' <-> p ∈ peers sample_daemon.
Proof.
  apply (connectd_new_peer_unique sample_daemon key_n true false).
  unfold peers_unique. cbn.
  apply NoDup_cons. split; [|apply NoDup_singleton].
  intros H. apply list_elem_of_singleton in H. vm_compute in H. discriminate H.
Defined.

(** ** Outbound SCID queries *)

(** X7.  A [query_scids] request that parses always gets an outcome, one
    of two, and the request decides which.  When the peer is unknown, or
    has not negotiated [gossip_queries], or the encoding of the ids is
    refused by the codec (more than 65535 - 2 - 34 bytes, or than the
    developer cap), control is answered at once with
    [gossip_scids_reply(false, false)] and nothing else changes.
    Otherwise, and only then, nothing is sent to control, and the peer
    found gets one [query_short_channel_ids] for our chain carrying the
    encoding of the ids, with its count of outstanding queries raised by
    one. *)
Theorem query_scids_req_outcome X dev d id (scids : list Z) :
  exists d',
    query_scids_req X dev d (Some (id, scids)) = Some d' /\
    ((d' = master_send d (gossip_scids_reply false false) /\
      (find_peer d id = None \/
       (exists i p, find_peer d id = Some i /\ peers d !! i = Some p /\
          gossip_queries_feature p = false) \/
       (exists body,
          encode_scids X dev scids (65535 - 2 - (32 + 2)) = Some (false, body))))
     \/
     exists i p body,
       find_peer d id = Some i /\ peers d !! i = Some p /\
       gossip_queries_feature p = true /\
       encode_scids X dev scids (65535 - 2 - (32 + 2)) = Some (true, body) /\
       master d' = master d /\ rstate d' = rstate d /\
       peers d'
       = <[i := set_num_scid_queries_outstanding
                  (to_u64 (num_scid_queries_outstanding p + 1))
                  (queue_peer_msg p
                     (wire_query_short_channel_ids (chain_hash (rstate d)) body))]>
           (peers d)).
Proof.
  unfold query_scids_req.
  destruct (find_peer d id) as [i|] eqn:Ef;
    [|eexists; split; [reflexivity|left; split; [done|by left]]].
  destruct (find_peer_Some d id i Ef) as (p & Hp & _). rewrite Hp.
  cbn [fmap option_fmap option_map default].
  destruct (gossip_queries_feature p) eqn:Eg; cbn [negb].
  2:{ eexists. split; [reflexivity|]. left. split; [done|].
      right. left. by exists i, p. }
  destruct (encode_scids_total X dev scids (65535 - 2 - (32 + 2)))
    as (ok & body & Henc).
  pose proof Henc as Henc'. unfold encode_scids in Henc'. rewrite Henc'.
  destruct ok.
  2:{ eexists. split; [reflexivity|]. left. split; [done|].
      right. right. by exists body. }
  eexists. split; [reflexivity|]. right. exists i, p, body.
  repeat (split; [done|]). unfold with_peer. cbn [peers set_peers].
  apply list_eq. intros j. destruct (decide (j = i)) as [->|Hne].
  - rewrite list_lookup_alter_eq, Hp, list_lookup_insert_eq; [done|].
    by apply lookup_lt_Some in Hp.
  - rewrite list_lookup_alter_ne, list_lookup_insert_ne by done. done.
Qed.

(** The two outcomes exclude one another: a request that meets none of the
    three reasons for a refusal is not refused. *)
Example query_scids_req_sent :
  query_scids_req sample_X dev_default sample_daemon (Some (key_m, [scid_b1]))
  <> Some (master_send sample_daemon (gossip_scids_reply false false)).
Proof. vm_compute. discriminate. Qed.

(** X8.  The answer closes the query: after [query_scids_req] has sent a
    query to a peer, a [reply_short_channel_ids_end] of that peer for our
    chain is accepted, brings the count of outstanding queries back to
    what it was before the request, queues no error, and is forwarded to
    control as [gossip_scids_reply(true, complete)]. *)
Theorem query_scids_round_trip X dev d id (scids : list Z) i p body complete :
  find_peer d id = Some i ->
  peers d !! i = Some p ->
  gossip_queries_feature p = true ->
  encode_scids X dev scids (65535 - 2 - (32 + 2)) = Some (true, body) ->
  0 <= num_scid_queries_outstanding p < UINT64_MAX ->
  exists d1 p1 p2,
    query_scids_req X dev d (Some (id, scids)) = Some d1 /\
    peers d1 !! i = Some p1 /\
    dc p1 = dc p ++ [wire_query_short_channel_ids (chain_hash (rstate d)) body] /\
    handle_reply_short_channel_ids_end (rstate d1) p1
      (Some (chain_hash (rstate d1), complete))
    = (p2, [gossip_scids_reply true (negb (complete =? 0))]) /\
    num_scid_queries_outstanding p2 = num_scid_queries_outstanding p /\
    dc p2 = dc p1.
Proof.
  intros Hf Hp Hg Henc Hcnt. unfold query_scids_req. rewrite Hf, Hp.
  cbn [fmap option_fmap option_map default]. rewrite Hg. cbn [negb].
  unfold encode_scids in Henc. rewrite Henc.
  eexists _, _, _. split; [reflexivity|].
  unfold with_peer. cbn [peers set_peers rstate].
  rewrite list_lookup_alter_eq, Hp. cbn [fmap option_fmap option_map].
  split; [reflexivity|]. split; [by peer_simpl|].
  unfold handle_reply_short_channel_ids_end.
  unfold bitcoin_blkid_eq. rewrite bool_decide_eq_true_2 by done. cbn [negb].
  assert (Hu : to_u64 (num_scid_queries_outstanding p + 1)
               = num_scid_queries_outstanding p + 1).
  { unfold to_u64, UINT64_MAX in *. apply Z.mod_small.
    change (2 ^ 64) with 18446744073709551616. lia. }
  peer_simpl. rewrite Hu.
  destruct (num_scid_queries_outstanding p + 1 =? 0) eqn:E0;
    [apply Z.eqb_eq in E0; lia|].
  split; [reflexivity|]. peer_simpl. split; [lia | done].
Qed.

Lemma query_scids_round_trip_witness :
  exists d1 p1 p2,
    query_scids_req sample_X dev_default sample_daemon (Some (key_m, [scid_b1]))
    = Some d1 /\
    peers d1 !! 0%nat = Some p1 /\
    dc p1
    = dc (new_peer sample_rstate key_m true false)
      ++ [wire_query_short_channel_ids (chain_hash (rstate sample_daemon))
            (SHORTIDS_UNCOMPRESSED :: towire_u64 scid_b1)] /\
    handle_reply_short_channel_ids_end (rstate d1) p1
      (Some (chain_hash (rstate d1), 1))
    = (p2, [gossip_scids_reply true (negb (1 =? 0))]) /\
    num_scid_queries_outstanding p2
    = num_scid_queries_outstanding (new_peer sample_rstate key_m true false) /\
    dc p2 = dc p1.
Proof.
  apply (query_scids_round_trip sample_X dev_default sample_daemon key_m
           [scid_b1] 0%nat (new_peer sample_rstate key_m true false)).
  - vm_compute. reflexivity.
  - reflexivity.
  - reflexivity.
  - vm_compute. reflexivity.
  - vm_compute. split; [discriminate | reflexivity].
Defined.

(** ** The windows of the replies to [query_channel_range] *)

Lemma tiles_app lo mid hi ws1 ws2 :
  tiles lo mid ws1 -> tiles mid hi ws2 -> tiles lo hi (ws1 ++ ws2).
Proof.
  revert lo. induction ws1 as [|w ws1 IH]; intros lo H1 H2; cbn in *.
  - by subst.
  - destruct H1 as (? & ? & H1). eauto.
Qed.

Lemma tiles_le lo hi ws : tiles lo hi ws -> lo <= hi.
Proof.
  revert lo. induction ws as [|w ws IH]; intros lo H; cbn in H; [lia|].
  destruct H as (? & ? & H). apply IH in H. lia.
Qed.

Lemma tiles_cover lo hi ws b :
  tiles lo hi ws ->
  (exists w, w ∈ ws /\ w.1 <= b < w.1 + w.2) <-> lo <= b < hi.
Proof.
  revert lo. induction ws as [|w ws IH]; intros lo H; cbn in H.
  - split; [intros (w & Hw & _); inversion Hw | lia].
  - destruct H as (Hw1 & Hw2 & H). pose proof (tiles_le _ _ _ H) as Hle.
    specialize (IH _ H). split.
    + intros (w' & Hin & Hb). apply elem_of_cons in Hin as [-> | Hin]; [lia|].
      destruct (proj1 IH) as [? ?]; [by exists w'|]. lia.
    + intros Hb. destruct (decide (b < w.1 + w.2)).
      * exists w. split; [left | lia].
      * destruct (proj2 IH) as (w' & Hin & Hb'); [lia|].
        exists w'. split; [by right | done].
Qed.

Lemma range_encoding_walk r first num :
  exists L : list Z,
    range_encoding r first num
    = Some (foldl encode_add_short_channel_id encode_short_channel_ids_start L) /\
    range_ids r first (to_u32 (first + num) - first) L.
Proof.
  unfold range_encoding.
  destruct (chanmap_walk_spec (S (size (chanmap r))) (chanmap r)
              (to_u32 (first + num)) (range_start first)
              encode_short_channel_ids_start)
    as (L & HL & Hmem).
  { pose proof (keys_above_size (chanmap r) (range_start first)). lia. }
  exists L. rewrite foldl_encode_add. split; [done|].
  intros s. rewrite Hmem. replace (first + (to_u32 (first + num) - first))
    with (to_u32 (first + num)) by lia. done.
Qed.

Section range_windows.
Variables (X : collaborators) (dev : dev_knobs) (r : routing_state).

(** The replies queued for a window whose every block fits a reply: their
    windows tile the window asked for, and each carries the ids the walk
    gathers for its own window. *)
Lemma queue_channel_ranges_tiles fuel : forall p first num,
  0 <= first -> 1 <= num -> first + num < 2 ^ 32 ->
  num <= 2 ^ Z.of_nat fuel ->
  (forall b, first <= b < first + num -> range_fits X dev r b 1 = true) ->
  exists chunks msgs p',
    queue_channel_ranges (S fuel) X dev r p first num = Some p' /\
    dc p' = dc p ++ msgs /\
    Forall2 (reply_carries X dev r) chunks msgs /\
    tiles first (first + num) (fst <$> chunks) /\
    Forall (fun chunk => range_ids r chunk.1.1 chunk.1.2 chunk.2) chunks.
Proof.
  assert (H32 : 2 ^ 32 = 4294967296) by reflexivity.
  induction fuel as [|fuel IH]; intros p first num Hf Hn Hsum Hpow Hfits;
    rewrite queue_channel_ranges_S;
    destruct (range_encoding_walk r first num) as (L & HL & Hmem);
    rewrite HL;
    (assert (Hlim : to_u32 (first + num) - first = num)
       by (unfold to_u32; rewrite Z.mod_small by lia; lia));
    rewrite Hlim in Hmem;
    destruct (encode_scids_total X dev L max_encoded_bytes) as (ok & body & Henc);
    pose proof Henc as Henc'; unfold encode_scids in Henc'; rewrite Henc';
    destruct ok.
  1,3: exists [(first, num, L)], [wire_reply_channel_range (chain_hash r) first num 1 body];
    eexists; (split; [reflexivity|]); (split; [done|]);
    (split; [repeat constructor; by exists body|]);
    (split; [cbn; lia|]); (constructor; [exact Hmem | constructor]).
  - assert (num = 1) as -> by (cbn in Hpow; lia).
    specialize (Hfits first ltac:(lia)). unfold range_fits in Hfits.
    rewrite HL, Henc' in Hfits. done.
  - destruct (num <=? 1) eqn:E1.
    + apply Z.leb_le in E1. assert (num = 1) as -> by lia.
      specialize (Hfits first ltac:(lia)). unfold range_fits in Hfits.
      rewrite HL, Henc' in Hfits. done.
    + apply Z.leb_gt in E1.
      assert (Hh : 1 <= num / 2 /\ 2 * (num / 2) <= num < 2 * (num / 2) + 2).
      { pose proof (Z.div_mod num 2 ltac:(lia)).
        pose proof (Z.mod_pos_bound num 2 ltac:(lia)). lia. }
      assert (Hp2 : 2 ^ Z.of_nat (S fuel) = 2 * 2 ^ Z.of_nat fuel).
      { rewrite Nat2Z.inj_succ, Z.pow_succ_r by lia. done. }
      assert (Hmid : to_u32 (first + num / 2) = first + num / 2)
        by (unfold to_u32; apply Z.mod_small; lia).
      rewrite Hmid.
      destruct (IH p first (num / 2))
        as (ch1 & ms1 & p1 & Hq1 & Hd1 & Hc1 & Ht1 & Hm1);
        [lia | lia | lia | lia | intros b Hb; apply Hfits; lia |].
      rewrite Hq1.
      destruct (IH p1 (first + num / 2) (num - num / 2))
        as (ch2 & ms2 & p2 & Hq2 & Hd2 & Hc2 & Ht2 & Hm2);
        [lia | lia | lia | lia | intros b Hb; apply Hfits; lia |].
      exists (ch1 ++ ch2), (ms1 ++ ms2), p2. split; [done|].
      split; [by rewrite Hd2, Hd1, app_assoc|].
      split; [by apply Forall2_app|].
      split; [|by apply Forall_app].
      rewrite fmap_app. apply (tiles_app _ (first + num / 2)); [done|].
      replace (first + num) with (first + num / 2 + (num - num / 2)) by lia.
      done.
Qed.

End range_windows.

(** X9.  The replies to an accepted [query_channel_range] partition the
    window asked for: when the window does not overflow 32 bits and the ids
    of every single block fit one reply, the [reply_channel_range] messages
    queued, in order, are for our chain with [complete] set and have
    windows of at least one block each that start at [first_blocknum],
    follow one another without gap or overlap and end at
    [first_blocknum + number_of_blocks]. *)
Theorem channel_range_replies_tile X dev r p chain first num :
  bitcoin_blkid_eq (chain_hash r) chain = true ->
  0 <= first -> 1 <= num -> first + num < 2 ^ 32 ->
  (forall b, first <= b < first + num -> range_fits X dev r b 1 = true) ->
  exists (ws : list (Z * Z)) msgs p',
    handle_query_channel_range X dev r p (Some (chain, first, num)) = Some p' /\
    dc p' = dc p ++ msgs /\
    tiles first (first + num) ws /\
    Forall2 (fun w msg => exists body,
               msg = wire_reply_channel_range (chain_hash r) w.1 w.2 1 body)
            ws msgs.
Proof.
  intros Hc Hf Hn Hsum Hfits. unfold handle_query_channel_range.
  rewrite Hc. cbn [negb].
  assert (H32 : 2 ^ 32 = 4294967296) by reflexivity.
  assert (Hlim : to_u32 (first + num) = first + num)
    by (unfold to_u32; apply Z.mod_small; lia).
  rewrite Hlim.
  destruct (first + num <? first) eqn:E; [apply Z.ltb_lt in E; exfalso; lia|].
  destruct (queue_channel_ranges_tiles X dev r 32 p first num)
    as (chunks & msgs & p' & Hq & Hd & Hcar & Ht & _); try done.
  { change (Z.of_nat 32) with 32. lia. }
  exists (fst <$> chunks), msgs, p'. split; [done|]. split; [done|].
  split; [done|]. apply Forall2_fmap_l.
  eapply Forall2_impl; [exact Hcar|].
  intros chunk msg (body & _ & ->). by exists body.
Qed.

Lemma channel_range_replies_tile_witness :
  exists (ws : list (Z * Z)) msgs p',
    handle_query_channel_range sample_X dev_default sample_rstate sample_peer
      (Some (sample_chain, 1, 2)) = Some p' /\
    dc p' = dc sample_peer ++ msgs /\
    tiles 1 (1 + 2) ws /\
    Forall2 (fun w msg => exists body,
               msg = wire_reply_channel_range (chain_hash sample_rstate)
                       w.1 w.2 1 body)
            ws msgs.
Proof.
  apply (channel_range_replies_tile sample_X dev_default sample_rstate
           sample_peer sample_chain 1 2).
  - reflexivity.
  - lia.
  - lia.
  - reflexivity.
  - intros b Hb. assert (b = 1 \/ b = 2) as [-> | ->] by lia;
      vm_compute; reflexivity.
Defined.

(** ** Replies to an outbound range query *)

Lemma memchr_covered (a b : nat) (n : Z) :
  memchr (drop a (replicate a 1 ++ replicate b 0)) 1 n = false.
Proof.
  unfold memchr. rewrite drop_app_length' by (by rewrite length_replicate).
  rewrite take_replicate. apply bool_decide_eq_false_2.
  intros H. by apply elem_of_replicate_inv in H.
Qed.

Lemma memset_covered (a b : nat) (off n : Z) :
  off = Z.of_nat a -> 0 <= n ->
  memset (replicate a 1 ++ replicate b 0) off 1 n
  = replicate (a + Z.to_nat n) 1 ++ replicate (b - Z.to_nat n) 0.
Proof.
  intros -> Hn. unfold memset. rewrite !Nat2Z.id.
  rewrite take_app_length' by (by rewrite length_replicate).
  replace (Z.to_nat (Z.of_nat a + n)) with (a + Z.to_nat n)%nat by lia.
  rewrite drop_app_add' by (by rewrite length_replicate).
  rewrite drop_replicate, replicate_add. by rewrite <- app_assoc.
Qed.

Lemma memchr_uncovered (a b : nat) :
  memchr (replicate a 1 ++ replicate b 0) 0
    (Z.of_nat (length (replicate a 1 ++ replicate b 0)))
  = negb (b =? 0)%nat.
Proof.
  unfold memchr. rewrite Nat2Z.id, take_ge by done.
  destruct (b =? 0)%nat eqn:E.
  - apply Nat.eqb_eq in E. subst. cbn [negb replicate]. rewrite app_nil_r.
    apply bool_decide_eq_false_2. intros H. by apply elem_of_replicate_inv in H.
  - apply Nat.eqb_neq in E. cbn [negb]. apply bool_decide_eq_true_2.
    apply elem_of_app. right. by apply elem_of_replicate.
Qed.

(** A reply for the next window of a tiling, handled while the blocks
    before [lo] are covered and the others are not. *)
Lemma handle_reply_tile X r p first lo hi n acc L body :
  0 <= first <= lo -> 1 <= n -> lo + n <= hi -> hi < 2 ^ 32 ->
  decode_short_ids X body = Some L ->
  handle_reply_channel_range X r p
    {| query_channel_blocks :=
         Some (replicate (Z.to_nat (lo - first)) 1
               ++ replicate (Z.to_nat (hi - lo)) 0);
       first_channel_range := first;
       query_channel_scids := Some acc |}
    (Some (chain_hash r, lo, n, 1, body))
  = if lo + n =? hi then
      (p,
       {| query_channel_blocks := None; first_channel_range := first;
          query_channel_scids := None |},
       [gossip_query_channel_range_reply lo n 1 (Some (acc ++ L))])
    else
      (p,
       {| query_channel_blocks :=
            Some (replicate (Z.to_nat (lo + n - first)) 1
                  ++ replicate (Z.to_nat (hi - (lo + n))) 0);
          first_channel_range := first;
          query_channel_scids := Some (acc ++ L) |},
       []).
Proof.
  intros Hf Hn Hhi H32' Hdec.
  assert (H32 : 2 ^ 32 = 4294967296) by reflexivity.
  unfold handle_reply_channel_range.
  cbn [query_channel_blocks first_channel_range query_channel_scids tal_arr default].
  unfold bitcoin_blkid_eq. rewrite bool_decide_eq_true_2 by done. cbn [negb].
  assert (Hu1 : to_u32 (lo + n) = lo + n)
    by (unfold to_u32; apply Z.mod_small; lia).
  assert (Hu2 : to_u32 (lo - first) = lo - first)
    by (unfold to_u32; apply Z.mod_small; lia).
  rewrite Hu1, Hu2, Hdec.
  destruct (lo + n <? lo) eqn:E1; [apply Z.ltb_lt in E1; lia|].
  destruct (lo <? first) eqn:E2; [apply Z.ltb_lt in E2; lia|].
  rewrite length_app, !length_replicate. cbn [orb].
  destruct (Z.of_nat (Z.to_nat (lo - first) + Z.to_nat (hi - lo)) <? lo - first + n)
    eqn:E3; [apply Z.ltb_lt in E3; lia|].
  set (a := Z.to_nat (lo - first)). set (b := Z.to_nat (hi - lo)).
  rewrite memchr_covered, (memset_covered a b) by lia.
  rewrite memchr_uncovered. set (k := Z.to_nat n).
  destruct (lo + n =? hi) eqn:E4.
  - apply Z.eqb_eq in E4. replace (b - k)%nat with 0%nat by lia. done.
  - apply Z.eqb_neq in E4. destruct (b - k =? 0)%nat eqn:E5;
      [apply Nat.eqb_eq in E5; lia|]. cbn [negb].
    replace (Z.to_nat (lo + n - first)) with (a + k)%nat by lia.
    replace (Z.to_nat (hi - (lo + n))) with (b - k)%nat by lia. done.
Qed.

Lemma range_replies_run_tiles X r first hi p (chunks : list (Z * Z * list Z)) :
  forall msgs lo acc out,
  Forall2 (fun chunk msg => exists body,
             decode_short_ids X body = Some chunk.2 /\
             msg = wire_reply_channel_range (chain_hash r) chunk.1.1 chunk.1.2
                     1 body) chunks msgs ->
  tiles lo hi (fst <$> chunks) -> 0 <= first <= lo -> hi < 2 ^ 32 ->
  chunks <> [] ->
  exists w, last (fst <$> chunks) = Some w /\
  foldl
    (fun st msg =>
       let '(p, rq, out) := st in
       let '(p, rq, o) :=
         handle_reply_channel_range X r p rq
           (fromwire_reply_channel_range msg) in
       (p, rq, out ++ o))
    (p,
     {| query_channel_blocks :=
          Some (replicate (Z.to_nat (lo - first)) 1
                ++ replicate (Z.to_nat (hi - lo)) 0);
        first_channel_range := first;
        query_channel_scids := Some acc |},
     out) msgs
  = (p,
     {| query_channel_blocks := None; first_channel_range := first;
        query_channel_scids := None |},
     out ++ [gossip_query_channel_range_reply w.1 w.2 1
               (Some (acc ++ concat (snd <$> chunks)))]).
Proof.
  induction chunks as [|[[f n] L] rest IH]; intros msgs lo acc out Hc Ht Hf Hhi Hne;
    [done|].
  inversion Hc as [|? msg ? msgs' (body & Hdec & Hmsg) Hc']; subst.
  cbn [fmap list_fmap fst snd] in Ht. cbn in Ht. destruct Ht as (-> & Hn & Ht).
  cbn [foldl fromwire_reply_channel_range].
  pose proof (tiles_le _ _ _ Ht) as Hle. cbn [fst snd] in *.
  rewrite (handle_reply_tile X r p first lo hi n acc L body) by (try done; lia).
  destruct rest as [|c2 rest'].
  - inversion Hc'; subst. cbn in Ht.
    destruct (lo + n =? hi) eqn:E; [|apply Z.eqb_neq in E; lia].
    exists (lo, n). split; [done|]. cbn. by rewrite app_nil_r.
  - assert (Hlt : lo + n < hi).
    { cbn in Ht. destruct Ht as (H1 & H2 & H3). apply tiles_le in H3. lia. }
    destruct (lo + n =? hi) eqn:E; [apply Z.eqb_eq in E; lia|].
    rewrite app_nil_r.
    destruct (IH msgs' (lo + n) (acc ++ L) out Hc' Ht) as (w & Hw & Hrun);
      [lia | done | done |].
    exists w. split; [by rewrite fmap_cons, last_cons, Hw|].
    rewrite Hrun. cbn [fmap list_fmap concat snd]. by rewrite <- app_assoc.
Qed.

Lemma tiles_bounds lo hi ws w :
  tiles lo hi ws -> w ∈ ws -> lo <= w.1 /\ 1 <= w.2 /\ w.1 + w.2 <= hi.
Proof.
  revert lo. induction ws as [|w0 ws IH]; intros lo H Hin; [inversion Hin|].
  cbn in H. destruct H as (H1 & H2 & H).
  pose proof (tiles_le _ _ _ H).
  apply elem_of_cons in Hin as [-> | Hin]; [lia|].
  specialize (IH _ H Hin). lia.
Qed.

Lemma Forall2_impl_Forall {A B} (P : A -> Prop) (R R' : A -> B -> Prop) l k :
  Forall2 R l k -> Forall P l -> (forall x y, P x -> R x y -> R' x y) ->
  Forall2 R' l k.
Proof.
  intros H. induction H as [|x y l k HR H IH]; intros HP Himp; [constructor|].
  apply Forall_cons in HP as [HPx HP]. constructor; auto.
Qed.

Lemma elem_of_concat {A} (x : A) (ls : list (list A)) :
  x ∈ concat ls <-> exists l, x ∈ l /\ l ∈ ls.
Proof.
  induction ls as [|l0 ls IH]; cbn [concat].
  - split; [intros H; inversion H | intros (l & _ & H); inversion H].
  - rewrite elem_of_app, IH. split.
    + intros [H | (l & H1 & H2)]; [exists l0; split; [done | left]|].
      exists l. split; [done | by right].
    + intros (l & H1 & H2). apply elem_of_cons in H2 as [-> | H2]; [by left|].
      right. by exists l.
Qed.

(** X10.  Two nodes running this code, on the same chain.  One has asked
    the other for the channels of a window of blocks (within the 24-bit
    block numbers an id holds, every single block of it fitting a reply),
    its decoder reading what the other's encoder writes.  Handling, in
    order, the replies the other node queues for that query, it accepts
    each of them, sends the peer no error, and on the last one clears the
    query and tells control once, with the window of that last reply, its
    [complete] byte and the ids received: exactly the ids of the other
    node's channel map whose block is in the window asked for and is not
    block 0. *)
Theorem range_query_round_trip XA XB devB rA rB pA pB first num :
  chain_hash rA = chain_hash rB ->
  0 <= first -> 1 <= num -> first + num <= 2 ^ 24 ->
  (forall b, first <= b < first + num -> range_fits XB devB rB b 1 = true) ->
  codec_round_trip XB devB XA rB ->
  exists pA' msgs w scids,
    handle_query_channel_range XB devB rB pA (Some (chain_hash rA, first, num))
    = Some pA' /\
    dc pA' = dc pA ++ msgs /\
    range_replies_run XA rA pB (start_range_query first num) msgs
    = (pB,
       {| query_channel_blocks := None; first_channel_range := first;
          query_channel_scids := None |},
       [gossip_query_channel_range_reply w.1 w.2 1 (Some scids)]) /\
    forall s, s ∈ scids <->
      is_Some (chanmap rB !! s) /\
      Z.max first 1 <= short_channel_id_blocknum s < first + num.
Proof.
  intros Hch Hf Hn Hsum Hfits Hcodec.
  assert (H24 : 2 ^ 24 = 16777216) by reflexivity.
  assert (H32 : 2 ^ 32 = 4294967296) by reflexivity.
  unfold handle_query_channel_range, bitcoin_blkid_eq.
  rewrite bool_decide_eq_true_2 by done. cbn [negb].
  assert (Hlim : to_u32 (first + num) = first + num)
    by (unfold to_u32; apply Z.mod_small; lia).
  rewrite Hlim.
  destruct (first + num <? first) eqn:E; [apply Z.ltb_lt in E; exfalso; lia|].
  destruct (queue_channel_ranges_tiles XB devB rB 32 pA first num)
    as (chunks & msgs & pA' & Hq & Hd & Hcar & Ht & Hids); try done; try lia.
  assert (Hne : chunks <> []).
  { intros ->. cbn in Ht. lia. }
  destruct (range_replies_run_tiles XA rA first (first + num) pB chunks msgs
              first [] []) as (w & Hw & Hrun); try done; try lia.
  { eapply Forall2_impl_Forall; [exact Hcar | exact Hids |].
    intros chunk msg Hid (body & Henc & ->). exists body.
    split; [|by rewrite Hch].
    apply (Hcodec chunk.2 body); [|done].
    intros s Hs. by apply (Hid s). }
  exists pA', msgs, w, (concat (snd <$> chunks)).
  split; [done|]. split; [done|]. split.
  - unfold range_replies_run, start_range_query.
    replace (Z.to_nat num) with (Z.to_nat (first + num - first)) by (f_equal; lia).
    replace (replicate (Z.to_nat (first + num - first)) 0)
      with (replicate (Z.to_nat (first - first)) 1
            ++ replicate (Z.to_nat (first + num - first)) 0)
      by (by rewrite Z.sub_diag).
    exact Hrun.
  - intros s. rewrite Forall_forall in Hids. split.
    + intros Hs. apply elem_of_concat in Hs as (L & Hs & HL).
      apply list_elem_of_fmap in HL as (chunk & -> & Hin).
      apply (Hids chunk Hin s) in Hs as (Hsome & Hstart & Hb).
      destruct (tiles_bounds _ _ _ chunk.1 Ht) as (Hb1 & Hb2 & Hb3).
      { apply list_elem_of_fmap. by exists chunk. }
      apply range_start_spec in Hstart; [|lia]. split; [done|]. lia.
    + intros (Hsome & Hb).
      destruct (proj2 (tiles_cover _ _ _ (short_channel_id_blocknum s) Ht))
        as (w' & Hw' & Hbw); [lia|].
      apply list_elem_of_fmap in Hw' as (chunk & -> & Hin).
      destruct (tiles_bounds _ _ _ chunk.1 Ht) as (Hb1 & Hb2 & Hb3).
      { apply list_elem_of_fmap. by exists chunk. }
      apply elem_of_concat. exists chunk.2. split.
      * apply (Hids chunk Hin s). split; [done|]. split; [|lia].
        apply range_start_spec; lia.
      * apply list_elem_of_fmap. by exists chunk.
Qed.

(** The sample codec reads what it writes, for the ids of the sample
    graph. *)
Lemma sample_keys s :
  is_Some (chanmap sample_rstate !! s) ->
  s = scid_b0 \/ s = scid_b1 \/ s = scid_b2.
Proof.
  intros [c H]. unfold sample_rstate in H. cbn [chanmap] in H.
  apply lookup_insert_Some in H as [[<- _]|[_ H]]; [auto|].
  apply lookup_insert_Some in H as [[<- _]|[_ H]]; [auto|].
  apply lookup_insert_Some in H as [[<- _]|[_ H]]; [auto|].
  by rewrite lookup_empty in H.
Qed.

Lemma parse_scids_sample (l : list Z) :
  (forall s, s ∈ l -> is_Some (chanmap sample_rstate !! s)) ->
  forall n, (length l <= n)%nat ->
  parse_scids n (flat_map towire_u64 l) = Some l.
Proof.
  induction l as [|s l IH]; intros Hl n Hn.
  - by destruct n.
  - destruct n as [|n]; [cbn in Hn; lia|].
    assert (Hs : s = scid_b0 \/ s = scid_b1 \/ s = scid_b2)
      by (apply sample_keys, Hl; left).
    assert (IH' : parse_scids n (flat_map towire_u64 l) = Some l).
    { apply IH; [|cbn in Hn; lia]. intros s' Hs'. apply Hl. by right. }
    cbn [flat_map].
    destruct Hs as [-> | [-> | ->]].
    + let v := eval vm_compute in (towire_u64 scid_b0) in
      change (towire_u64 scid_b0) with v.
      cbn [app parse_scids]. rewrite IH'. reflexivity.
    + let v := eval vm_compute in (towire_u64 scid_b1) in
      change (towire_u64 scid_b1) with v.
      cbn [app parse_scids]. rewrite IH'. reflexivity.
    + let v := eval vm_compute in (towire_u64 scid_b2) in
      change (towire_u64 scid_b2) with v.
      cbn [app parse_scids]. rewrite IH'. reflexivity.
Qed.

Lemma sample_codec_round_trip :
  codec_round_trip sample_X dev_default sample_X sample_rstate.
Proof.
  intros l body Hl Henc. unfold encode_scids in Henc.
  rewrite foldl_encode_add in Henc.
  unfold encode_short_channel_ids_start in Henc. cbn [app] in Henc.
  unfold encode_short_channel_ids_end in Henc.
  replace (SHORTIDS_ZLIB =? SHORTIDS_ZLIB) with true in Henc by reflexivity.
  unfold zencode_scids, compress2 in Henc.
  cbn [deflate_best sample_X] in Henc. unfold sample_deflate in Henc.
  rewrite bool_decide_eq_false_2 in Henc.
  - unfold stored_stream in Henc. rewrite !length_app in Henc.
    cbn [length] in Henc. rewrite length_map in Henc. cbn [length] in Henc.
    destruct (_ <=? _) eqn:E in Henc; [apply Z.leb_le in E; lia|].
    injection Henc as _ <-.
    cbn [decode_short_ids sample_X]. unfold sample_decode, SHORTIDS_UNCOMPRESSED.
    apply parse_scids_sample; [done|].
    clear. induction l as [|s l IH]; [done|].
    cbn [flat_map]. rewrite length_app. cbn. lia.
  - destruct l as [|s l]; [vm_compute; discriminate|].
    assert (Hs : s = scid_b0 \/ s = scid_b1 \/ s = scid_b2)
      by (apply sample_keys, Hl; left).
    intros Heq. apply (f_equal head) in Heq. cbn [flat_map] in Heq.
    destruct Hs as [-> | [-> | ->]]; vm_compute in Heq; discriminate Heq.
Qed.

Lemma range_query_round_trip_witness :
  exists pA' msgs w scids,
    handle_query_channel_range sample_X dev_default sample_rstate sample_peer
      (Some (chain_hash sample_rstate, 1, 2))
    = Some pA' /\
    dc pA' = dc sample_peer ++ msgs /\
    range_replies_run sample_X sample_rstate
      (new_peer sample_rstate key_m true false) (start_range_query 1 2) msgs
    = (new_peer sample_rstate key_m true false,
       {| query_channel_blocks := None; first_channel_range := 1;
          query_channel_scids := None |},
       [gossip_query_channel_range_reply w.1 w.2 1 (Some scids)]) /\
    forall s, s ∈ scids <->
      is_Some (chanmap sample_rstate !! s) /\
      Z.max 1 1 <= short_channel_id_blocknum s < 1 + 2.
Proof.
  apply (range_query_round_trip sample_X sample_X dev_default sample_rstate
           sample_rstate sample_peer (new_peer sample_rstate key_m true false)
           1 2).
  - reflexivity.
  - lia.
  - lia.
  - vm_compute. discriminate.
  - intros b Hb. assert (b = 1 \/ b = 2) as [-> | ->] by lia;
      vm_compute; reflexivity.
  - exact sample_codec_round_trip.
Defined.

Lemma queue_changes_dc (p p1 : peer) text :
  p1 = peer_error p text -> dc p1 <> dc p.
Proof.
  intros -> H. unfold peer_error, queue_peer_msg in H. cbn [dc set_dc] in H.
  apply (f_equal length) in H. rewrite length_app in H. cbn in H. lia.
Qed.

(** X11.  A reply is counted once.  When a [reply_channel_range] covering
    at least one block has been accepted (nothing was queued to the peer),
    the same reply arriving again is refused: an [error] is queued to the
    peer, the range-query state stays as the first reply left it, and
    nothing goes to control. *)
Theorem reply_channel_range_replay_rejected X r p rq chain f n c enc p1 rq1 out :
  1 <= n ->
  handle_reply_channel_range X r p rq (Some (chain, f, n, c, enc))
  = (p1, rq1, out) ->
  dc p1 = dc p ->
  exists text,
    handle_reply_channel_range X r p1 rq1 (Some (chain, f, n, c, enc))
    = (peer_error p1 text, rq1, []).
Proof.
  intros Hn H Hdc. unfold handle_reply_channel_range in *.
  destruct (negb (bitcoin_blkid_eq (chain_hash r) chain)) eqn:Ec.
  { injection H as H _ _. symmetry in H. by apply queue_changes_dc in H. }
  destruct (query_channel_blocks rq) as [blocks|] eqn:Eb.
  2:{ injection H as H _ _. symmetry in H. by apply queue_changes_dc in H. }
  destruct (to_u32 (f + n) <? f) eqn:Eo.
  { injection H as H _ _. symmetry in H. by apply queue_changes_dc in H. }
  destruct (decode_short_ids X enc) as [scids|] eqn:Ed.
  2:{ injection H as H _ _. symmetry in H. by apply queue_changes_dc in H. }
  set (n' := to_u32 (f - first_channel_range rq)) in *.
  assert (Hn' : 0 <= n').
  { subst n'. unfold to_u32. apply Z.mod_pos_bound. reflexivity. }
  destruct ((f <? first_channel_range rq)
            || (Z.of_nat (length blocks) <? n' + n)) eqn:Ew.
  { injection H as H _ _. symmetry in H. by apply queue_changes_dc in H. }
  destruct (memchr (drop (Z.to_nat n') blocks) 1 n) eqn:Em.
  { injection H as H _ _. symmetry in H. by apply queue_changes_dc in H. }
  apply orb_false_iff in Ew as [Ew1 Ew2]. apply Z.ltb_ge in Ew2.
  destruct (memchr (memset blocks n' 1 n) 0 _) eqn:Ez;
    injection H as <- <- <-;
    cbn [query_channel_blocks first_channel_range query_channel_scids].
  - assert (Hlen : length (memset blocks n' 1 n) = length blocks).
    { unfold memset. rewrite !length_app, length_replicate, length_take, length_drop.
      lia. }
    fold n'. rewrite ?Eo, ?Ed, ?Ew1, Hlen.
    destruct (Z.of_nat (length blocks) <? n' + n) eqn:Ew3;
      [apply Z.ltb_lt in Ew3; lia|]. cbn [orb].
    assert (Hhit : memchr (drop (Z.to_nat n') (memset blocks n' 1 n)) 1 n = true).
    { unfold memchr, memset. apply bool_decide_eq_true_2.
      rewrite drop_app_length' by (rewrite length_take; lia).
      rewrite take_app_length' by (by rewrite length_replicate).
      apply elem_of_replicate. split; [done | lia]. }
    rewrite Hhit. eauto.
  - eauto.
Qed.

Lemma reply_channel_range_replay_rejected_witness :
  exists text,
    handle_reply_channel_range sample_X sample_rstate sample_peer
      {| query_channel_blocks := Some [1; 0]; first_channel_range := 1;
         query_channel_scids := Some [scid_b1] |}
      (Some (sample_chain, 1, 1, 1, SHORTIDS_UNCOMPRESSED :: towire_u64 scid_b1))
    = (peer_error sample_peer text,
       {| query_channel_blocks := Some [1; 0]; first_channel_range := 1;
          query_channel_scids := Some [scid_b1] |},
       []).
Proof.
  apply (reply_channel_range_replay_rejected sample_X sample_rstate sample_peer
           (start_range_query 1 2) sample_chain 1 1 1
           (SHORTIDS_UNCOMPRESSED :: towire_u64 scid_b1) sample_peer _ []).
  - lia.
  - vm_compute. reflexivity.
  - reflexivity.
Defined.

Lemma list_find_alter_id (l : list peer) (f : peer -> peer) id : forall i,
  (forall p, peer_id (f p) = peer_id p) ->
  fst <$> list_find (fun p => pubkey_eq (peer_id p) id = true) (alter f i l)
  = fst <$> list_find (fun p => pubkey_eq (peer_id p) id = true) l.
Proof.
  induction l as [|x l IH]; intros i Hf; [done|].
  destruct i as [|i]; cbn [alter list_alter list_find].
  - rewrite Hf. by destruct (decide _).
  - destruct (decide _); [done|].
    specialize (IH i Hf).
    destruct (list_find (fun p => pubkey_eq (peer_id p) id = true)
                (alter f i l)) as [[j y]|],
      (list_find (fun p => pubkey_eq (peer_id p) id = true) l) as [[j' y']|];
      cbn in *; congruence.
Qed.

Lemma find_peer_with_peer d i f id :
  (forall p, peer_id (f p) = peer_id p) ->
  find_peer (with_peer d i f) id = find_peer d id.
Proof. intros Hf. unfold find_peer, with_peer. cbn. by apply list_find_alter_id. Qed.

(** X12.  One outbound range query per peer.  Once [query_channel_range]
    has sent a query to a peer (control was not answered), a second request
    for the same peer, whatever its window, sends nothing to the peer,
    leaves the pending query as it is, and is answered at once with the
    failure reply [(0, 0, false, NULL)]. *)
Theorem query_channel_range_one_at_a_time d rqs id first num first' num' d1 rqs1 :
  length rqs = length (peers d) ->
  query_channel_range d rqs (Some (id, first, num)) = Some (d1, rqs1, []) ->
  query_channel_range d1 rqs1 (Some (id, first', num'))
  = Some (d1, rqs1, [gossip_query_channel_range_reply 0 0 0 None]).
Proof.
  intros Hlen H. unfold query_channel_range in *.
  destruct (find_peer d id) as [i|] eqn:Ef; [|done].
  destruct (find_peer_Some d id i Ef) as (p & Hp & _).
  rewrite Hp in H. cbn [fmap option_fmap option_map default] in H.
  destruct (gossip_queries_feature p) eqn:Eg; [|done]. cbn [negb] in H.
  destruct (bool_decide _) in H; [done|].
  injection H as <- <-.
  rewrite find_peer_with_peer, Ef by (intros q; by peer_simpl).
  unfold with_peer at 1. cbn [peers set_peers].
  rewrite list_lookup_alter_eq, Hp. cbn [fmap option_fmap option_map default].
  peer_simpl. rewrite Eg. cbn [negb].
  rewrite list_lookup_insert_eq by (apply lookup_lt_Some in Hp; lia).
  cbn [mbind option_bind start_range_query query_channel_blocks].
  rewrite bool_decide_eq_true_2 by done. done.
Qed.

Lemma query_channel_range_one_at_a_time_witness :
  query_channel_range
    (with_peer sample_daemon 0
       (fun p => queue_peer_msg p (wire_query_channel_range sample_chain 1 2)))
    [start_range_query 1 2;
     {| query_channel_blocks := None; first_channel_range := 0;
        query_channel_scids := None |}]
    (Some (key_m, 0, 0))
  = Some (with_peer sample_daemon 0
            (fun p => queue_peer_msg p (wire_query_channel_range sample_chain 1 2)),
          [start_range_query 1 2;
           {| query_channel_blocks := None; first_channel_range := 0;
              query_channel_scids := None |}],
          [gossip_query_channel_range_reply 0 0 0 None]).
Proof.
  apply (query_channel_range_one_at_a_time sample_daemon
           [{| query_channel_blocks := None; first_channel_range := 0;
               query_channel_scids := None |};
            {| query_channel_blocks := None; first_channel_range := 0;
               query_channel_scids := None |}]
           key_m 1 2 0 0).
  - reflexivity.
  - vm_compute. reflexivity.
Defined.

(** ** Timestamps *)

(** X13.  "Timestamps must move forward": the timestamp of our own
    [node_announcement] is the later of the clock and the second after the
    timestamp of the announcement the graph holds for us, whatever the
    clock reads.  It is thus strictly past the previous timestamp, and
    never before the clock. *)
Theorem node_announcement_timestamp_moves_forward d now :
  0 <= now <= UINT32_MAX ->
  (forall self, get_node (rstate d) (daemon_id d) = Some self ->
     -1 <= node_last_timestamp self < UINT32_MAX) ->
  let last :=
    match get_node (rstate d) (daemon_id d) with
    | Some self => node_last_timestamp self
    | None => -1
    end in
  send_node_announcement_timestamp d now = Z.max now (last + 1) /\
  last < send_node_announcement_timestamp d now <= UINT32_MAX.
Proof.
  intros Hnow Hself last. unfold send_node_announcement_timestamp. fold last.
  assert (H32 : 2 ^ 32 = 4294967296) by reflexivity.
  assert (Hlast : -1 <= last < UINT32_MAX).
  { subst last. destruct (get_node _ _) as [self|]; [by apply Hself|].
    unfold UINT32_MAX. lia. }
  unfold to_u32, UINT32_MAX in *. rewrite (Z.mod_small now) by lia.
  destruct (now <=? last) eqn:E.
  - apply Z.leb_le in E. rewrite Z.mod_small by lia. lia.
  - apply Z.leb_gt in E. lia.
Qed.

Lemma node_announcement_timestamp_moves_forward_witness :
  let last :=
    match get_node (rstate sample_daemon) (daemon_id sample_daemon) with
    | Some self => node_last_timestamp self
    | None => -1
    end in
  send_node_announcement_timestamp sample_daemon 89 = Z.max 89 (last + 1) /\
  last < send_node_announcement_timestamp sample_daemon 89 <= UINT32_MAX.
Proof.
  apply (node_announcement_timestamp_moves_forward sample_daemon 89).
  - vm_compute. split; discriminate.
  - intros self H. vm_compute in H. injection H as <-.
    vm_compute. split; [discriminate | reflexivity].
Defined.

(** X14.  A keep-alive carries a fresh timestamp.  Take a half-channel
    the sweep of [gossip_refresh_network] refreshes (defined, last updated
    no later than half the prune timeout ago) that sits in the slot its
    direction bit names, and a clock that fits 32 bits (from 0 to below
    2^32 - 1).  Then [gossip_send_keepalive_update] hands the signer one
    update: for the same channel and direction, repeating the parameters
    of the half, with [local_disabled] as its disable bit, and stamped
    strictly after the previous update.  What the signer returns goes,
    unchanged, to the peer at the other end when the channel is not public,
    and to the routing core; the daemon stops when the signer gives no
    signature or the routing core refuses the update. *)
Theorem keepalive_update_is_fresh d now c hc :
  is_halfchan_defined hc = true ->
  last_timestamp hc <= now - prune_timeout (rstate d) / 2 ->
  0 <= prune_timeout (rstate d) ->
  0 <= now < UINT32_MAX ->
  half_at c (Z.land (channel_flags hc) ROUTING_FLAGS_DIRECTION) = hc ->
  let direction := Z.land (channel_flags hc) ROUTING_FLAGS_DIRECTION in
  let u := keepalive_update d now c hc in
  last_timestamp hc < cu_timestamp u /\
  cu_chain_hash u = chain_hash (rstate d) /\
  cu_short_channel_id u = scid c /\
  Z.land (cu_channel_flags u) ROUTING_FLAGS_DIRECTION = direction /\
  (Z.land (cu_channel_flags u) ROUTING_FLAGS_DISABLED =? 0)
  = negb (local_disabled c) /\
  (cu_cltv_expiry_delta u, cu_htlc_minimum_msat u, cu_fee_base_msat u,
   cu_fee_proportional_millionths u, cu_htlc_maximum_msat u)
  = (delay hc, htlc_minimum_msat hc, base_fee hc, proportional_fee hc,
     htlc_maximum_msat hc) /\
  forall X,
    gossip_send_keepalive_update X d now c hc
    = match hsm_cupdate_sig X u with
      | None => None
      | Some signed =>
          let d1 :=
            if is_chan_public c then d
            else
              match find_peer d (node_at c (if direction =? 0 then 1 else 0)) with
              | Some i =>
                  with_peer d i (fun p => queue_peer_msg p (stored (Some signed)))
              | None => d
              end in
          match handle_channel_update X (rstate d1) signed with
          | (r, None) => Some (set_rstate r d1)
          | (_, Some _) => None
          end
      end.
Proof.
  intros Hdef Hlast Hpt Hnow Hslot direction u.
  assert (Hhalf : 0 <= prune_timeout (rstate d) / 2) by (apply Z.div_pos; lia).
  assert (Hbit : direction = 0 \/ direction = 1).
  { subst direction. unfold ROUTING_FLAGS_DIRECTION.
    assert (Hl : Z.land (channel_flags hc) 1 = channel_flags hc mod 2)
      by exact (Z.land_ones (channel_flags hc) 1 ltac:(lia)).
    pose proof (Z.mod_pos_bound (channel_flags hc) 2 ltac:(lia)). lia. }
  split; [|split; [|split; [|split; [|split; [|split]]]]].
  - subst u. unfold keepalive_update. fold direction.
    pose proof (local_channel_update_advances (rstate d) now c direction
                  (local_disabled c) (delay hc) (htlc_minimum_msat hc)
                  (base_fee hc) (proportional_fee hc) (htlc_maximum_msat hc)) as H.
    subst direction. rewrite Hslot in H. apply H; [done | done | lia].
  - reflexivity.
  - reflexivity.
  - subst u. unfold keepalive_update, local_channel_update. fold direction.
    cbn [cu_channel_flags].
    destruct (local_disabled c), Hbit as [-> | ->]; reflexivity.
  - subst u. unfold keepalive_update, local_channel_update. fold direction.
    cbn [cu_channel_flags].
    destruct (local_disabled c), Hbit as [-> | ->]; reflexivity.
  - reflexivity.
  - intros X. reflexivity.
Qed.

Lemma keepalive_update_is_fresh_witness :
  let c := sample_chan scid_b1 key_us key_n in
  let hc := sample_half 100 0 in
  let direction := Z.land (channel_flags hc) ROUTING_FLAGS_DIRECTION in
  let u := keepalive_update sample_daemon 700000 c hc in
  last_timestamp hc < cu_timestamp u /\
  cu_chain_hash u = chain_hash (rstate sample_daemon) /\
  cu_short_channel_id u = scid c /\
  Z.land (cu_channel_flags u) ROUTING_FLAGS_DIRECTION = direction /\
  (Z.land (cu_channel_flags u) ROUTING_FLAGS_DISABLED =? 0)
  = negb (local_disabled c) /\
  (cu_cltv_expiry_delta u, cu_htlc_minimum_msat u, cu_fee_base_msat u,
   cu_fee_proportional_millionths u, cu_htlc_maximum_msat u)
  = (delay hc, htlc_minimum_msat hc, base_fee hc, proportional_fee hc,
     htlc_maximum_msat hc) /\
  forall X,
    gossip_send_keepalive_update X sample_daemon 700000 c hc
    = match hsm_cupdate_sig X u with
      | None => None
      | Some signed =>
          let d1 :=
            if is_chan_public c then sample_daemon
            else
              match find_peer sample_daemon
                      (node_at c (if direction =? 0 then 1 else 0)) with
              | Some i =>
                  with_peer sample_daemon i
                    (fun p => queue_peer_msg p (stored (Some signed)))
              | None => sample_daemon
              end in
          match handle_channel_update X (rstate d1) signed with
          | (r, None) => Some (set_rstate r d1)
          | (_, Some _) => None
          end
      end.
Proof.
  apply (keepalive_update_is_fresh sample_daemon 700000
           (sample_chan scid_b1 key_us key_n) (sample_half 100 0)).
  - reflexivity.
  - vm_compute. discriminate.
  - vm_compute. discriminate.
  - vm_compute. split; [discriminate | reflexivity].
  - reflexivity.
Defined.

(** The clock is read into 32 bits: past 2^32 the stamp wraps, and the
    update of a half last stamped 100 is stamped 50. *)
Example keepalive_clock_wraps :
  cu_timestamp
    (keepalive_update sample_daemon (2 ^ 32 + 50)
       (sample_chan scid_b1 key_us key_n) (sample_half 100 0)) = 50.
Proof. vm_compute. reflexivity. Qed.

(** ** The size of an encoding *)

(** X15.  Compression never costs room.  The encoding the codec settles
    on for a list of ids is at most one byte longer than eight bytes per
    id; it is accepted exactly when it is within both the caller's bound
    and the developer cap; so ids whose uncompressed encoding is within
    both are never refused, whatever zlib makes of them. *)
Theorem encode_scids_never_longer X dev (l : list Z) max_bytes :
  exists ok body,
    encode_scids X dev l max_bytes = Some (ok, body) /\
    Z.of_nat (length body) <= 1 + 8 * Z.of_nat (length l) /\
    (ok = true <->
     Z.of_nat (length body) <= max_bytes /\
     Z.of_nat (length body) <= max_scids_encode_bytes dev) /\
    (1 + 8 * Z.of_nat (length l) <= max_bytes ->
     1 + 8 * Z.of_nat (length l) <= max_scids_encode_bytes dev ->
     ok = true).
Proof.
  assert (Hraw : Z.of_nat (length (flat_map towire_u64 l))
                 = 8 * Z.of_nat (length l)).
  { induction l as [|s l IH]; [done|]. cbn [flat_map].
    rewrite length_app. cbn [length towire_u64 map]. lia. }
  assert (Hcheck : forall e,
    check_length dev e max_bytes = true <->
    Z.of_nat (length e) <= max_bytes /\
    Z.of_nat (length e) <= max_scids_encode_bytes dev).
  { intros e. unfold check_length.
    destruct (max_scids_encode_bytes dev <? Z.of_nat (length e)) eqn:E1.
    - apply Z.ltb_lt in E1. split; [done | lia].
    - apply Z.ltb_ge in E1. rewrite Z.leb_le. lia. }
  unfold encode_scids. rewrite foldl_encode_add.
  unfold encode_short_channel_ids_start. cbn [app].
  unfold encode_short_channel_ids_end.
  replace (SHORTIDS_ZLIB =? SHORTIDS_ZLIB) with true by reflexivity.
  unfold zencode_scids, compress2.
  destruct (Z.of_nat (length (deflate_best X (flat_map towire_u64 l)))
            <=? Z.of_nat (length (flat_map towire_u64 l))) eqn:E.
  - apply Z.leb_le in E. eexists _, _. split; [reflexivity|].
    cbn [length]. split; [lia|]. split; [apply Hcheck|].
    intros H1 H2. apply Hcheck. cbn [length]. lia.
  - eexists _, _. split; [reflexivity|].
    cbn [length]. split; [lia|]. split; [apply Hcheck|].
    intros H1 H2. apply Hcheck. cbn [length]. lia.
Qed.

(** ** Query replies go before broadcasts *)

Lemma scid_reply_channels_frame rstate rest i p :
  same_broadcast_state p (snd (scid_reply_channels rstate rest i p)).
Proof.
  revert i p. induction rest as [|s rest IH]; intros i p; cbn [scid_reply_channels];
    [done|].
  destruct (get_channel rstate s) as [c|]; [|apply IH].
  destruct (is_chan_announced c); cbn [negb]; [|apply IH].
  unfold same_broadcast_state. cbn [snd].
  destruct (channel_update (half c).1), (channel_update (half c).2);
    peer_simpl; done.
Qed.

Lemma scid_reply_nodes_frame rstate rest i p :
  same_broadcast_state p (snd (scid_reply_nodes rstate rest i p)).
Proof.
  revert i p. induction rest as [|k rest IH]; intros i p; cbn [scid_reply_nodes];
    [done|].
  destruct (get_node rstate k) as [n|]; [|apply IH].
  destruct (node_announcement_index n =? 0); [apply IH|].
  unfold same_broadcast_state. cbn [snd]. peer_simpl. done.
Qed.

Lemma same_broadcast_state_trans p1 p2 p3 :
  same_broadcast_state p1 p2 -> same_broadcast_state p2 p3 ->
  same_broadcast_state p1 p3.
Proof.
  unfold same_broadcast_state. intros (? & ? & ? & ?) (? & ? & ? & ?).
  repeat split; congruence.
Qed.

Lemma create_next_scid_reply_frame rstate p :
  same_broadcast_state p (snd (create_next_scid_reply rstate p)).
Proof.
  unfold create_next_scid_reply.
  pose proof (scid_reply_channels_frame rstate
                (drop (scid_query_idx p) (tal_arr (scid_queries p)))
                (scid_query_idx p) p) as H1.
  destruct (scid_reply_channels _ _ _ _) as [[i sent] p1]. cbn [snd] in H1.
  set (p2 := if _ && _ then _ else p1).
  assert (H2 : same_broadcast_state p p2).
  { subst p2. destruct (_ && _); [|done].
    eapply same_broadcast_state_trans; [exact H1|].
    unfold same_broadcast_state. peer_simpl. done. }
  clearbody p2.
  set (p3 := set_scid_query_idx i p2).
  assert (H3 : same_broadcast_state p p3).
  { eapply same_broadcast_state_trans; [exact H2|].
    subst p3. unfold same_broadcast_state. peer_simpl. done. }
  clearbody p3.
  assert (Hend : forall j p4, same_broadcast_state p p4 ->
    same_broadcast_state p
      (set_scid_query_nodes_idx 0%nat
         (set_scid_query_nodes None
            (set_scid_query_idx 0%nat
               (set_scid_queries None
                  (queue_peer_msg (set_scid_query_nodes_idx j p4)
                     (wire_reply_short_channel_ids_end (chain_hash rstate) true))))))).
  { intros j p4 H4. eapply same_broadcast_state_trans; [exact H4|].
    unfold same_broadcast_state. peer_simpl. done. }
  assert (Hidx : forall j p4, same_broadcast_state p p4 ->
    same_broadcast_state p (set_scid_query_nodes_idx j p4)).
  { intros j p4 H4. eapply same_broadcast_state_trans; [exact H4|].
    unfold same_broadcast_state. peer_simpl. done. }
  destruct sent.
  - destruct (_ && _); cbn [snd]; auto.
  - pose proof (scid_reply_nodes_frame rstate
                  (drop (scid_query_nodes_idx p3) (tal_arr (scid_query_nodes p3)))
                  (scid_query_nodes_idx p3) p3) as H4.
    destruct (scid_reply_nodes _ _ _ _) as [[j sent] p4]. cbn [snd] in H4.
    pose proof (same_broadcast_state_trans _ _ _ H3 H4) as H5.
    destruct (_ && _); cbn [snd]; auto.
Qed.

(** X16.  Replies to a query go before the staggered broadcast.  While an
    inbound [query_short_channel_ids] is being answered, each wake-up of
    the write loop is used by [create_next_scid_reply]: [dump_gossip]
    reports a message sent and leaves the broadcast cursor, the pacing
    timer and the timestamp window as they were, so no broadcast is taken
    from the log in between. *)
Theorem scid_query_preempts_broadcast dev r p scids i acc j q :
  query_state p scids i acc j q ->
  (i <= length scids)%nat ->
  ((i < length scids)%nat -> j = 0%nat) ->
  (j <= length acc)%nat ->
  exists p',
    dump_gossip dev r p = (true, p') /\
    create_next_scid_reply r p = (true, p') /\
    same_broadcast_state p p'.
Proof.
  intros Hq Hi Hj0 Hj.
  assert (Hsent : exists p', create_next_scid_reply r p = (true, p')).
  { destruct (decide (i < length scids)%nat) as [Hlt|Hge].
    - specialize (Hj0 Hlt). subst j.
      destruct (step_channels r p scids i acc q Hq Hlt)
        as [(p' & i' & Hc & _) | (p3 & Hc & Hq3 & _)]; [eauto|].
      destruct (step_nodes r p3 scids (uniquify_node_ids acc) 0 q Hq3)
        as (p' & Hc' & _); [lia|].
      exists p'. congruence.
    - assert (i = length scids) as -> by lia.
      destruct (step_nodes r p scids acc j q Hq Hj) as (p' & Hc' & _). eauto. }
  destruct Hsent as (p' & Hc). exists p'.
  pose proof (create_next_scid_reply_frame r p) as Hf. rewrite Hc in Hf.
  unfold dump_gossip. rewrite Hc. done.
Qed.

Lemma scid_query_preempts_broadcast_witness :
  exists p',
    dump_gossip dev_default sample_rstate busy_peer = (true, p') /\
    create_next_scid_reply sample_rstate busy_peer = (true, p') /\
    same_broadcast_state busy_peer p'.
Proof.
  apply (scid_query_preempts_broadcast dev_default sample_rstate busy_peer
           [scid_b1; scid_b2] 0 [] 0 (dc busy_peer)).
  - repeat split; vm_compute; reflexivity.
  - cbn. lia.
  - reflexivity.
  - cbn. lia.
Defined.

(** ** Every block of a range query is accounted for *)

Section range_answer.
Variables (X : collaborators) (dev : dev_knobs) (r : routing_state).

Lemma abuts_app lo mid hi ws1 ws2 :
  abuts lo mid ws1 -> abuts mid hi ws2 -> abuts lo hi (ws1 ++ ws2).
Proof.
  revert lo. induction ws1 as [|w ws1 IH]; intros lo H1 H2; cbn in *.
  - by subst.
  - destruct H1 as (? & ? & ?). repeat split; [done | done |]. by apply IH.
Qed.

Lemma range_answers_app l1 l2 m1 m2 :
  range_answers X dev r l1 m1 -> range_answers X dev r l2 m2 ->
  range_answers X dev r (l1 ++ l2) (m1 ++ m2).
Proof.
  revert m1. induction l1 as [|c l1 IH]; intros m1 H1 H2; cbn in *.
  - by subst.
  - destruct H1 as [(msg & ms & -> & Hc & Hr) | (Hle & Hno & Hr)].
    + left. exists msg, (ms ++ m2). repeat split; [done|]. by apply IH.
    + right. repeat split; [done | done |]. by apply IH.
Qed.

(** The halving ends within the fuel, whatever fits and whatever does
    not; the windows it ends at follow one another through the window
    asked for, and each is answered by its one reply, or is a single block
    (or none) whose ids do not fit. *)
Lemma queue_channel_ranges_leaves fuel : forall p first num,
  0 <= first -> 0 <= num -> first + num < 2 ^ 32 ->
  num <= 2 ^ Z.of_nat fuel ->
  exists (leaves : list (Z * Z * list Z)) msgs p',
    queue_channel_ranges (S fuel) X dev r p first num = Some p' /\
    dc p' = dc p ++ msgs /\
    abuts first (first + num) (fst <$> leaves) /\
    Forall (fun c => range_ids r c.1.1 c.1.2 c.2) leaves /\
    range_answers X dev r leaves msgs /\
    (range_fits X dev r first num = true -> length leaves = 1%nat).
Proof.
  assert (H32 : 2 ^ 32 = 4294967296) by reflexivity.
  induction fuel as [|fuel IH]; intros p first num Hf Hn Hsum Hpow;
    rewrite queue_channel_ranges_S; unfold range_fits;
    destruct (range_encoding_walk r first num) as (L & HL & Hids);
    rewrite HL;
    (assert (Hlim : to_u32 (first + num) - first = num)
       by (unfold to_u32; rewrite Z.mod_small by lia; lia));
    rewrite Hlim in Hids;
    destruct (encode_scids_total X dev L max_encoded_bytes) as (ok & body & Henc);
    pose proof Henc as Henc'; unfold encode_scids in Henc'; rewrite Henc';
    destruct ok.
  1,3: exists [(first, num, L)],
         [wire_reply_channel_range (chain_hash r) first num 1 body];
    eexists; (split; [reflexivity|]); (split; [done|]);
    (split; [cbn; lia|]); (split; [by constructor|]);
    (split; [|done]); cbn; left; eexists _, []; (split; [done|]);
    (split; [|done]); by exists body.
  - assert (Hle : num <= 1) by (cbn in Hpow; lia).
    destruct (num <=? 1) eqn:E1; [|apply Z.leb_gt in E1; lia].
    exists [(first, num, L)], [], p. split; [done|].
    split; [by rewrite app_nil_r|]. split; [cbn; lia|].
    split; [by constructor|]. split; [|done].
    cbn. right. split; [done|]. split; [by exists body | done].
  - destruct (num <=? 1) eqn:E1.
    + apply Z.leb_le in E1.
      exists [(first, num, L)], [], p. split; [done|].
      split; [by rewrite app_nil_r|]. split; [cbn; lia|].
      split; [by constructor|]. split; [|done].
      cbn. right. split; [done|]. split; [by exists body | done].
    + apply Z.leb_gt in E1.
      assert (Hh : 1 <= num / 2 /\ 2 * (num / 2) <= num < 2 * (num / 2) + 2).
      { pose proof (Z.div_mod num 2 ltac:(lia)).
        pose proof (Z.mod_pos_bound num 2 ltac:(lia)). lia. }
      assert (Hp2 : 2 ^ Z.of_nat (S fuel) = 2 * 2 ^ Z.of_nat fuel).
      { rewrite Nat2Z.inj_succ, Z.pow_succ_r by lia. done. }
      assert (Hmid : to_u32 (first + num / 2) = first + num / 2)
        by (unfold to_u32; apply Z.mod_small; lia).
      rewrite Hmid.
      destruct (IH p first (num / 2))
        as (l1 & ms1 & p1 & Hq1 & Hd1 & Hw1 & Hi1 & Ha1 & _);
        [lia | lia | lia | lia |].
      rewrite Hq1.
      destruct (IH p1 (first + num / 2) (num - num / 2))
        as (l2 & ms2 & p2 & Hq2 & Hd2 & Hw2 & Hi2 & Ha2 & _);
        [lia | lia | lia | lia |].
      exists (l1 ++ l2), (ms1 ++ ms2), p2. split; [done|].
      split; [by rewrite Hd2, Hd1, app_assoc|].
      split; [|split; [by apply Forall_app | split; [by apply range_answers_app | done]]].
      rewrite fmap_app.
      apply (abuts_app _ (first + num / 2)); [done|].
      replace (first + num) with (first + num / 2 + (num - num / 2)) by lia.
      done.
Qed.

End range_answer.

(** X17.  Every [query_channel_range] for our chain is handled to the
    end, and every block it asks for is accounted for, for every 32-bit
    [first_blocknum] and [number_of_blocks].  When their sum overflows 32
    bits the answer is the one error "query_channel_range overflow
    first+number".  Otherwise the halving ends (33 levels are enough, and
    the codec never fails) at windows that follow one another from
    [first_blocknum] to [first_blocknum + number_of_blocks] without gap or
    overlap, a single one when the ids of the whole window fit one reply.
    Each of them holds the ids its walk of the channel map gathers, and
    what is queued is, in this order, one [reply_channel_range] for every
    window whose ids fit one reply: for our chain, for exactly that window,
    with [complete] set and the codec's encoding of its ids.  A window
    whose ids do not fit is left without a reply; it has at most one
    block. *)
Theorem query_channel_range_blocks_accounted X dev r p chain first num :
  bitcoin_blkid_eq (chain_hash r) chain = true ->
  is_u32 first -> is_u32 num ->
  if UINT32_MAX <? first + num then
    handle_query_channel_range X dev r p (Some (chain, first, num))
    = Some (peer_error p
              ("query_channel_range overflow " +:+ pretty first
               +:+ "+" +:+ pretty num))
  else
    exists (leaves : list (Z * Z * list Z)) msgs p',
      handle_query_channel_range X dev r p (Some (chain, first, num)) = Some p' /\
      dc p' = dc p ++ msgs /\
      abuts first (first + num) (fst <$> leaves) /\
      Forall (fun c => range_ids r c.1.1 c.1.2 c.2) leaves /\
      range_answers X dev r leaves msgs /\
      (range_fits X dev r first num = true -> length leaves = 1%nat).
Proof.
  intros Hc Hf Hn. unfold handle_query_channel_range. rewrite Hc. cbn [negb].
  assert (H32 : 2 ^ 32 = 4294967296) by reflexivity.
  unfold is_u32, UINT32_MAX in *.
  destruct (4294967295 <? first + num) eqn:Eo.
  - apply Z.ltb_lt in Eo.
    assert (Hw : to_u32 (first + num) = first + num - 2 ^ 32).
    { unfold to_u32. symmetry. apply (Z.mod_unique _ _ 1); lia. }
    rewrite Hw.
    destruct (first + num - 2 ^ 32 <? first) eqn:E; [done|].
    apply Z.ltb_ge in E. lia.
  - apply Z.ltb_ge in Eo.
    assert (Hlim : to_u32 (first + num) = first + num)
      by (unfold to_u32; apply Z.mod_small; lia).
    rewrite Hlim.
    destruct (first + num <? first) eqn:E; [apply Z.ltb_lt in E; exfalso; lia|].
    apply (queue_channel_ranges_leaves X dev r 32); lia.
Qed.
Lemma query_channel_range_blocks_accounted_witness :
  let dev := {| max_scids_encode_bytes := 4; suppress_gossip := false |} in
  exists (leaves : list (Z * Z * list Z)) msgs p',
    handle_query_channel_range sample_X dev sample_rstate sample_peer
      (Some (sample_chain, 1, 3)) = Some p' /\
    dc p' = dc sample_peer ++ msgs /\
    abuts 1 (1 + 3) (fst <$> leaves) /\
    Forall (fun c => range_ids sample_rstate c.1.1 c.1.2 c.2) leaves /\
    range_answers sample_X dev sample_rstate leaves msgs /\
    (range_fits sample_X dev sample_rstate 1 3 = true -> length leaves = 1%nat).
Proof.
  apply (query_channel_range_blocks_accounted sample_X
           {| max_scids_encode_bytes := 4; suppress_gossip := false |}
           sample_rstate sample_peer sample_chain 1 3).
  - reflexivity.
  - vm_compute. split; discriminate.
  - vm_compute. split; discriminate.
Defined.

(** Under a four-byte cap the query for blocks 1 to 3 of the sample graph
    ends at the windows (1,1), (2,1) and (3,1): the first two hold one id
    each, which does not fit, and the reply for the empty third is all the
    peer gets. *)
Example channel_range_partly_answered :
  option_map dc
    (handle_query_channel_range sample_X
       {| max_scids_encode_bytes := 4; suppress_gossip := false |}
       sample_rstate sample_peer (Some (sample_chain, 1, 3)))
  = Some [wire_reply_channel_range sample_chain 3 1 1 [0]].
Proof. vm_compute. reflexivity. Qed.

(** The sum of the two 32-bit fields wraps: the error names them both. *)
Example channel_range_overflow_error :
  option_map dc
    (handle_query_channel_range sample_X dev_default sample_rstate sample_peer
       (Some (sample_chain, 4294967295, 1)))
  = Some [wire_error "query_channel_range overflow 4294967295+1"].
Proof. vm_compute. reflexivity. Qed.

(** ** What the staggered broadcast sends *)

Lemma next_broadcast_from_spec fuel (m : gmap Z queued_message) tmin tmax :
  forall idx,
  (length (keys_above m idx) < fuel)%nat ->
  match next_broadcast_from fuel m tmin tmax idx with
  | (Some payload, k) =>
      exists q, m !! k = Some q /\ qm_payload q = payload /\ idx < k /\
        tmin <= qm_timestamp q <= tmax /\
        forall k' q', m !! k' = Some q' -> idx < k' < k ->
          ~ tmin <= qm_timestamp q' <= tmax
  | (None, k) =>
      idx <= k /\
      forall k' q', m !! k' = Some q' -> idx < k' ->
        k' <= k /\ ~ tmin <= qm_timestamp q' <= tmax
  end.
Proof.
  induction fuel as [|fuel IH]; intros idx Hfuel; [lia|].
  cbn [next_broadcast_from].
  destruct (uintmap_after m idx) as [[k q]|] eqn:Ea.
  - pose proof (keys_above_next m idx k q Ea) as Hdec.
    apply uintmap_after_Some in Ea as (Hk & Hlt & Hmin).
    destruct ((tmin <=? qm_timestamp q) && (qm_timestamp q <=? tmax)) eqn:Ew.
    + apply andb_true_iff in Ew as [E1 E2].
      apply Z.leb_le in E1. apply Z.leb_le in E2.
      exists q. repeat (split; [done|]).
      intros k' q' Hk' [H1 H2]. specialize (Hmin k' ltac:(eauto) H1). lia.
    + assert (Hout : ~ tmin <= qm_timestamp q <= tmax).
      { apply andb_false_iff in Ew as [E|E]; apply Z.leb_gt in E; lia. }
      specialize (IH k ltac:(lia)).
      destruct (next_broadcast_from fuel m tmin tmax k) as [[payload|] k2].
      * destruct IH as (q2 & Hq2 & Hp & Hlt2 & Hw & Hskip).
        exists q2. repeat (split; [done || lia|]).
        intros k' q' Hk' [H1 H2].
        destruct (decide (k' = k)) as [->|Hne]; [congruence|].
        specialize (Hmin k' ltac:(eauto) H1). apply (Hskip k' q' Hk'). lia.
      * destruct IH as (Hle & Hrest). split; [lia|].
        intros k' q' Hk' H1.
        destruct (decide (k' = k)) as [->|Hne].
        -- split; [lia|]. congruence.
        -- specialize (Hmin k' ltac:(eauto) H1). apply (Hrest k' q' Hk'). lia.
  - split; [lia|]. intros k' q' Hk' H1.
    pose proof (uintmap_after_None m idx Ea k' ltac:(eauto)). lia.
Qed.

(** X18.  The staggered broadcast honours the peer's filter.  With the
    pacing timer off and gossip not suppressed, [maybe_queue_gossip] either
    queues one entry of the broadcast log, the first one past the peer's
    cursor whose timestamp is inside the peer's window, and moves the
    cursor onto it; or it queues nothing, arms the timer, and then no entry
    past the cursor is inside the window and the cursor has moved past all
    of them.  A peer whose window is empty gets nothing.  (The log is
    walked as [next_broadcast] is described.) *)
Theorem maybe_queue_gossip_in_window dev r p :
  gossip_timer p = false ->
  suppress_gossip dev = false ->
  (let m := broadcast_map (broadcasts r) in
   match maybe_queue_gossip dev r p with
   | (true, p') =>
       exists k q,
         m !! k = Some q /\ in_window p q /\
         dc p' = dc p ++ [stored (Some (qm_payload q))] /\
         broadcast_index p < k /\ broadcast_index p' = k /\
         gossip_timer p' = false /\
         forall k' q', m !! k' = Some q' -> broadcast_index p < k' < k ->
           ~ in_window p q'
   | (false, p') =>
       dc p' = dc p /\ gossip_timer p' = true /\
       forall k' q', m !! k' = Some q' -> broadcast_index p < k' ->
         k' <= broadcast_index p' /\ ~ in_window p q'
   end) /\
  (gossip_timestamp_max p < gossip_timestamp_min p ->
   fst (maybe_queue_gossip dev r p) = false).
Proof.
  intros Ht Hs. unfold maybe_queue_gossip. rewrite Ht, Hs.
  unfold next_broadcast.
  pose proof (next_broadcast_from_spec (S (size (broadcast_map (broadcasts r))))
                (broadcast_map (broadcasts r)) (gossip_timestamp_min p)
                (gossip_timestamp_max p) (broadcast_index p)) as H.
  pose proof (keys_above_size (broadcast_map (broadcasts r)) (broadcast_index p)).
  specialize (H ltac:(lia)).
  destruct (next_broadcast_from _ _ _ _ _) as [[payload|] k].
  - destruct H as (q & Hq & <- & Hlt & Hw & Hskip). split.
    + cbn zeta. exists k, q. split; [done|]. split; [done|]. peer_simpl.
      repeat (split; [done|]). exact Hskip.
    + intros Hempty. lia.
  - destruct H as (Hle & Hrest). split; [|done].
    cbn zeta. peer_simpl. repeat (split; [done|]). exact Hrest.
Qed.

Lemma maybe_queue_gossip_in_window_witness :
  (let m := broadcast_map (broadcasts sample_rstate) in
   match maybe_queue_gossip dev_default sample_rstate sample_peer with
   | (true, p') =>
       exists k q,
         m !! k = Some q /\ in_window sample_peer q /\
         dc p' = dc sample_peer ++ [stored (Some (qm_payload q))] /\
         broadcast_index sample_peer < k /\ broadcast_index p' = k /\
         gossip_timer p' = false /\
         forall k' q', m !! k' = Some q' -> broadcast_index sample_peer < k' < k ->
           ~ in_window sample_peer q'
   | (false, p') =>
       dc p' = dc sample_peer /\ gossip_timer p' = true /\
       forall k' q', m !! k' = Some q' -> broadcast_index sample_peer < k' ->
         k' <= broadcast_index p' /\ ~ in_window sample_peer q'
   end) /\
  (gossip_timestamp_max sample_peer < gossip_timestamp_min sample_peer ->
   fst (maybe_queue_gossip dev_default sample_rstate sample_peer) = false).
Proof.
  apply (maybe_queue_gossip_in_window dev_default sample_rstate sample_peer);
    reflexivity.
Defined.

(** ** Draining the broadcast log *)

Lemma maybe_queue_gossip_step dev r p :
  gossip_timer p = false ->
  suppress_gossip dev = false ->
  let m := broadcast_map (broadcasts r) in
  match maybe_queue_gossip dev r p with
  | (true, p') =>
      exists k q,
        m !! k = Some q /\ in_window p q /\
        dc p' = dc p ++ [stored (Some (qm_payload q))] /\
        broadcast_index p < k /\ broadcast_index p' = k /\
        gossip_timer p' = false /\
        (forall k' q', m !! k' = Some q' -> broadcast_index p < k' < k ->
           ~ in_window p q') /\
        gossip_timestamp_min p' = gossip_timestamp_min p /\
        gossip_timestamp_max p' = gossip_timestamp_max p /\
        scid_queries p' = scid_queries p /\
        scid_query_nodes p' = scid_query_nodes p /\
        scid_query_nodes_idx p' = scid_query_nodes_idx p
  | (false, p') =>
      dc p' = dc p /\ gossip_timer p' = true /\
      (forall k' q', m !! k' = Some q' -> broadcast_index p < k' ->
         k' <= broadcast_index p' /\ ~ in_window p q') /\
      gossip_timestamp_min p' = gossip_timestamp_min p /\
      gossip_timestamp_max p' = gossip_timestamp_max p /\
      scid_queries p' = scid_queries p /\
      scid_query_nodes p' = scid_query_nodes p /\
      scid_query_nodes_idx p' = scid_query_nodes_idx p
  end.
Proof.
  intros Ht Hs m. unfold maybe_queue_gossip. rewrite Ht, Hs.
  unfold next_broadcast.
  pose proof (next_broadcast_from_spec (S (size (broadcast_map (broadcasts r))))
                (broadcast_map (broadcasts r)) (gossip_timestamp_min p)
                (gossip_timestamp_max p) (broadcast_index p)) as H.
  pose proof (keys_above_size (broadcast_map (broadcasts r)) (broadcast_index p)).
  specialize (H ltac:(lia)).
  destruct (next_broadcast_from _ _ _ _ _) as [[payload|] k].
  - destruct H as (q & Hq & <- & Hlt & Hw & Hskip).
    exists k, q. split; [done|]. split; [done|]. peer_simpl.
    repeat (split; [done|]). done.
  - destruct H as (Hle & Hrest). peer_simpl. repeat (split; [done|]). done.
Qed.

Lemma armed_peer_stays X dev r n : forall p,
  query_done p (dc p) -> gossip_timer p = true ->
  exists p',
    peer_run X dev p (replicate n (r, ev_wake)) = Some p' /\
    dc p' = dc p /\ gossip_timer p' = true /\
    broadcast_index p' = broadcast_index p.
Proof.
  induction n as [|n IH]; intros p Hq Ht; cbn [replicate peer_run peer_step].
  - by exists p.
  - unfold dump_gossip.
    destruct (create_next_scid_reply_done r p (dc p) Hq) as (p1 & Hc & Hq1).
    pose proof (create_next_scid_reply_frame r p) as Hf. rewrite Hc in Hf.
    destruct Hf as (Hi & Ht1 & _). cbn [snd] in *.
    rewrite Hc. unfold maybe_queue_gossip. rewrite Ht1, Ht. cbn [snd].
    assert (Hd1 : dc p1 = dc p) by apply Hq1.
    destruct (IH p1) as (p' & Hrun & Hd & Ht' & Hi').
    { by rewrite Hd1. }
    { congruence. }
    exists p'. split; [done|]. repeat split; congruence.
Qed.

(** The write loop over a quiet peer: the entries of the window past the
    cursor, then the timer. *)
Lemma broadcast_log_drain X dev r n p :
  query_done p (dc p) ->
  gossip_timer p = false ->
  suppress_gossip dev = false ->
  (length (keys_above (broadcast_map (broadcasts r)) (broadcast_index p)) < n)%nat ->
  exists p' (L : list (Z * queued_message)),
    peer_run X dev p (replicate n (r, ev_wake)) = Some p' /\
    dc p' = dc p ++ ((fun kq => stored (Some (qm_payload kq.2))) <$> L) /\
    StronglySorted (fun a b => a.1 < b.1) L /\
    (forall k q, (k, q) ∈ L <->
       broadcast_map (broadcasts r) !! k = Some q /\
       broadcast_index p < k /\ in_window p q) /\
    gossip_timer p' = true.
Proof.
  revert p. induction n as [|n IH]; intros p Hq Ht Hs Hn; [lia|].
  cbn [replicate peer_run peer_step]. unfold dump_gossip.
  destruct (create_next_scid_reply_done r p (dc p) Hq) as (p1 & Hc & Hq1).
  pose proof (create_next_scid_reply_frame r p) as Hf. rewrite Hc in Hf.
  destruct Hf as (Hi & Ht1 & Hmin & Hmax). cbn [snd] in *.
  rewrite Hc.
  assert (Hd1 : dc p1 = dc p) by apply Hq1.
  assert (Hw1 : forall q, in_window p1 q <-> in_window p q).
  { intros q. unfold in_window. by rewrite Hmin, Hmax. }
  pose proof (maybe_queue_gossip_step dev r p1 ltac:(congruence) Hs) as Hstep.
  cbn zeta in Hstep.
  destruct (maybe_queue_gossip dev r p1) as [[|] p2]; cbn [snd].
  - destruct Hstep as (k & q & Hk & Hw & Hd & Hlt & Hi2 & Ht2 & Hskip
                       & Hmin2 & Hmax2 & Hq2a & Hq2b & Hq2c).
    assert (Hw2 : forall q, in_window p2 q <-> in_window p q).
    { intros q'. unfold in_window. by rewrite Hmin2, Hmax2, Hmin, Hmax. }
    destruct (IH p2) as (p' & L & Hrun & Hd' & Hsort & Hmem & Ht'); [| done | done | |].
    { destruct Hq1 as (H1 & H2 & H3 & _). unfold query_done.
      rewrite Hq2a, Hq2b, Hq2c. done. }
    { rewrite Hi2.
      assert (Hdec : (length (keys_above (broadcast_map (broadcasts r)) k)
                      < length (keys_above (broadcast_map (broadcasts r))
                                  (broadcast_index p)))%nat).
      { unfold keys_above.
        rewrite <- (list_filter_filter_l (fun kv => k < kv.1)
                      (fun kv => broadcast_index p < kv.1))
          by (intros x; cbn; lia).
        apply (length_filter_lt _ _ (k, q)).
        - apply list_elem_of_filter. split; [cbn; lia|].
          by apply elem_of_map_to_list.
        - cbn. lia. }
      lia. }
    exists p', ((k, q) :: L). split; [done|]. split; [|split; [|split; [|done]]].
    + rewrite Hd', Hd, Hd1. cbn [fmap list_fmap snd]. by rewrite <- app_assoc.
    + constructor; [done|]. apply Forall_forall. intros [k' q'] Hin.
      apply Hmem in Hin as (_ & Hlt' & _). cbn. lia.
    + intros k' q'. rewrite elem_of_cons, Hmem, Hi2, Hw2. split.
      * intros [Heq | (H1 & H2 & H3)].
        -- injection Heq as -> ->. split; [done|]. split; [lia|]. by apply Hw1.
        -- split; [done|]. split; [lia | done].
      * intros (H1 & H2 & H3). destruct (decide (k' = k)) as [->|Hne].
        -- left. congruence.
        -- right. split; [done|]. split; [|done].
           destruct (decide (k < k')); [done|]. exfalso.
           apply (Hskip k' q' H1); [lia | by apply Hw1].
  - destruct Hstep as (Hd & Ht2 & Hnone & Hmin2 & Hmax2 & Hq2a & Hq2b & Hq2c).
    destruct (armed_peer_stays X dev r n p2) as (p' & Hrun & Hd' & Ht' & _);
      [|done|].
    { destruct Hq1 as (H1 & H2 & H3 & _). unfold query_done.
      rewrite Hq2a, Hq2b, Hq2c. done. }
    exists p', []. split; [done|]. split; [|split; [constructor|split; [|done]]].
    + cbn. rewrite app_nil_r. congruence.
    + intros k q. split; [intros H; inversion H|].
      intros (H1 & H2 & H3). exfalso.
      apply (Hnone k q H1); [lia | by apply Hw1].
Qed.

(** X19.  The staggered broadcast delivers the peer's window, once and in
    log order.  A peer with no query to answer and its timer off, woken
    more often than the log has entries, with the log unchanged meanwhile,
    has been queued exactly the log entries past its cursor whose timestamp
    is inside its window, each once, in increasing log order, and nothing
    else; then the pacing timer is armed. *)
Theorem staggered_broadcast_drains X dev r n p :
  query_done p (dc p) ->
  gossip_timer p = false ->
  suppress_gossip dev = false ->
  (size (broadcast_map (broadcasts r)) < n)%nat ->
  exists p' (L : list (Z * queued_message)),
    peer_run X dev p (replicate n (r, ev_wake)) = Some p' /\
    dc p' = dc p ++ ((fun kq => stored (Some (qm_payload kq.2))) <$> L) /\
    StronglySorted (fun a b => a.1 < b.1) L /\
    (forall k q, (k, q) ∈ L <->
       broadcast_map (broadcasts r) !! k = Some q /\
       broadcast_index p < k /\ in_window p q) /\
    gossip_timer p' = true.
Proof.
  intros Hq Ht Hs Hn. apply broadcast_log_drain; try done.
  pose proof (keys_above_size (broadcast_map (broadcasts r)) (broadcast_index p)).
  lia.
Qed.

Lemma staggered_broadcast_drains_witness :
  exists p' (L : list (Z * queued_message)),
    peer_run sample_X dev_default sample_peer (replicate 4 (sample_rstate, ev_wake))
    = Some p' /\
    dc p' = dc sample_peer ++ ((fun kq => stored (Some (qm_payload kq.2))) <$> L) /\
    StronglySorted (fun a b => a.1 < b.1) L /\
    (forall k q, (k, q) ∈ L <->
       broadcast_map (broadcasts sample_rstate) !! k = Some q /\
       broadcast_index sample_peer < k /\ in_window sample_peer q) /\
    gossip_timer p' = true.
Proof.
  apply (staggered_broadcast_drains sample_X dev_default sample_rstate 4
           sample_peer).
  - repeat split.
  - reflexivity.
  - reflexivity.
  - change (size (broadcast_map (broadcasts sample_rstate))) with 3%nat. lia.
Defined.

(** An accepted filter on a peer whose window was empty, then the write
    loop: the entries of the new window, from the start of the log. *)
Lemma filter_then_drain X dev r p chain first range n :
  bitcoin_blkid_eq (chain_hash r) chain = true ->
  is_u32 first -> 1 <= range <= UINT32_MAX ->
  query_done p (dc p) ->
  gossip_timestamp_max p < gossip_timestamp_min p ->
  suppress_gossip dev = false ->
  (size (broadcast_map (broadcasts r)) < n)%nat ->
  exists p' (L : list (Z * queued_message)),
    peer_run X dev p
      ((r, ev_recv (WIRE_GOSSIP_TIMESTAMP_FILTER (Some (chain, first, range))))
       :: replicate n (r, ev_wake))
    = Some p' /\
    dc p' = dc p ++ ((fun kq => stored (Some (qm_payload kq.2))) <$> L) /\
    StronglySorted (fun a b => a.1 < b.1) L /\
    (forall k q, (k, q) ∈ L <->
       broadcast_map (broadcasts r) !! k = Some q /\ 0 < k /\
       first <= qm_timestamp q <= Z.min (first + range - 1) UINT32_MAX) /\
    gossip_timer p' = true.
Proof.
  intros Hc Hf Hr Hq Hempty Hs Hn.
  cbn [peer_run peer_step owner_msg_in].
  set (p1 := handle_gossip_timestamp_filter r p (Some (chain, first, range))).
  destruct (filter_accepted_fields r p chain first range Hc) as (Hmin & Hmax & Hidx).
  fold p1 in Hmin, Hmax, Hidx. cbn zeta in Hmax.
  assert (Hrest : dc p1 = dc p /\ gossip_timer p1 = false /\
                  scid_queries p1 = scid_queries p /\
                  scid_query_nodes p1 = scid_query_nodes p /\
                  scid_query_nodes_idx p1 = scid_query_nodes_idx p).
  { subst p1. unfold handle_gossip_timestamp_filter. rewrite Hc. cbn [negb].
    apply Z.ltb_lt in Hempty. rewrite Hempty.
    peer_simpl. destruct (_ <? first); peer_simpl; done. }
  destruct Hrest as (Hd & Ht & Hq1 & Hq2 & Hq3).
  assert (Hmax' : gossip_timestamp_max p1 = Z.min (first + range - 1) UINT32_MAX).
  { rewrite Hmax, filter_upper_bound by (unfold is_u32 in *; lia).
    change (2 ^ 32) with 4294967296.
    unfold is_u32, UINT32_MAX in *.
    destruct (first + range =? 0) eqn:E0; [apply Z.eqb_eq in E0; lia|].
    destruct (first + range - 1 <=? 4294967295) eqn:E1.
    - apply Z.leb_le in E1.
      destruct (first + range - 1 <? first) eqn:E2;
        [apply Z.ltb_lt in E2; lia | lia].
    - apply Z.leb_gt in E1.
      destruct (first + range - 1 - 4294967296 <? first) eqn:E2;
        [lia | apply Z.ltb_ge in E2; lia]. }
  destruct (broadcast_log_drain X dev r n p1) as (p' & L & Hrun & Hd' & Hsort & Hmem & Ht');
    [| done | done | |].
  { destruct Hq as (H1 & H2 & H3 & _). unfold query_done.
    rewrite Hq1, Hq2, Hq3. done. }
  { pose proof (keys_above_size (broadcast_map (broadcasts r)) (broadcast_index p1)).
    lia. }
  exists p', L. split; [done|]. split; [by rewrite Hd', Hd|].
  split; [done|]. split; [|done].
  intros k q. rewrite Hmem, Hidx. unfold in_window. by rewrite Hmin, Hmax'.
Qed.

(** X20.  A [gossip_timestamp_filter] selects what is broadcast; two
    nodes on the same chain.  One is asked by its main daemon to send a
    filter to a peer that negotiated [gossip_queries]: [send_timestamp_filter]
    queues one [gossip_timestamp_filter] for that peer and tells control
    nothing.  The other node, for which this peer's window was empty till
    then and which has no query of the peer to answer, handles that message
    and is then woken more often than its log has entries: it has queued
    exactly the log entries whose timestamp lies in [first, first + range -
    1], the upper end capped at 2^32 - 1, each once, in log order from the
    start of the log (index 0 is not used), and nothing else. *)
Theorem timestamp_filter_selects_broadcast X dev dA id i pB rB pA first range n :
  find_peer dA id = Some i ->
  peers dA !! i = Some pB ->
  gossip_queries_feature pB = true ->
  chain_hash rB = chain_hash (rstate dA) ->
  is_u32 first -> 1 <= range <= UINT32_MAX ->
  query_done pA (dc pA) ->
  gossip_timestamp_max pA < gossip_timestamp_min pA ->
  suppress_gossip dev = false ->
  (size (broadcast_map (broadcasts rB)) < n)%nat ->
  exists dA' pB' msg p' (L : list (Z * queued_message)),
    send_timestamp_filter dA (Some (id, first, range)) = Some dA' /\
    master dA' = master dA /\
    peers dA' !! i = Some pB' /\
    dc pB' = dc pB ++ [msg] /\
    peer_run X dev pA
      ((rB, ev_recv (WIRE_GOSSIP_TIMESTAMP_FILTER
                       (fromwire_gossip_timestamp_filter msg)))
       :: replicate n (rB, ev_wake))
    = Some p' /\
    dc p' = dc pA ++ ((fun kq => stored (Some (qm_payload kq.2))) <$> L) /\
    StronglySorted (fun a b => a.1 < b.1) L /\
    (forall k q, (k, q) ∈ L <->
       broadcast_map (broadcasts rB) !! k = Some q /\ 0 < k /\
       first <= qm_timestamp q <= Z.min (first + range - 1) UINT32_MAX) /\
    gossip_timer p' = true.
Proof.
  intros Hf Hp Hg Hch Hfirst Hrange Hq Hempty Hs Hn.
  destruct (filter_then_drain X dev rB pA (chain_hash (rstate dA)) first range n)
    as (p' & L & Hrun & HL); try done.
  { unfold bitcoin_blkid_eq. by apply bool_decide_eq_true. }
  unfold send_timestamp_filter. rewrite Hf, Hp.
  cbn [fmap option_fmap option_map default]. rewrite Hg. cbn [negb].
  eexists _, _, _, p', L. split; [reflexivity|]. split; [reflexivity|].
  unfold with_peer. cbn [peers set_peers].
  rewrite list_lookup_alter_eq, Hp. cbn [fmap option_fmap option_map].
  split; [reflexivity|]. split; [by peer_simpl|].
  cbn [fromwire_gossip_timestamp_filter]. done.
Qed.

Lemma timestamp_filter_selects_broadcast_witness :
  exists dA' pB' msg p' (L : list (Z * queued_message)),
    send_timestamp_filter sample_daemon (Some (key_m, 150, 100)) = Some dA' /\
    master dA' = master sample_daemon /\
    peers dA' !! 0%nat = Some pB' /\
    dc pB' = dc (new_peer sample_rstate key_m true false) ++ [msg] /\
    peer_run sample_X dev_default (new_peer sample_rstate key_us true false)
      ((sample_rstate,
        ev_recv (WIRE_GOSSIP_TIMESTAMP_FILTER
                   (fromwire_gossip_timestamp_filter msg)))
       :: replicate 4 (sample_rstate, ev_wake))
    = Some p' /\
    dc p'
    = dc (new_peer sample_rstate key_us true false)
      ++ ((fun kq => stored (Some (qm_payload kq.2))) <$> L) /\
    StronglySorted (fun a b => a.1 < b.1) L /\
    (forall k q, (k, q) ∈ L <->
       broadcast_map (broadcasts sample_rstate) !! k = Some q /\ 0 < k /\
       150 <= qm_timestamp q <= Z.min (150 + 100 - 1) UINT32_MAX) /\
    gossip_timer p' = true.
Proof.
  apply (timestamp_filter_selects_broadcast sample_X dev_default sample_daemon
           key_m 0%nat (new_peer sample_rstate key_m true false) sample_rstate
           (new_peer sample_rstate key_us true false) 150 100 4).
  - vm_compute. reflexivity.
  - reflexivity.
  - reflexivity.
  - reflexivity.
  - vm_compute. split; discriminate.
  - vm_compute. split; discriminate.
  - repeat split.
  - reflexivity.
  - reflexivity.
  - change (size (broadcast_map (broadcasts sample_rstate))) with 3%nat. lia.
Defined.

(** ** Node ids of a reply *)

Lemma sorted_lt_NoDup (l : list (list Z)) :
  StronglySorted pubkey_lt l -> NoDup l.
Proof.
  induction l as [|x l IH]; intros Hs; [constructor|].
  apply StronglySorted_inv in Hs as [Hs Hall].
  constructor; [|by apply IH]. intros Hin.
  rewrite Forall_forall in Hall. specialize (Hall x Hin).
  unfold pubkey_lt, pubkey_order, pubkey_cmp in Hall.
  rewrite memcmp_refl in Hall. discriminate Hall.
Qed.

(** X21.  [uniquify_node_ids] keeps every node id of its input exactly
    once: the result has the same members, no duplicate, is in strictly
    increasing byte order, and is no longer than the input. *)
Theorem uniquify_node_ids_unique (ids : list (list Z)) :
  (forall k, k ∈ uniquify_node_ids ids <-> k ∈ ids) /\
  NoDup (uniquify_node_ids ids) /\
  StronglySorted pubkey_lt (uniquify_node_ids ids) /\
  (length (uniquify_node_ids ids) <= length ids)%nat.
Proof.
  destruct (uniquify_node_ids_spec ids) as (Hs & Hm).
  assert (Hnd : NoDup (uniquify_node_ids ids)) by by apply sorted_lt_NoDup.
  split; [done|]. split; [done|]. split; [done|].
  apply submseteq_length, NoDup_submseteq; [done|].
  intros k Hk. by apply Hm.
Qed.

(** ** Disabling a local channel *)

(** X22.  Disabling is lazy.  When the channel daemon disables a public
    channel of ours whose routing parameters have not changed,
    [handle_local_channel_update] asks the signer for nothing and queues
    nothing: it only sets [local_disabled] on that channel.  The disabling
    [channel_update] is made when the update is next asked for:
    [maybe_update_local_channel] then regenerates it, with the disable bit
    and the parameters of the half, if the half was announced enabled, and
    leaves it alone if it was announced disabled already. *)
Theorem local_disable_is_lazy X d now s c direction a b e f g :
  get_channel (rstate d) s = Some c ->
  local_direction d c = Some direction ->
  is_chan_public c = true ->
  halfchan_new_info (half_at c direction) a b e f g = false ->
  let hc := half_at c direction in
  let c1 := set_local_disabled true c in
  let d1 :=
    set_rstate (set_chanmap (<[s := c1]> (chanmap (rstate d))) (rstate d)) d in
  handle_local_channel_update X d now (Some (s, true, (a, b, e, f, g)))
  = Some d1 /\
  (Z.land (channel_flags hc) ROUTING_FLAGS_DISABLED = 0 ->
   forall now',
     maybe_update_local_channel X d1 now' c1 direction
     = update_local_channel X d1 now' c1 direction true (delay hc)
         (htlc_minimum_msat hc) (base_fee hc) (proportional_fee hc)
         (htlc_maximum_msat hc)) /\
  (Z.land (channel_flags hc) ROUTING_FLAGS_DISABLED <> 0 ->
   forall now', maybe_update_local_channel X d1 now' c1 direction = Some d1).
Proof.
  intros Hc Hdir Hpub Hnew hc c1 d1.
  assert (Hdef : is_halfchan_defined hc = true).
  { unfold halfchan_new_info in Hnew. fold hc in Hnew.
    by destruct (is_halfchan_defined hc). }
  split; [|split].
  - unfold handle_local_channel_update. rewrite Hc, Hdir, Hnew, Hpub.
    cbn [negb andb orb]. rewrite andb_false_r. cbn [orb].
    subst d1 c1. do 3 f_equal.
    unfold get_channel in Hc. apply map_eq. intros k.
    destruct (decide (k = s)) as [->|Hne].
    + by rewrite lookup_alter_eq, lookup_insert_eq, Hc.
    + by rewrite lookup_alter_ne, lookup_insert_ne.
  - intros Hen now'. unfold maybe_update_local_channel.
    change (half_at c1 direction) with hc. rewrite Hdef, Hen. cbn.
    reflexivity.
  - intros Hdis now'. unfold maybe_update_local_channel.
    change (half_at c1 direction) with hc. rewrite Hdef. cbn [negb].
    apply Z.eqb_neq in Hdis. rewrite Hdis. reflexivity.
Qed.

Lemma local_disable_is_lazy_witness :
  let c := sample_chan scid_b1 key_us key_n in
  let hc := half_at c 0 in
  let c1 := set_local_disabled true c in
  let d1 :=
    set_rstate
      (set_chanmap (<[scid_b1 := c1]> (chanmap (rstate sample_daemon)))
         (rstate sample_daemon)) sample_daemon in
  handle_local_channel_update sample_X sample_daemon 1000
    (Some (scid_b1, true, (6, 0, 1000, 10, 100000)))
  = Some d1 /\
  (Z.land (channel_flags hc) ROUTING_FLAGS_DISABLED = 0 ->
   forall now',
     maybe_update_local_channel sample_X d1 now' c1 0
     = update_local_channel sample_X d1 now' c1 0 true (delay hc)
         (htlc_minimum_msat hc) (base_fee hc) (proportional_fee hc)
         (htlc_maximum_msat hc)) /\
  (Z.land (channel_flags hc) ROUTING_FLAGS_DISABLED <> 0 ->
   forall now', maybe_update_local_channel sample_X d1 now' c1 0 = Some d1).
Proof.
  apply (local_disable_is_lazy sample_X sample_daemon 1000 scid_b1
           (sample_chan scid_b1 key_us key_n) 0 6 0 1000 10 100000).
  - vm_compute. reflexivity.
  - vm_compute. reflexivity.
  - reflexivity.
  - reflexivity.
Defined.

(** ** The keep-alive sweep *)

(** X23.  The sweep refreshes only what is due.  When none of our
    channels has a half of ours that is defined, enabled and last updated
    no later than half the prune timeout ago, [gossip_refresh_network]
    asks the signer for nothing, queues nothing, and changes the graph by
    the pruning of the routing core alone. *)
Theorem refresh_network_only_due_halves X d now :
  (forall n k c,
     get_node (rstate d) (daemon_id d) = Some n ->
     k ∈ chans n -> chanmap (rstate d) !! k = Some c ->
     is_halfchan_defined (half_chan_from n c) = false \/
     now - prune_timeout (rstate d) / 2 < last_timestamp (half_chan_from n c) \/
     is_halfchan_enabled (half_chan_from n c) = false) ->
  gossip_refresh_network X d now
  = Some (set_rstate (route_prune X (rstate d)) d).
Proof.
  intros Hdue. unfold gossip_refresh_network.
  destruct (get_node (rstate d) (daemon_id d)) as [n|] eqn:En; [|done].
  specialize (Hdue n).
  assert (Hfold : forall l : list Z,
    (forall k c, k ∈ l -> chanmap (rstate d) !! k = Some c ->
       is_halfchan_defined (half_chan_from n c) = false \/
       now - prune_timeout (rstate d) / 2 < last_timestamp (half_chan_from n c) \/
       is_halfchan_enabled (half_chan_from n c) = false) ->
    foldl
      (fun acc k =>
         match acc with
         | None => None
         | Some d0 =>
             match chanmap (rstate d0) !! k with
             | None => Some d0
             | Some c =>
                 let hc := half_chan_from n c in
                 if negb (is_halfchan_defined hc) then Some d0
                 else if now - prune_timeout (rstate d) / 2 <? last_timestamp hc
                      then Some d0
                 else if negb (is_halfchan_enabled hc) then Some d0
                 else gossip_send_keepalive_update X d0 now c hc
             end
         end) (Some d) l = Some d).
  { induction l as [|k l IH]; intros Hl; [done|]. cbn [foldl].
    match goal with |- foldl ?f ?a l = _ => replace a with (Some d) end.
    - apply IH. intros k' c' Hk' Hc'. apply (Hl k' c'); [by right | done].
    - symmetry. destruct (chanmap (rstate d) !! k) as [c|] eqn:Ec; [|done].
      cbn zeta. destruct (Hl k c ltac:(left) Ec) as [H | [H | H]].
      + by rewrite H.
      + destruct (negb _); [done|]. apply Z.ltb_lt in H. by rewrite H.
      + destruct (negb (is_halfchan_defined _)); [done|].
        destruct (_ <? _); [done|]. by rewrite H. }
  rewrite Hfold; [done|]. intros k c Hk Hc. exact (Hdue k c eq_refl Hk Hc).
Qed.

Lemma refresh_network_only_due_halves_witness :
  gossip_refresh_network sample_X sample_daemon 50
  = Some (set_rstate (route_prune sample_X (rstate sample_daemon)) sample_daemon).
Proof.
  apply (refresh_network_only_due_halves sample_X sample_daemon 50).
  intros n k c Hn Hk Hc. right. left.
  vm_compute in Hn. injection Hn as <-. cbn [chans] in Hk.
  apply elem_of_cons in Hk as [-> | Hk];
    [|apply list_elem_of_singleton in Hk as ->];
    vm_compute in Hc; injection Hc as <-; vm_compute; reflexivity.
Defined.
